(** * imv: the session controller of [src/imv.c]

    A shallow embedding of the controller of the imv image viewer: the
    [struct imv] session state, the option handling of [imv_parse_args],
    the event handler [handle_event], the command handlers and the body of
    the frame loop of [imv_run].

    Conventions.
    - C integers are [Z] with the wrap-around written out; the platform is
      LP64 ([unsigned long] and [long] are 64 bits wide, [unsigned int],
      [uint32_t] and SDL's [Uint32] 32 bits).
    - C strings are [string]; [NULL] pointers are [None].
    - The collaborators whose code lives in other files (loader, viewport,
      texture, SDL, stdio) are not given a state: every call the controller
      makes to them is appended to the [trace] field of the session, and
      every value they hand back is an input of the tick.
    - Undefined behaviour of the C program (a write past a buffer, a read
      before one, a [NULL] handed to [strdup]) is an explicit [Fault].
    - The navigator and the command registry are declared in headers whose
      implementation is in other files; their definitions here follow the
      specification of the project and say so.
    - Left out: the text of the window title (kept by its parts) and the
      pixels. *)

From Stdlib Require Import ZArith List String Ascii Bool Lia QArith.
Import ListNotations.
Local Open Scope string_scope.
Local Open Scope Z_scope.

Set Implicit Arguments.

(* ===================================================================== *)
(** * Part I: definitions                                                 *)
(* ===================================================================== *)

(** ** Results and faults *)

Inductive fault : Type :=
| NullPointer (where_ : string)     (* a NULL pointer handed to libc *)
| BufferOverflow (where_ : string)  (* a write past the end of an object *)
| OutOfBounds (where_ : string)     (* a read outside an object *)
| SignedOverflow (where_ : string). (* overflow of a signed integer *)

Inductive result (A : Type) : Type :=
| OK (a : A)
| Fault (f : fault).
Arguments OK {A} a.
Arguments Fault {A} f.

Definition bind {A B : Type} (m : result A) (k : A -> result B) : result B :=
  match m with
  | OK a => k a
  | Fault f => Fault f
  end.

Notation "x <- m ;; k" := (bind m (fun x => k))
  (at level 61, m at next level, right associativity).

(** ** C integer types *)

Module C.

Definition ULONG_MAX : Z := 2 ^ 64 - 1.
Definition LONG_MAX : Z := 2 ^ 63 - 1.
Definition LONG_MIN : Z := - 2 ^ 63.

(** Conversion to [unsigned long], [uint32_t]/[unsigned int] and
    [unsigned char]. *)
Definition ulong (z : Z) : Z := z mod 2 ^ 64.
Definition uint (z : Z) : Z := z mod 2 ^ 32.
Definition uchar (z : Z) : Z := z mod 2 ^ 8.

(** Conversion of an [unsigned long] to [long] (two's complement). *)
Definition long_of_ulong (z : Z) : Z :=
  if z <? 2 ^ 63 then z else z - 2 ^ 64.

(** Conversion of an [unsigned int] to [int] (two's complement). *)
Definition int_of_uint (z : Z) : Z :=
  let m := z mod 2 ^ 32 in
  if m <? 2 ^ 31 then m else m - 2 ^ 32.

Definition in_long (z : Z) : bool := (LONG_MIN <=? z) && (z <=? LONG_MAX).

(** [isspace] in the C locale. *)
Definition isspace (c : ascii) : bool :=
  let n := Z.of_N (N_of_ascii c) in
  (n =? 32) || ((9 <=? n) && (n <=? 13)).

(** The value of a character as a digit, letters counting from 10. *)
Definition digit_value (c : ascii) : option Z :=
  let n := Z.of_N (N_of_ascii c) in
  if (48 <=? n) && (n <=? 57) then Some (n - 48)
  else if (97 <=? n) && (n <=? 122) then Some (n - 87)
  else if (65 <=? n) && (n <=? 90) then Some (n - 55)
  else None.

Definition digit_of (base : Z) (c : ascii) : option Z :=
  match digit_value c with
  | Some d => if d <? base then Some d else None
  | None => None
  end.

(** The longest run of digits: its value and its length. *)
Fixpoint scan_digits (base : Z) (cs : list ascii) (acc : Z) (n : nat)
  : Z * nat :=
  match cs with
  | c :: cs' =>
      match digit_of base c with
      | Some d => scan_digits base cs' (acc * base + d) (S n)
      | None => (acc, n)
      end
  | [] => (acc, n)
  end.

Fixpoint skip_space (cs : list ascii) (n : nat) : list ascii * nat :=
  match cs with
  | c :: cs' => if isspace c then skip_space cs' (S n) else (cs, n)
  | [] => (cs, n)
  end.

Definition skip_sign (cs : list ascii) : bool * list ascii * nat :=
  match cs with
  | "-"%char :: cs' => (true, cs', 1%nat)
  | "+"%char :: cs' => (false, cs', 1%nat)
  | _ => (false, cs, 0%nat)
  end.

(** In base 16 an [0x] or [0X] may precede the digits, when a
    hexadecimal digit follows it. *)
Definition skip_prefix (base : Z) (cs : list ascii) : list ascii * nat :=
  match cs with
  | "0"%char :: x :: h :: cs' =>
      if (base =? 16)
         && (Ascii.eqb x "x" || Ascii.eqb x "X")
         && (match digit_of 16 h with Some _ => true | None => false end)
      then (h :: cs', 2%nat)
      else (cs, 0%nat)
  | _ => (cs, 0%nat)
  end.

(** The subject sequence of [strtol] and [strtoul]: white space, an
    optional sign, an optional prefix, digits.  [None] when there is no
    digit (no conversion is performed). *)
Record number : Type := { negative : bool; magnitude : Z; used : nat }.

Definition scan_number (base : Z) (s : string) : option number :=
  let '(cs1, n1) := skip_space (list_ascii_of_string s) 0 in
  let '(neg, cs2, n2) := skip_sign cs1 in
  let '(cs3, n3) := skip_prefix base cs2 in
  let '(v, n4) := scan_digits base cs3 0 0 in
  match n4 with
  | O => None
  | _ => Some {| negative := neg; magnitude := v;
                 used := (n1 + n2 + n3 + n4)%nat |}
  end.

(** [strtoul(s, &end, base)]: the value and [end - s]. *)
Definition strtoul (s : string) (base : Z) : Z * nat :=
  match scan_number base s with
  | None => (0, 0%nat)
  | Some t =>
      (if ULONG_MAX <? magnitude t then ULONG_MAX
       else if negative t then ulong (- magnitude t)
       else magnitude t,
       used t)
  end.

(** [strtol(s, NULL, base)]. *)
Definition strtol (s : string) (base : Z) : Z :=
  match scan_number base s with
  | None => 0
  | Some t =>
      if negative t
      then (if - magnitude t <? LONG_MIN then LONG_MIN else - magnitude t)
      else (if LONG_MAX <? magnitude t then LONG_MAX else magnitude t)
  end.

(** The C string at the start of a buffer: the bytes before the first
    NUL. *)
Fixpoint cstr (buf : string) : string :=
  match buf with
  | EmptyString => EmptyString
  | String c rest =>
      if Ascii.eqb c "000" then EmptyString else String c (cstr rest)
  end.

(** The string from offset [n] on ([s + n]). *)
Fixpoint advance (n : nat) (s : string) : string :=
  match n, s with
  | S n', String _ s' => advance n' s'
  | _, _ => s
  end.

(** [*s]: the first character, [None] for the terminating NUL. *)
Definition deref (s : string) : option ascii :=
  match s with
  | String c _ => Some c
  | EmptyString => None
  end.

Fixpoint removelast_string (s : string) : string :=
  match s with
  | EmptyString => EmptyString
  | String c EmptyString => EmptyString
  | String c s' => String c (removelast_string s')
  end.

Fixpoint take (n : nat) (s : string) : string :=
  match n, s with
  | S n', String c s' => String c (take n' s')
  | _, _ => EmptyString
  end.

End C.

(** ** The data of the session *)

Inductive enum_scaling_mode : Type :=
| SCALING_NONE
| SCALING_DOWN
| SCALING_FULL.

Definition scaling_label (m : enum_scaling_mode) : string :=
  match m with
  | SCALING_NONE => "actual size"
  | SCALING_DOWN => "shrink to fit"
  | SCALING_FULL => "scale to fit"
  end.

(** [imv->scaling_mode++; imv->scaling_mode %= SCALING_MODE_COUNT]. *)
Definition next_scaling_mode (m : enum_scaling_mode) : enum_scaling_mode :=
  match m with
  | SCALING_NONE => SCALING_DOWN
  | SCALING_DOWN => SCALING_FULL
  | SCALING_FULL => SCALING_NONE
  end.

Inductive enum_background_type : Type :=
| BACKGROUND_SOLID
| BACKGROUND_CHEQUERED.

Record color : Type := mk_color { r : Z; g : Z; b : Z }.

(** ** Source cursor ([navigator.h]) *)

(** Modelled from the spec: the navigator ([navigator.c] is not part of
    the sources).  An ordered sequence of identifiers, a current index and
    the two poll-and-clear latches "changed" and "wrapped"; the selection
    is the identifier at the index, none on an empty sequence. *)
Record imv_navigator : Type := mk_navigator {
  paths : list string;
  cur_path : nat;
  changed : bool;
  wrapped : bool
}.

Definition num_paths (nav : imv_navigator) : Z :=
  Z.of_nat (List.length (paths nav)).

(** Modelled from the spec: [current() -> identifier or none]. *)
Definition imv_navigator_selection (nav : imv_navigator) : option string :=
  nth_error (paths nav) (cur_path nav).

(** Modelled from the spec: [poll_changed] returns the latch and clears
    it. *)
Definition imv_navigator_poll_changed (nav : imv_navigator)
  : bool * imv_navigator :=
  (changed nav, mk_navigator (paths nav) (cur_path nav) false (wrapped nav)).

(** Modelled from the spec: [poll_wrapped], with the same poll-and-clear
    contract. *)
Definition imv_navigator_wrapped (nav : imv_navigator)
  : bool * imv_navigator :=
  (wrapped nav, mk_navigator (paths nav) (cur_path nav) (changed nav) false).

(** Modelled from the spec: [select_relative(delta)] moves the index by
    [delta] positions modulo the length; crossing either end sets the
    wrapped latch, a mutated index sets the changed latch; no-op on an
    empty sequence. *)
Definition imv_navigator_select_rel (nav : imv_navigator) (delta : Z)
  : imv_navigator :=
  match paths nav with
  | [] => nav
  | _ =>
      let n := num_paths nav in
      let target := Z.of_nat (cur_path nav) + delta in
      let idx := Z.to_nat (target mod n) in
      mk_navigator (paths nav) idx
        (changed nav || negb (Nat.eqb idx (cur_path nav)))
        (wrapped nav || (target <? 0) || (n <=? target))
  end.

Fixpoint remove_first (id : string) (l : list string) : list string :=
  match l with
  | [] => []
  | x :: l' => if String.eqb id x then l' else x :: remove_first id l'
  end.

Definition selection_eqb (a b : option string) : bool :=
  match a, b with
  | Some x, Some y => String.eqb x y
  | None, None => true
  | _, _ => false
  end.

(** Modelled from the spec: [remove(identifier)] removes the first
    occurrence; the index keeps its number while that is in range, else
    becomes the new last position; the changed latch is set only when the
    selected identifier differs afterwards. *)
Definition imv_navigator_remove (nav : imv_navigator) (id : string)
  : imv_navigator :=
  let ps := remove_first id (paths nav) in
  let idx := Nat.min (cur_path nav) (Nat.pred (List.length ps)) in
  mk_navigator ps idx
    (changed nav
     || negb (selection_eqb (nth_error ps idx) (imv_navigator_selection nav)))
    (wrapped nav).

(** Modelled from the spec: [add(identifier, recursive)] appends the
    identifier, or the entries of the directory it names when [recursive];
    index and latches are left alone.  [ls] is the directory listing of
    the file system ([None] for what is not a directory). *)
Definition imv_navigator_add (ls : string -> option (list string))
  (nav : imv_navigator) (path : string) (recursive : bool) : imv_navigator :=
  let new :=
    match recursive, ls path with
    | true, Some entries => entries
    | _, _ => [path]
    end in
  mk_navigator (paths nav ++ new)%list (cur_path nav) (changed nav) (wrapped nav).

(** ** Command registry ([commands.h]) *)

(** The handlers a name can be bound to: the eight [command_*] functions
    of [imv.c], registered through their address. *)
Inductive handler : Type :=
| command_quit_ptr
| command_pan_ptr
| command_select_rel_ptr
| command_select_abs_ptr
| command_zoom_ptr
| command_remove_ptr
| command_fullscreen_ptr
| command_overlay_ptr.

(** Modelled from the spec: the registry ([commands.c] is not part of the
    sources) maps names to handlers and alias names to literal command
    lines; the newest binding of a name wins. *)
Record imv_commands : Type := mk_commands {
  handlers : list (string * handler);
  aliases : list (string * string)
}.

Definition imv_commands_create : imv_commands := mk_commands [] [].

Definition imv_command_register (cmds : imv_commands) (name : string)
  (h : handler) : imv_commands :=
  mk_commands ((name, h) :: handlers cmds) (aliases cmds).

Definition imv_command_alias (cmds : imv_commands) (name : string)
  (expansion : string) : imv_commands :=
  mk_commands (handlers cmds) ((name, expansion) :: aliases cmds).

Fixpoint lookup {A : Type} (name : string) (l : list (string * A))
  : option A :=
  match l with
  | [] => None
  | (k, v) :: l' => if String.eqb name k then Some v else lookup name l'
  end.

(** Splitting a line on white space. *)
Fixpoint tokens_of (cs : list ascii) (cur : list ascii) : list string :=
  let flush (rest : list string) :=
    match cur with
    | [] => rest
    | _ => string_of_list_ascii (rev cur) :: rest
    end in
  match cs with
  | [] => flush []
  | c :: cs' =>
      if C.isspace c then flush (tokens_of cs' [])
      else tokens_of cs' (c :: cur)
  end.

Definition tokenize (line : string) : list string :=
  tokens_of (list_ascii_of_string line) [].

(** ** Calls to the collaborators *)

Inductive zoom_source : Type :=
| IMV_ZOOM_MOUSE
| IMV_ZOOM_KEYBOARD.

(** The window title, by its parts: position and count, the path and the
    scaling label; the slideshow counter of [render_window] when the
    interval is a second or more. *)
Inductive title : Type :=
| title_loading (index count : Z) (path : string) (label : string)
| title_shown (index count : Z) (path : option string) (label : string)
    (slideshow : option (Z * Z)).

Inductive call : Type :=
| fprintf_stderr (msg : string)
| puts (line : string)
| free_stdin_image_data
| SDL_ShowCursor (enable : bool)
| SDL_StartTextInput
| SDL_StopTextInput
| SDL_RenderPresent
| SDL_Delay (ms : Z)
| imv_loader_load (path : string) (data : option (list Byte.byte)) (len : Z)
| imv_loader_time_passed (dt : Q)
| imv_loader_load_next_frame
| imv_texture_set_image (width height : Z)
| imv_viewport_set_title (t : title)
| imv_viewport_scale_to_actual
| imv_viewport_scale_to_window
| imv_viewport_zoom (source : zoom_source) (amount : Z)
| imv_viewport_move (x y : Z)
| imv_viewport_center
| imv_viewport_update
| imv_viewport_toggle_fullscreen
| imv_viewport_toggle_playing
| draw_window (overlay : bool) (command_line : option string).

(** ** [struct imv] *)

(** The fields of the C struct, with the handles of the collaborators
    replaced: [navigator] and [commands] by their models, [view] by the
    one field the controller reads and writes ([view->playing]), the rest
    by the [trace] of calls made so far (oldest first).  The buffer behind
    [input_buffer] has [command_buffer_len] bytes. *)
Record imv : Type := mk_imv {
  quit : bool;
  fullscreen : bool;
  overlay_enabled : bool;
  nearest_neighbour : bool;
  need_redraw : bool;
  need_rescale : bool;
  recursive_load : bool;
  cycle_input : bool;
  list_at_exit : bool;
  paths_from_stdin : bool;
  scaling_mode : enum_scaling_mode;
  background_type : enum_background_type;
  background_color : color;
  slideshow_image_duration : Z;
  slideshow_time_elapsed : Z;
  font_name : string;
  navigator : imv_navigator;
  commands : imv_commands;
  view_playing : bool;
  stdin_image_data : option (list Byte.byte);
  stdin_image_data_len : Z;
  input_buffer : option string;
  starting_path : option string;
  trace : list call
}.

(** Field updates ([imv->f = v]). *)

Definition set_quit (v : bool) (s : imv) : imv :=
  mk_imv v (fullscreen s) (overlay_enabled s) (nearest_neighbour s)
    (need_redraw s) (need_rescale s) (recursive_load s) (cycle_input s)
    (list_at_exit s) (paths_from_stdin s) (scaling_mode s)
    (background_type s) (background_color s) (slideshow_image_duration s)
    (slideshow_time_elapsed s) (font_name s) (navigator s) (commands s)
    (view_playing s) (stdin_image_data s) (stdin_image_data_len s)
    (input_buffer s) (starting_path s) (trace s).

Definition set_fullscreen (v : bool) (s : imv) : imv :=
  mk_imv (quit s) v (overlay_enabled s) (nearest_neighbour s)
    (need_redraw s) (need_rescale s) (recursive_load s) (cycle_input s)
    (list_at_exit s) (paths_from_stdin s) (scaling_mode s)
    (background_type s) (background_color s) (slideshow_image_duration s)
    (slideshow_time_elapsed s) (font_name s) (navigator s) (commands s)
    (view_playing s) (stdin_image_data s) (stdin_image_data_len s)
    (input_buffer s) (starting_path s) (trace s).

Definition set_overlay_enabled (v : bool) (s : imv) : imv :=
  mk_imv (quit s) (fullscreen s) v (nearest_neighbour s) (need_redraw s)
    (need_rescale s) (recursive_load s) (cycle_input s) (list_at_exit s)
    (paths_from_stdin s) (scaling_mode s) (background_type s)
    (background_color s) (slideshow_image_duration s)
    (slideshow_time_elapsed s) (font_name s) (navigator s) (commands s)
    (view_playing s) (stdin_image_data s) (stdin_image_data_len s)
    (input_buffer s) (starting_path s) (trace s).

Definition set_nearest_neighbour (v : bool) (s : imv) : imv :=
  mk_imv (quit s) (fullscreen s) (overlay_enabled s) v (need_redraw s)
    (need_rescale s) (recursive_load s) (cycle_input s) (list_at_exit s)
    (paths_from_stdin s) (scaling_mode s) (background_type s)
    (background_color s) (slideshow_image_duration s)
    (slideshow_time_elapsed s) (font_name s) (navigator s) (commands s)
    (view_playing s) (stdin_image_data s) (stdin_image_data_len s)
    (input_buffer s) (starting_path s) (trace s).

Definition set_need_redraw (v : bool) (s : imv) : imv :=
  mk_imv (quit s) (fullscreen s) (overlay_enabled s) (nearest_neighbour s) v
    (need_rescale s) (recursive_load s) (cycle_input s) (list_at_exit s)
    (paths_from_stdin s) (scaling_mode s) (background_type s)
    (background_color s) (slideshow_image_duration s)
    (slideshow_time_elapsed s) (font_name s) (navigator s) (commands s)
    (view_playing s) (stdin_image_data s) (stdin_image_data_len s)
    (input_buffer s) (starting_path s) (trace s).

Definition set_need_rescale (v : bool) (s : imv) : imv :=
  mk_imv (quit s) (fullscreen s) (overlay_enabled s) (nearest_neighbour s)
    (need_redraw s) v (recursive_load s) (cycle_input s) (list_at_exit s)
    (paths_from_stdin s) (scaling_mode s) (background_type s)
    (background_color s) (slideshow_image_duration s)
    (slideshow_time_elapsed s) (font_name s) (navigator s) (commands s)
    (view_playing s) (stdin_image_data s) (stdin_image_data_len s)
    (input_buffer s) (starting_path s) (trace s).

Definition set_recursive_load (v : bool) (s : imv) : imv :=
  mk_imv (quit s) (fullscreen s) (overlay_enabled s) (nearest_neighbour s)
    (need_redraw s) (need_rescale s) v (cycle_input s) (list_at_exit s)
    (paths_from_stdin s) (scaling_mode s) (background_type s)
    (background_color s) (slideshow_image_duration s)
    (slideshow_time_elapsed s) (font_name s) (navigator s) (commands s)
    (view_playing s) (stdin_image_data s) (stdin_image_data_len s)
    (input_buffer s) (starting_path s) (trace s).

Definition set_cycle_input (v : bool) (s : imv) : imv :=
  mk_imv (quit s) (fullscreen s) (overlay_enabled s) (nearest_neighbour s)
    (need_redraw s) (need_rescale s) (recursive_load s) v (list_at_exit s)
    (paths_from_stdin s) (scaling_mode s) (background_type s)
    (background_color s) (slideshow_image_duration s)
    (slideshow_time_elapsed s) (font_name s) (navigator s) (commands s)
    (view_playing s) (stdin_image_data s) (stdin_image_data_len s)
    (input_buffer s) (starting_path s) (trace s).

Definition set_list_at_exit (v : bool) (s : imv) : imv :=
  mk_imv (quit s) (fullscreen s) (overlay_enabled s) (nearest_neighbour s)
    (need_redraw s) (need_rescale s) (recursive_load s) (cycle_input s) v
    (paths_from_stdin s) (scaling_mode s) (background_type s)
    (background_color s) (slideshow_image_duration s)
    (slideshow_time_elapsed s) (font_name s) (navigator s) (commands s)
    (view_playing s) (stdin_image_data s) (stdin_image_data_len s)
    (input_buffer s) (starting_path s) (trace s).

Definition set_paths_from_stdin (v : bool) (s : imv) : imv :=
  mk_imv (quit s) (fullscreen s) (overlay_enabled s) (nearest_neighbour s)
    (need_redraw s) (need_rescale s) (recursive_load s) (cycle_input s)
    (list_at_exit s) v (scaling_mode s) (background_type s)
    (background_color s) (slideshow_image_duration s)
    (slideshow_time_elapsed s) (font_name s) (navigator s) (commands s)
    (view_playing s) (stdin_image_data s) (stdin_image_data_len s)
    (input_buffer s) (starting_path s) (trace s).

Definition set_scaling_mode (v : enum_scaling_mode) (s : imv) : imv :=
  mk_imv (quit s) (fullscreen s) (overlay_enabled s) (nearest_neighbour s)
    (need_redraw s) (need_rescale s) (recursive_load s) (cycle_input s)
    (list_at_exit s) (paths_from_stdin s) v (background_type s)
    (background_color s) (slideshow_image_duration s)
    (slideshow_time_elapsed s) (font_name s) (navigator s) (commands s)
    (view_playing s) (stdin_image_data s) (stdin_image_data_len s)
    (input_buffer s) (starting_path s) (trace s).

Definition set_background_type (v : enum_background_type) (s : imv) : imv :=
  mk_imv (quit s) (fullscreen s) (overlay_enabled s) (nearest_neighbour s)
    (need_redraw s) (need_rescale s) (recursive_load s) (cycle_input s)
    (list_at_exit s) (paths_from_stdin s) (scaling_mode s) v
    (background_color s) (slideshow_image_duration s)
    (slideshow_time_elapsed s) (font_name s) (navigator s) (commands s)
    (view_playing s) (stdin_image_data s) (stdin_image_data_len s)
    (input_buffer s) (starting_path s) (trace s).

Definition set_background_color (v : color) (s : imv) : imv :=
  mk_imv (quit s) (fullscreen s) (overlay_enabled s) (nearest_neighbour s)
    (need_redraw s) (need_rescale s) (recursive_load s) (cycle_input s)
    (list_at_exit s) (paths_from_stdin s) (scaling_mode s)
    (background_type s) v (slideshow_image_duration s)
    (slideshow_time_elapsed s) (font_name s) (navigator s) (commands s)
    (view_playing s) (stdin_image_data s) (stdin_image_data_len s)
    (input_buffer s) (starting_path s) (trace s).

Definition set_slideshow_image_duration (v : Z) (s : imv) : imv :=
  mk_imv (quit s) (fullscreen s) (overlay_enabled s) (nearest_neighbour s)
    (need_redraw s) (need_rescale s) (recursive_load s) (cycle_input s)
    (list_at_exit s) (paths_from_stdin s) (scaling_mode s)
    (background_type s) (background_color s) v (slideshow_time_elapsed s)
    (font_name s) (navigator s) (commands s) (view_playing s)
    (stdin_image_data s) (stdin_image_data_len s) (input_buffer s)
    (starting_path s) (trace s).

Definition set_slideshow_time_elapsed (v : Z) (s : imv) : imv :=
  mk_imv (quit s) (fullscreen s) (overlay_enabled s) (nearest_neighbour s)
    (need_redraw s) (need_rescale s) (recursive_load s) (cycle_input s)
    (list_at_exit s) (paths_from_stdin s) (scaling_mode s)
    (background_type s) (background_color s) (slideshow_image_duration s) v
    (font_name s) (navigator s) (commands s) (view_playing s)
    (stdin_image_data s) (stdin_image_data_len s) (input_buffer s)
    (starting_path s) (trace s).

Definition set_font_name (v : string) (s : imv) : imv :=
  mk_imv (quit s) (fullscreen s) (overlay_enabled s) (nearest_neighbour s)
    (need_redraw s) (need_rescale s) (recursive_load s) (cycle_input s)
    (list_at_exit s) (paths_from_stdin s) (scaling_mode s)
    (background_type s) (background_color s) (slideshow_image_duration s)
    (slideshow_time_elapsed s) v (navigator s) (commands s) (view_playing s)
    (stdin_image_data s) (stdin_image_data_len s) (input_buffer s)
    (starting_path s) (trace s).

Definition set_navigator (v : imv_navigator) (s : imv) : imv :=
  mk_imv (quit s) (fullscreen s) (overlay_enabled s) (nearest_neighbour s)
    (need_redraw s) (need_rescale s) (recursive_load s) (cycle_input s)
    (list_at_exit s) (paths_from_stdin s) (scaling_mode s)
    (background_type s) (background_color s) (slideshow_image_duration s)
    (slideshow_time_elapsed s) (font_name s) v (commands s) (view_playing s)
    (stdin_image_data s) (stdin_image_data_len s) (input_buffer s)
    (starting_path s) (trace s).

Definition set_view_playing (v : bool) (s : imv) : imv :=
  mk_imv (quit s) (fullscreen s) (overlay_enabled s) (nearest_neighbour s)
    (need_redraw s) (need_rescale s) (recursive_load s) (cycle_input s)
    (list_at_exit s) (paths_from_stdin s) (scaling_mode s)
    (background_type s) (background_color s) (slideshow_image_duration s)
    (slideshow_time_elapsed s) (font_name s) (navigator s) (commands s) v
    (stdin_image_data s) (stdin_image_data_len s) (input_buffer s)
    (starting_path s) (trace s).

Definition set_stdin_image_data (v : option (list Byte.byte)) (s : imv) : imv :=
  mk_imv (quit s) (fullscreen s) (overlay_enabled s) (nearest_neighbour s)
    (need_redraw s) (need_rescale s) (recursive_load s) (cycle_input s)
    (list_at_exit s) (paths_from_stdin s) (scaling_mode s)
    (background_type s) (background_color s) (slideshow_image_duration s)
    (slideshow_time_elapsed s) (font_name s) (navigator s) (commands s)
    (view_playing s) v (stdin_image_data_len s) (input_buffer s)
    (starting_path s) (trace s).

Definition set_stdin_image_data_len (v : Z) (s : imv) : imv :=
  mk_imv (quit s) (fullscreen s) (overlay_enabled s) (nearest_neighbour s)
    (need_redraw s) (need_rescale s) (recursive_load s) (cycle_input s)
    (list_at_exit s) (paths_from_stdin s) (scaling_mode s)
    (background_type s) (background_color s) (slideshow_image_duration s)
    (slideshow_time_elapsed s) (font_name s) (navigator s) (commands s)
    (view_playing s) (stdin_image_data s) v (input_buffer s)
    (starting_path s) (trace s).

Definition set_input_buffer (v : option string) (s : imv) : imv :=
  mk_imv (quit s) (fullscreen s) (overlay_enabled s) (nearest_neighbour s)
    (need_redraw s) (need_rescale s) (recursive_load s) (cycle_input s)
    (list_at_exit s) (paths_from_stdin s) (scaling_mode s)
    (background_type s) (background_color s) (slideshow_image_duration s)
    (slideshow_time_elapsed s) (font_name s) (navigator s) (commands s)
    (view_playing s) (stdin_image_data s) (stdin_image_data_len s) v
    (starting_path s) (trace s).

Definition set_starting_path (v : option string) (s : imv) : imv :=
  mk_imv (quit s) (fullscreen s) (overlay_enabled s) (nearest_neighbour s)
    (need_redraw s) (need_rescale s) (recursive_load s) (cycle_input s)
    (list_at_exit s) (paths_from_stdin s) (scaling_mode s)
    (background_type s) (background_color s) (slideshow_image_duration s)
    (slideshow_time_elapsed s) (font_name s) (navigator s) (commands s)
    (view_playing s) (stdin_image_data s) (stdin_image_data_len s)
    (input_buffer s) v (trace s).

Definition set_trace (v : list call) (s : imv) : imv :=
  mk_imv (quit s) (fullscreen s) (overlay_enabled s) (nearest_neighbour s)
    (need_redraw s) (need_rescale s) (recursive_load s) (cycle_input s)
    (list_at_exit s) (paths_from_stdin s) (scaling_mode s)
    (background_type s) (background_color s) (slideshow_image_duration s)
    (slideshow_time_elapsed s) (font_name s) (navigator s) (commands s)
    (view_playing s) (stdin_image_data s) (stdin_image_data_len s)
    (input_buffer s) (starting_path s) v.
(** A call to a collaborator, recorded. *)
Definition log (c : call) (s : imv) : imv :=
  set_trace (trace s ++ [c]) s.

Definition nl : string := String "010" EmptyString.

(** ** The command handlers *)

Definition command_quit (args : list string) (s : imv) : result imv :=
  OK (set_quit true s).

Definition command_pan (args : list string) (s : imv) : result imv :=
  if negb (Nat.eqb (List.length args) 3) then OK s
  else
    let x := C.strtol (nth 1 args "") 10 in
    let y := C.strtol (nth 2 args "") 10 in
    OK (log (imv_viewport_move x y) s).

Definition command_select_rel (args : list string) (s : imv) : result imv :=
  if negb (Nat.eqb (List.length args) 2) then OK s
  else
    let index := C.strtol (nth 1 args "") 10 in
    let s1 := set_navigator (imv_navigator_select_rel (navigator s) index) s in
    OK (set_slideshow_time_elapsed 0 s1).

Definition command_select_abs (args : list string) (s : imv) : result imv :=
  OK s.

Definition command_zoom (args : list string) (s : imv) : result imv :=
  OK s.

(** [strdup] of a [NULL] selection is undefined. *)
Definition command_remove (args : list string) (s : imv) : result imv :=
  match imv_navigator_selection (navigator s) with
  | None => Fault (NullPointer "strdup")
  | Some path =>
      let s1 := set_navigator (imv_navigator_remove (navigator s) path) s in
      OK (set_slideshow_time_elapsed 0 s1)
  end.

Definition command_fullscreen (args : list string) (s : imv) : result imv :=
  OK (log imv_viewport_toggle_fullscreen s).

Definition command_overlay (args : list string) (s : imv) : result imv :=
  OK (set_need_redraw true (set_overlay_enabled (negb (overlay_enabled s)) s)).

(** The function behind a registered address. *)
Definition call_handler (h : handler) : list string -> imv -> result imv :=
  match h with
  | command_quit_ptr => command_quit
  | command_pan_ptr => command_pan
  | command_select_rel_ptr => command_select_rel
  | command_select_abs_ptr => command_select_abs
  | command_zoom_ptr => command_zoom
  | command_remove_ptr => command_remove
  | command_fullscreen_ptr => command_fullscreen
  | command_overlay_ptr => command_overlay
  end.

(** The tokens go to the handler registered under the first of them;
    an unknown name is ignored. *)
Definition dispatch (cmds : imv_commands) (args : list string) (s : imv)
  : result imv :=
  match args with
  | [] => OK s
  | name :: _ =>
      match lookup name (handlers cmds) with
      | Some h => call_handler h args s
      | None => OK s
      end
  end.

(** Modelled from the spec: [execute(line, context)] of the registry
    ([commands.c] is not part of the sources).  The line is split on white
    space; an alias name is replaced by the tokens of its expansion, ahead
    of the arguments given, and the result goes to a registered handler
    without a second alias lookup. *)
Definition imv_command_exec (cmds : imv_commands) (line : string) (s : imv)
  : result imv :=
  match tokenize line with
  | [] => OK s
  | name :: rest =>
      match lookup name (aliases cmds) with
      | Some expansion => dispatch cmds (tokenize expansion ++ rest)%list s
      | None => dispatch cmds (name :: rest) s
      end
  end.

(** ** [imv_create] *)

Definition default_commands : imv_commands :=
  let c := imv_commands_create in
  let c := imv_command_register c "quit" command_quit_ptr in
  let c := imv_command_register c "pan" command_pan_ptr in
  let c := imv_command_register c "select_rel" command_select_rel_ptr in
  let c := imv_command_register c "select_abs" command_select_abs_ptr in
  let c := imv_command_register c "zoom" command_zoom_ptr in
  let c := imv_command_register c "remove" command_remove_ptr in
  let c := imv_command_register c "fullscreen" command_fullscreen_ptr in
  let c := imv_command_register c "overlay" command_overlay_ptr in
  let c := imv_command_alias c "q" "quit" in
  let c := imv_command_alias c "next" "select_rel 1" in
  let c := imv_command_alias c "previous" "select_rel -1" in
  let c := imv_command_alias c "n" "select_rel 1" in
  let c := imv_command_alias c "p" "select_rel -1" in
  c.

(** Modelled from the spec: a fresh navigator is empty, with both latches
    clear. *)
Definition imv_navigator_create : imv_navigator :=
  mk_navigator [] 0 false false.

(** The constructor leaves two of the modelled fields to others:
    [background_type] keeps what [malloc] returned until a [-b] option sets
    it, and [view] is created by [setup_window]; their values are the
    arguments. *)
Definition imv_create (bg : enum_background_type) (playing : bool) : imv :=
  {| quit := false;
     fullscreen := false;
     overlay_enabled := false;
     nearest_neighbour := false;
     need_redraw := true;
     need_rescale := true;
     recursive_load := false;
     cycle_input := true;
     list_at_exit := false;
     paths_from_stdin := false;
     scaling_mode := SCALING_FULL;
     background_type := bg;
     background_color := mk_color 0 0 0;
     slideshow_image_duration := 0;
     slideshow_time_elapsed := 0;
     font_name := "Monospace:24";
     navigator := imv_navigator_create;
     commands := default_commands;
     view_playing := playing;
     stdin_image_data := None;
     stdin_image_data_len := 0;
     input_buffer := None;
     starting_path := None;
     trace := [] |}.

(** ** [imv_parse_args]: the options *)

(** What a [case] of the option switch does: [break] to the next option,
    or [return]. *)
Inductive option_outcome : Type :=
| option_break (s : imv)
| option_return (ret : bool) (s : imv).

(** [case 'b']. *)
Definition parse_background (optarg : string) (s : imv) : option_outcome :=
  if String.eqb "checks" optarg
  then option_break (set_background_type BACKGROUND_CHEQUERED s)
  else
    let s1 := set_background_type BACKGROUND_SOLID s in
    let argp :=
      match C.deref optarg with
      | Some "#"%char => C.advance 1 optarg
      | _ => optarg
      end in
    let '(v, len) := C.strtoul argp 16 in
    let n := C.uint v in
    let ep := C.advance len argp in
    if match C.deref ep with Some _ => true | None => false end
       || negb (Nat.eqb len 6)
       || (0xFFFFFF <? n)
    then option_return false
           (log (fprintf_stderr ("Invalid hex color: '" ++ optarg ++ "'" ++ nl))
              s1)
    else option_break
           (set_background_color
              {| r := C.uchar (Z.shiftr n 16);
                 g := Z.land (Z.shiftr n 8) 0xFF;
                 b := Z.land n 0xFF |} s1).

(** [for (int i = ...; i; i--) delay *= 10;] for [i >= 0]. *)
Fixpoint times_ten (i : nat) (delay : Z) : result Z :=
  match i with
  | O => OK delay
  | S i' =>
      if C.in_long (delay * 10) then times_ten i' (delay * 10)
      else Fault (SignedOverflow "delay *= 10")
  end.

(** With more than three characters after the point the counter starts
    below zero and is decremented until it overflows. *)
Definition scale_delay (i : Z) (delay : Z) : result Z :=
  if i <? 0 then Fault (SignedOverflow "i--")
  else times_ten (Z.to_nat i) delay.

(** [case 't']. *)
Definition parse_slideshow (optarg : string) (s : imv)
  : result option_outcome :=
  let '(v, n1) := C.strtoul optarg 10 in
  let whole := C.ulong (v * 1000) in
  let argp := C.advance n1 optarg in
  duration <-
    match C.deref argp with
    | Some "."%char =>
        let argp := C.advance 1 argp in
        let '(w, n2) := C.strtoul argp 10 in
        delay <- scale_delay (3 - Z.of_nat n2) (C.long_of_ulong w) ;;
        OK (if delay <? 1000 then C.ulong (whole + delay) else C.ULONG_MAX)
    | _ => OK whole
    end ;;
  let s1 := set_slideshow_image_duration duration s in
  if duration =? C.ULONG_MAX
  then OK (option_return false
             (log (fprintf_stderr
                     ("Wrong slideshow delay '" ++ optarg ++ "'. Aborting." ++ nl))
                s1))
  else OK (option_break s1).

Definition help_text : string :=
  "imv: see manual for usage information.".

(** One turn of the [getopt] loop: [o] is what [getopt] returned and
    [optarg] the argument of the option. *)
Definition parse_option (o : ascii) (optarg : string) (s : imv)
  : result option_outcome :=
  match o with
  | "f"%char => OK (option_break (set_fullscreen true s))
  | "r"%char => OK (option_break (set_recursive_load true s))
  | "a"%char => OK (option_break (set_scaling_mode SCALING_NONE s))
  | "s"%char => OK (option_break (set_scaling_mode SCALING_DOWN s))
  | "S"%char => OK (option_break (set_scaling_mode SCALING_FULL s))
  | "u"%char => OK (option_break (set_nearest_neighbour true s))
  | "d"%char => OK (option_break (set_overlay_enabled true s))
  | "x"%char => OK (option_break (set_cycle_input false s))
  | "l"%char => OK (option_break (set_list_at_exit true s))
  | "n"%char => OK (option_break (set_starting_path (Some optarg) s))
  | "e"%char => OK (option_break (set_font_name optarg s))
  | "h"%char => OK (option_return true (set_quit true (log (puts help_text) s)))
  | "b"%char => OK (parse_background optarg s)
  | "t"%char => parse_slideshow optarg s
  | "?"%char =>
      OK (option_return false
            (log (fprintf_stderr ("Unknown argument. Aborting." ++ nl)) s))
  | _ => OK (option_break s)
  end.

(** The [getopt] loop of [imv_parse_args] over the options of the command
    line, in order.  [option_break] at the end stands for reaching the
    code after the loop (the paths, which are not modelled). *)
Fixpoint parse_options (opts : list (ascii * string)) (s : imv)
  : result option_outcome :=
  match opts with
  | [] => OK (option_break s)
  | (o, optarg) :: opts' =>
      out <- parse_option o optarg s ;;
      match out with
      | option_break s1 => parse_options opts' s1
      | option_return ret s1 => OK (option_return ret s1)
      end
  end.

(** ** Input events *)

(** The key codes [handle_event] tells apart; every other key is
    [SDLK_OTHER]. *)
Inductive SDL_Keycode : Type :=
| SDLK_ESCAPE | SDLK_RETURN | SDLK_BACKSPACE | SDLK_SEMICOLON
| SDLK_q | SDLK_LEFTBRACKET | SDLK_LEFT | SDLK_RIGHTBRACKET | SDLK_RIGHT
| SDLK_EQUALS | SDLK_PLUS | SDLK_i | SDLK_UP
| SDLK_MINUS | SDLK_o | SDLK_DOWN
| SDLK_s | SDLK_r | SDLK_a | SDLK_c
| SDLK_j | SDLK_k | SDLK_h | SDLK_l
| SDLK_x | SDLK_f | SDLK_PERIOD | SDLK_SPACE | SDLK_p | SDLK_d | SDLK_t
| SDLK_OTHER (code : Z).

(** Modifier and button masks of the SDL headers. *)
Definition KMOD_SHIFT : Z := 0x0003.
Definition KMOD_CAPS : Z := 0x2000.
Definition SDL_BUTTON_LMASK : Z := 1.

Inductive SDL_Event : Type :=
| SDL_QUIT
| SDL_TEXTINPUT (text : string)
| SDL_KEYDOWN (sym : SDL_Keycode) (mod_ : Z) (repeat : bool)
| SDL_MOUSEWHEEL (y : Z)
| SDL_MOUSEMOTION (state : Z) (xrel yrel : Z)
| SDL_WINDOWEVENT
| SDL_OTHER_EVENT.

(** ** [handle_event] *)

Definition command_buffer_len : Z := 1024.

(** [strncat(dest, src, n)] into a buffer of [command_buffer_len] bytes:
    at most [n] characters of [src] are appended, then a NUL; the NUL
    lands at the index that is the length of the result. *)
Definition strncat (dest src : string) (n : Z) : result string :=
  let new := dest ++ C.take (Z.to_nat n) src in
  if Z.of_nat (String.length new) <? command_buffer_len then OK new
  else Fault (BufferOverflow "strncat").

(** Key-down while a command line is being typed
    ([if(imv->input_buffer) { ... return; }]). *)
Definition text_entry_key (buf : string) (sym : SDL_Keycode) (s : imv)
  : result imv :=
  match sym with
  | SDLK_ESCAPE =>
      OK (set_need_redraw true
            (set_input_buffer None (log SDL_StopTextInput s)))
  | SDLK_RETURN =>
      s1 <- imv_command_exec (commands s) buf s ;;
      OK (set_need_redraw true
            (set_input_buffer None (log SDL_StopTextInput s1)))
  | SDLK_BACKSPACE =>
      if (0 <? Z.of_nat (String.length buf))%Z
      then OK (set_need_redraw true
                 (set_input_buffer (Some (C.removelast_string buf)) s))
      else OK s
  | _ => OK s
  end.

(** [case SDLK_r] (and the tail of [case SDLK_s]). *)
Definition request_rescale (repeat : bool) (s : imv) : imv :=
  if negb repeat then set_need_redraw true (set_need_rescale true s) else s.

(** Modelled from the spec: [imv_viewport_toggle_playing] flips the
    playing flag of the viewport ([viewport.c] is not part of the
    sources). *)
Definition toggle_playing (s : imv) : imv :=
  set_view_playing (negb (view_playing s)) (log imv_viewport_toggle_playing s).

(** Key-down in normal mode: the [switch] on the key code. *)
Definition normal_key (sym : SDL_Keycode) (mod_ : Z) (repeat : bool)
  (s : imv) : result imv :=
  let exec line := imv_command_exec (commands s) line in
  match sym with
  | SDLK_SEMICOLON =>
      if negb (Z.land mod_ KMOD_SHIFT =? 0)
      then OK (set_need_redraw true
                 (set_input_buffer (Some "") (log SDL_StartTextInput s)))
      else OK s
  | SDLK_q => exec "quit" (set_quit true s)
  | SDLK_LEFTBRACKET | SDLK_LEFT => exec "select_rel -1" s
  | SDLK_RIGHTBRACKET | SDLK_RIGHT => exec "select_rel 1" s
  | SDLK_EQUALS | SDLK_PLUS | SDLK_i | SDLK_UP =>
      OK (log (imv_viewport_zoom IMV_ZOOM_KEYBOARD 1) s)
  | SDLK_MINUS | SDLK_o | SDLK_DOWN =>
      OK (log (imv_viewport_zoom IMV_ZOOM_KEYBOARD (-1)) s)
  | SDLK_s =>
      let s1 :=
        if negb repeat
        then set_scaling_mode (next_scaling_mode (scaling_mode s)) s
        else s in
      OK (request_rescale repeat s1)
  | SDLK_r => OK (request_rescale repeat s)
  | SDLK_a =>
      if negb repeat then OK (log imv_viewport_scale_to_actual s) else OK s
  | SDLK_c => if negb repeat then OK (log imv_viewport_center s) else OK s
  | SDLK_j => exec "pan 0 -50" s
  | SDLK_k => exec "pan 0 50" s
  | SDLK_h => exec "pan 50 0" s
  | SDLK_l => exec "pan -50 0" s
  | SDLK_x => if negb repeat then exec "remove" s else OK s
  | SDLK_f => if negb repeat then exec "fullscreen" s else OK s
  | SDLK_PERIOD => OK (log imv_loader_load_next_frame s)
  | SDLK_SPACE => if negb repeat then OK (toggle_playing s) else OK s
  | SDLK_p =>
      if negb repeat
      then match imv_navigator_selection (navigator s) with
           | Some path => OK (log (puts path) s)
           | None => Fault (NullPointer "puts")
           end
      else OK s
  | SDLK_d => if negb repeat then exec "overlay" s else OK s
  | SDLK_t =>
      let d := slideshow_image_duration s in
      let d1 :=
        if negb (Z.land mod_ (Z.lor KMOD_SHIFT KMOD_CAPS) =? 0)
        then (if 1000 <=? d then d - 1000 else d)
        else C.ulong (d + 1000) in
      OK (set_need_redraw true (set_slideshow_image_duration d1 s))
  | _ => OK s
  end.

Definition handle_event (s : imv) (event : SDL_Event) : result imv :=
  match event with
  | SDL_QUIT => imv_command_exec (commands s) "quit" s
  | SDL_TEXTINPUT text =>
      match input_buffer s with
      | None => Fault (NullPointer "strncat")
      | Some buf =>
          new <- strncat buf text (command_buffer_len - 1) ;;
          OK (set_need_redraw true (set_input_buffer (Some new) s))
      end
  | SDL_KEYDOWN sym mod_ repeat =>
      let s1 := log (SDL_ShowCursor false) s in
      match input_buffer s with
      | Some buf => text_entry_key buf sym s1
      | None => normal_key sym mod_ repeat s1
      end
  | SDL_MOUSEWHEEL y =>
      OK (log (SDL_ShowCursor true) (log (imv_viewport_zoom IMV_ZOOM_MOUSE y) s))
  | SDL_MOUSEMOTION state xrel yrel =>
      let s1 :=
        if negb (Z.land state SDL_BUTTON_LMASK =? 0)
        then log (imv_viewport_move xrel yrel) s
        else s in
      OK (log (SDL_ShowCursor true) s1)
  | SDL_WINDOWEVENT => OK (log imv_viewport_update s)
  | SDL_OTHER_EVENT => OK s
  end.

(** [while(!imv->quit && SDL_PollEvent(&e)) handle_event(imv, &e);] over the
    events in the queue. *)
Fixpoint drain_events (es : list SDL_Event) (s : imv) : result imv :=
  match es with
  | [] => OK s
  | e :: es' =>
      if quit s then OK s
      else s1 <- handle_event s e ;; drain_events es' s1
  end.

(** ** The frame loop of [imv_run] *)

(** What [check_stdin_for_paths] meets on the standard input. *)
Inductive stdin_outcome : Type :=
| poll_failed               (* poll() is not 1, or POLLERR, POLLNVAL *)
| poll_quiet                (* neither POLLIN nor POLLHUP *)
| fgets_error               (* fgets() is NULL and ferror(stdin) *)
| fgets_eof                 (* feof(stdin) *)
| fgets_line (buf : string).

(** What the collaborators hand to one turn of the loop. *)
Record tick_input : Type := mk_tick_input {
  events : list SDL_Event;            (* SDL_PollEvent, until it returns 0 *)
  loader_error : option string;       (* imv_loader_get_error *)
  loader_image : option (Z * Z * Z);  (* imv_loader_get_image: width and
                                         height of the bitmap, is_new_image *)
  window_size : Z * Z;                (* SDL_GetWindowSize *)
  ticks : Z;                          (* SDL_GetTicks *)
  viewport_needs_redraw : bool;       (* imv_viewport_needs_redraw *)
  stdin_poll : stdin_outcome;         (* poll and fgets on stdin *)
  ls : string -> option (list string) (* the directories of the file system *)
}.

(** The local variables of [imv_run] that live across turns. *)
Record locals : Type := mk_locals { iw : Z; ih : Z; last_time : Z }.

(** How a turn of the loop leaves the body. *)
Inductive control : Type :=
| Next        (* the end of the body is reached *)
| Continue    (* [continue] *)
| Break.      (* [break] *)

(** [strncmp(a, b, n) == 0]. *)
Definition strncmp_eq (a b : string) (n : nat) : bool :=
  String.eqb (C.take n a) (C.take n b).

(** "check if an image failed to load, if so, remove it from our image
    list". *)
Definition handle_load_error (err : option string) (s : imv) : imv :=
  match err with
  | None => s
  | Some err_path =>
      let s1 :=
        set_navigator (imv_navigator_remove (navigator s) err_path) s in
      if strncmp_eq err_path "-" 2
      then
        let s2 :=
          match stdin_image_data s1 with
          | Some _ =>
              set_stdin_image_data_len 0
                (set_stdin_image_data None (log free_stdin_image_data s1))
          | None => s1
          end in
        log (fprintf_stderr ("Failed to load image from stdin." ++ nl)) s2
      else s1
  end.

(** [!imv->cycle_input && imv_navigator_wrapped(imv->navigator)]: the latch
    is polled only when cycling is off. *)
Definition check_wrapped (s : imv) : bool * imv :=
  if negb (cycle_input s)
  then let '(w, nav) := imv_navigator_wrapped (navigator s) in
       (w, set_navigator nav s)
  else (false, s).

(** "if the user has changed image, start loading the new one"; the
    control is [Continue] on an empty selection. *)
Definition start_loading (s : imv) : control * imv :=
  let '(chg, nav) := imv_navigator_poll_changed (navigator s) in
  let s1 := set_navigator nav s in
  if chg then
    match imv_navigator_selection (navigator s1) with
    | None =>
        if negb (paths_from_stdin s1)
        then (Continue,
               set_quit true
                 (log (fprintf_stderr ("No input files left. Exiting." ++ nl))
                    s1))
        else (Continue, s1)
    | Some current_path =>
        let t := title_loading (Z.of_nat (cur_path (navigator s1)) + 1)
                   (num_paths (navigator s1)) current_path
                   (scaling_label (scaling_mode s1)) in
        let s2 := log (imv_viewport_set_title t) s1 in
        let s3 :=
          log (imv_loader_load current_path (stdin_image_data s2)
                 (stdin_image_data_len s2)) s2 in
        (Next, set_view_playing true s3)
    end
  else (Next, s1).

(** [imv->need_rescale += is_new_image] on a [bool]. *)
Definition bool_plus (flag : bool) (n : Z) : bool :=
  negb ((if flag then 1 else 0) + n =? 0).

(** "check if a new image is available to display".  [w] and [h] are the
    [unsigned] width and height of the bitmap; [iw] and [ih] are [int]. *)
Definition take_image (img : option (Z * Z * Z)) (loc : locals) (s : imv)
  : locals * imv :=
  match img with
  | None => (loc, s)
  | Some (w, h, is_new_image) =>
      let s1 := log (imv_texture_set_image w h) s in
      let s2 := set_need_redraw true s1 in
      (mk_locals (C.int_of_uint w) (C.int_of_uint h) (last_time loc),
       set_need_rescale (bool_plus (need_rescale s2) is_new_image) s2)
  end.

(** [if(imv->need_rescale) { ... }]. *)
Definition rescale (window : Z * Z) (loc : locals) (s : imv) : imv :=
  if need_rescale s then
    let '(ww, wh) := window in
    let s1 := set_need_rescale false s in
    match scaling_mode s1 with
    | SCALING_NONE => log imv_viewport_scale_to_actual s1
    | SCALING_DOWN =>
        if (iw loc <? ww) && (ih loc <? wh)
        then log imv_viewport_scale_to_actual s1
        else log imv_viewport_scale_to_window s1
    | SCALING_FULL => log imv_viewport_scale_to_window s1
    end
  else s.

(** [unsigned int dt = current_time - last_time]. *)
Definition delta_time (current_time : Z) (loc : locals) : Z :=
  C.uint (current_time - last_time loc).

(** "if we're playing an animated gif, tell the loader how much time has
    passed"; [dt / 1000.0] is the rational [dt / 1000]. *)
Definition animate (current_time : Z) (loc : locals) (s : imv) : imv :=
  if view_playing s then
    let dt := delta_time current_time loc in
    let dt := if 100 <? dt then 100 else dt in
    log (imv_loader_time_passed (dt # 1000)) s
  else s.

(** "handle slideshow". *)
Definition slideshow (current_time : Z) (loc : locals) (s : imv) : imv :=
  if negb (slideshow_image_duration s =? 0) then
    let dt := delta_time current_time loc in
    let s1 :=
      set_slideshow_time_elapsed (C.ulong (slideshow_time_elapsed s + dt)) s in
    let s2 := set_need_redraw true s1 in
    if slideshow_image_duration s2 <=? slideshow_time_elapsed s2
    then set_slideshow_time_elapsed 0
           (set_navigator (imv_navigator_select_rel (navigator s2) 1) s2)
    else s2
  else s.

(** [render_window]: the title, the drawing, and the flag is cleared. *)
Definition render_window (s : imv) : imv :=
  let counter :=
    if 1000 <=? slideshow_image_duration s
    then Some (slideshow_time_elapsed s / 1000 + 1,
               slideshow_image_duration s / 1000)
    else None in
  let t := title_shown (Z.of_nat (cur_path (navigator s)) + 1)
             (num_paths (navigator s))
             (imv_navigator_selection (navigator s))
             (scaling_label (scaling_mode s)) counter in
  let s1 := log (imv_viewport_set_title t) s in
  let s2 := log (draw_window (overlay_enabled s1) (input_buffer s1)) s1 in
  set_need_redraw false s2.

(** "check if the viewport needs a redraw", then the drawing. *)
Definition redraw (viewport_dirty : bool) (s : imv) : imv :=
  let s1 := if viewport_dirty then set_need_redraw true s else s in
  if need_redraw s1 then log SDL_RenderPresent (render_window s1) else s1.

(** Stripping the newline [fgets] leaves at the end of the line. *)
Fixpoint chomp (buf : string) : string :=
  match buf with
  | EmptyString => EmptyString
  | String c EmptyString =>
      if Ascii.eqb c "010" then EmptyString else buf
  | String c rest => String c (chomp rest)
  end.

Definition imv_add_path (dir : string -> option (list string))
  (path : string) (s : imv) : imv :=
  set_navigator
    (imv_navigator_add dir (navigator s) path (recursive_load s)) s.

(** [strlen(buf)], [buf[len-1] == '\n'], [buf[--len] = 0] and [len > 0] on
    the line [fgets] stored: the path the line holds, [None] for a blank
    line.  [buf] is what [fgets] read, NUL bytes of the input included; a
    line that starts with one is the empty C string, and [buf[len-1]] is
    then a read before the start of [buf]. *)
Definition path_of_line (buf : string) : result (option string) :=
  match C.cstr buf with
  | EmptyString => Fault (OutOfBounds "buf[len-1]")
  | str =>
      let line := chomp str in
      if (0 <? Z.of_nat (String.length line))%Z then OK (Some line)
      else OK None
  end.

Definition check_stdin_for_paths (dir : string -> option (list string))
  (o : stdin_outcome) (s : imv) : result imv :=
  match o with
  | poll_failed =>
      OK (set_quit true (log (fprintf_stderr "error polling stdin") s))
  | poll_quiet => OK s
  | fgets_error => OK s
  | fgets_eof =>
      OK (log (fprintf_stderr ("done with stdin" ++ nl))
            (set_paths_from_stdin false s))
  | fgets_line buf =>
      line <- path_of_line buf ;;
      match line with
      | Some path => OK (set_need_redraw true (imv_add_path dir path s))
      | None => OK s
      end
  end.

(** The end of the body: stdin is polled or the loop sleeps. *)
Definition idle (inp : tick_input) (s : imv) : result imv :=
  if paths_from_stdin s
  then check_stdin_for_paths (ls inp) (stdin_poll inp) s
  else OK (log (SDL_Delay 10) s).

(** The body from "check if a new image is available" to the drawing. *)
Definition shown (inp : tick_input) (loc : locals) (s : imv)
  : locals * imv :=
  let '(loc1, s1) := take_image (loader_image inp) loc s in
  let s2 := rescale (window_size inp) loc1 s1 in
  let current_time := ticks inp in
  let s3 := animate current_time loc1 s2 in
  let s4 := slideshow current_time loc1 s3 in
  let loc2 := mk_locals (iw loc1) (ih loc1) current_time in
  (loc2, redraw (viewport_needs_redraw inp) s4).

(** The body from "check if a new image is available" to its end. *)
Definition present (inp : tick_input) (loc : locals) (s : imv)
  : result (locals * imv) :=
  let '(loc2, s5) := shown inp loc s in
  s6 <- idle inp s5 ;;
  OK (loc2, s6).

(** The body from the check of the wrapped latch on. *)
Definition after_load_error (inp : tick_input) (loc : locals) (s : imv)
  : result (control * locals * imv) :=
  let '(w, s1) := check_wrapped s in
  if w then OK (Break, loc, s1)
  else
    match start_loading s1 with
    | (Next, s2) =>
        out <- present inp loc s2 ;;
        let '(loc', s3) := out in OK (Next, loc', s3)
    | (c, s2) => OK (c, loc, s2)
    end.

(** The body after the events have been handled, from the check of the
    loader's error on. *)
Definition after_events (inp : tick_input) (loc : locals) (s : imv)
  : result (control * locals * imv) :=
  after_load_error inp loc (handle_load_error (loader_error inp) s).

(** One turn of [while(!imv->quit) { ... }]. *)
Definition tick (inp : tick_input) (loc : locals) (s : imv)
  : result (control * locals * imv) :=
  s1 <- drain_events (events inp) s ;;
  if quit s1 then OK (Break, loc, s1)
  else after_events inp loc s1.

(** The code after the loop: the list is printed when asked for. *)
Definition at_exit (s : imv) : imv :=
  if list_at_exit s
  then set_trace (trace s ++ map puts (paths (navigator s)))%list s
  else s.

(** The loop, one input per turn.  [loop_ended] is the state [imv_run]
    returns in; [loop_running] is a loop that has used up the inputs
    given. *)
Inductive loop_result : Type :=
| loop_ended (s : imv)
| loop_running (loc : locals) (s : imv).

Fixpoint imv_loop (inputs : list tick_input) (loc : locals) (s : imv)
  : result loop_result :=
  if quit s then OK (loop_ended (at_exit s))
  else
    match inputs with
    | [] => OK (loop_running loc s)
    | inp :: rest =>
        out <- tick inp loc s ;;
        match out with
        | (Break, _, s1) => OK (loop_ended (at_exit s1))
        | (_, loc1, s1) => imv_loop rest loc1 s1
        end
    end.

(** ** Reading the trace *)

(** The load requests among the calls. *)
Definition is_load (c : call) : bool :=
  match c with
  | imv_loader_load _ _ _ => true
  | _ => false
  end.

Definition loads (tr : list call) : list call := filter is_load tr.

(** The time deltas fed to the loader, in seconds. *)
Fixpoint time_feeds (tr : list call) : list Q :=
  match tr with
  | [] => []
  | imv_loader_time_passed dt :: tr' => dt :: time_feeds tr'
  | _ :: tr' => time_feeds tr'
  end.


(** The fit operations among the calls. *)
Definition is_scaling (c : call) : bool :=
  match c with
  | imv_viewport_scale_to_actual | imv_viewport_scale_to_window => true
  | _ => false
  end.

Definition scalings (tr : list call) : list call := filter is_scaling tr.

(** The calls [handle_event] and the command handlers make: none of them
    is a load request or a time feed. *)
Definition is_input_call (c : call) : bool :=
  match c with
  | imv_loader_load _ _ _ | imv_loader_time_passed _ => false
  | _ => true
  end.

(** [grows s s']: the trace of [s'] is the trace of [s] followed by calls
    that input handling makes. *)
Definition grows (s s' : imv) : Prop :=
  exists new : list call,
    trace s' = (trace s ++ new)%list /\ forallb is_input_call new = true.

(** What the slideshow reads and writes, next to the flags that decide
    whether the loop goes on. *)
Definition slideshow_view (s : imv)
  : imv_navigator * Z * Z * bool * bool * bool :=
  (navigator s, slideshow_image_duration s, slideshow_time_elapsed s,
   quit s, cycle_input s, paths_from_stdin s).


(** ** Sessions and inputs to run the model on *)

(** Three sources, the first selected and not yet loaded. *)
Definition three_sources : imv :=
  set_navigator (mk_navigator ["a.png"; "b.png"; "c.png"] 0 true false)
    (imv_create BACKGROUND_SOLID true).



(** Three sources shown as a slideshow, two seconds each. *)
Definition slideshow_session : imv :=
  set_slideshow_image_duration 2000 three_sources.


(** A command line in the middle of being typed. *)
Definition typing (line : string) : imv :=
  set_input_buffer (Some line) three_sources.

(** A turn in which the collaborators have nothing to report, at time
    [t]. *)
Definition quiet (t : Z) : tick_input :=
  {| events := [];
     loader_error := None;
     loader_image := None;
     window_size := (1280, 720);
     ticks := t;
     viewport_needs_redraw := false;
     stdin_poll := poll_quiet;
     ls := fun _ => None |}.

(** A turn in which the loader reports that [path] failed to decode. *)
Definition failing (path : string) (t : Z) : tick_input :=
  {| events := [];
     loader_error := Some path;
     loader_image := None;
     window_size := (1280, 720);
     ticks := t;
     viewport_needs_redraw := false;
     stdin_poll := poll_quiet;
     ls := fun _ => None |}.

Definition start_locals : locals := mk_locals 0 0 0.

(** One source, selected and not yet loaded. *)
Definition one_source : imv :=
  set_navigator (mk_navigator ["a.png"] 0 true false)
    (imv_create BACKGROUND_SOLID true).

(** A turn in which nothing arrives on the standard input within the
    10 ms given to [poll], which returns 0. *)
Definition stdin_silent (t : Z) : tick_input :=
  {| events := [];
     loader_error := None;
     loader_image := None;
     window_size := (1280, 720);
     ticks := t;
     viewport_needs_redraw := false;
     stdin_poll := poll_failed;
     ls := fun _ => None |}.

(** A turn in which the line "b.png" arrives on the standard input. *)
Definition stdin_answering (t : Z) : tick_input :=
  {| events := [];
     loader_error := None;
     loader_image := None;
     window_size := (1280, 720);
     ticks := t;
     viewport_needs_redraw := false;
     stdin_poll := fgets_line ("b.png" ++ nl);
     ls := fun _ => None |}.

(** A turn in which the loader hands over a new image of the given width
    and height, at time 16. *)
Definition wide_image (width height : Z) : tick_input :=
  {| events := [];
     loader_error := None;
     loader_image := Some (width, height, 1);
     window_size := (1280, 720);
     ticks := 16;
     viewport_needs_redraw := false;
     stdin_poll := poll_quiet;
     ls := fun _ => None |}.

(** Shift and semicolon, the key chord that opens the command line. *)
Definition command_mode_key : SDL_Event := SDL_KEYDOWN SDLK_SEMICOLON 1 false.

(** A text event of 31 bytes, the most an SDL text event carries. *)
Definition full_text_event : SDL_Event :=
  SDL_TEXTINPUT "aaaaaaaaaaaaaaaaaaaaaaaaaaaaaaa".

(** The key chord followed by [n] typed characters, one text event
    each. *)
Definition keystrokes (n : nat) : list SDL_Event :=
  command_mode_key :: repeat (SDL_TEXTINPUT "a") n.

(** The turn whose events are the key chord and [n] such text events. *)
Definition typing_burst (n : nat) : tick_input :=
  {| events := command_mode_key :: repeat full_text_event n;
     loader_error := None;
     loader_image := None;
     window_size := (1280, 720);
     ticks := 16;
     viewport_needs_redraw := false;
     stdin_poll := poll_quiet;
     ls := fun _ => None |}.


(** ** Observations of the session *)

(** What only the options and the keys change: the part of the session
    that the body of the loop, once the events are handled, leaves
    alone. *)
Definition settings (s : imv) :=
  (input_buffer s, commands s, scaling_mode s, slideshow_image_duration s,
   overlay_enabled s, cycle_input s, list_at_exit s, recursive_load s,
   fullscreen s, nearest_neighbour s, background_type s, background_color s,
   font_name s, starting_path s).


(** What a command handler may do to the session besides moving the
    cursor, quitting, toggling the overlay and calling the viewport: the
    rest keeps its value, the quit flag is not cleared and the slideshow
    accumulator is kept or restarted. *)
Definition handler_frame (s s' : imv) : Prop :=
  input_buffer s' = input_buffer s
  /\ commands s' = commands s
  /\ scaling_mode s' = scaling_mode s
  /\ slideshow_image_duration s' = slideshow_image_duration s
  /\ (quit s = true -> quit s' = true)
  /\ (slideshow_time_elapsed s' = slideshow_time_elapsed s
      \/ slideshow_time_elapsed s' = 0).

(** The session a run of the loop stops in. *)
Definition state_of (r : loop_result) : imv :=
  match r with
  | loop_ended s => s
  | loop_running _ s => s
  end.


(** ** Decimal numerals *)

(** The character of a decimal digit, and the number a list of digits
    stands for. *)
Definition digit_char (d : Z) : ascii := ascii_of_N (Z.to_N (48 + d)).

Definition decimal_from (acc : Z) (ds : list Z) : Z :=
  fold_left (fun a d => a * 10 + d) ds acc.

Definition decimal (ds : list Z) : Z := decimal_from 0 ds.

Definition numeral (ds : list Z) : list ascii := map digit_char ds.

Definition is_digit (d : Z) : Prop := 0 <= d <= 9.


(** ** [imv_parse_args]: the paths *)

(** What the process finds at start-up: the result of [read_from_stdin]
    (the buffer and its length), the lines [fgets] hands out one after the
    other before it returns [NULL], and the directories of the file
    system. *)
Record startup_input : Type := mk_startup_input {
  piped : option (list Byte.byte) * Z;
  stdin_lines : list string;
  directories : string -> option (list string)
}.

(** The loop over the path arguments
    ([for(int i = 0; i < argc; ++i) { ... }]); the boolean is [false] when
    the loop is left by [return false]. *)
Fixpoint add_path_args (env : startup_input) (argv : list string)
  (data_from_stdin : bool) (s : imv) : bool * imv :=
  match argv with
  | [] => (true, s)
  | arg :: rest =>
      if String.eqb "-" arg then
        if paths_from_stdin s then
          (false,
           log (fprintf_stderr
                  ("Can't read paths AND image data from stdin. Aborting."
                   ++ nl)) s)
        else if data_from_stdin then
          (false,
           log (fprintf_stderr
                  ("Can't read image data from stdin twice. Aborting." ++ nl))
             s)
        else
          let s1 :=
            set_stdin_image_data_len (snd (piped env))
              (set_stdin_image_data (fst (piped env)) s) in
          add_path_args env rest true
            (imv_add_path (directories env) arg s1)
      else
        add_path_args env rest data_from_stdin
          (imv_add_path (directories env) arg s)
  end.

(** [while((stdin_ok = fgets(...)) != NULL) { ... }]: the first line that
    is not blank is added; the boolean is [stdin_ok]. *)
Fixpoint read_first_path (env : startup_input) (lines : list string)
  (s : imv) : result (bool * imv) :=
  match lines with
  | [] => OK (false, s)
  | buf :: rest =>
      line <- path_of_line buf ;;
      match line with
      | Some path => OK (true, imv_add_path (directories env) path s)
      | None => read_first_path env rest s
      end
  end.

(** The part of [imv_parse_args] after the options. *)
Definition parse_paths (env : startup_input) (argv : list string) (s : imv)
  : result (bool * imv) :=
  let '(ok, s1) :=
    match argv with
    | [] => (true, set_paths_from_stdin true s)
    | _ => add_path_args env argv false s
    end in
  if negb ok then OK (false, s1)
  else if paths_from_stdin s1 then
    let s2 := log (fprintf_stderr "Reading paths from stdin...") s1 in
    out <- read_first_path env (stdin_lines env) s2 ;;
    let '(stdin_ok, s3) := out in
    if stdin_ok then OK (true, log (fprintf_stderr nl) s3)
    else OK (false, log (fprintf_stderr (" no input!" ++ nl)) s3)
  else OK (true, s1).

(** [imv_parse_args]: [opts] are the options as [getopt] hands them out,
    [argv] the arguments left after them. *)
Definition imv_parse_args (env : startup_input)
  (opts : list (ascii * string)) (argv : list string) (s : imv)
  : result (bool * imv) :=
  out <- parse_options opts s ;;
  match out with
  | option_return ret s1 => OK (ret, s1)
  | option_break s1 => parse_paths env argv s1
  end.

(** The number of arguments that are the sentinel. *)
Definition sentinels (argv : list string) : nat :=
  count_occ string_dec argv "-".

(** A blank line: a newline alone, or such a line with a NUL byte after
    the newline. *)
Definition blank (line : string) : Prop := path_of_line line = OK None.

(** A start-up with a picture piped in and one with two lines of paths. *)
Definition piped_startup : startup_input :=
  {| piped := (Some [Byte.x47; Byte.x49; Byte.x46], 3);
     stdin_lines := [];
     directories := fun _ => None |}.

Definition listed_startup : startup_input :=
  {| piped := (None, 0);
     stdin_lines := [nl; "a.png" ++ nl; "b.png" ++ nl];
     directories := fun _ => None |}.


(** ** Set-up and tear-down: [setup_window], [imv_free], [imv_run] *)

(** The handles of [struct imv] that the loop does without; [true] is a
    handle that is set, [false] is [NULL] (or a flag that is off). *)
Record sdl_handles : Type := mk_sdl_handles {
  sdl_init : bool;
  window : bool;
  renderer : bool;
  background_texture : bool;
  ttf_init : bool;
  font : bool;
  texture : bool;
  view : bool
}.

(** The handles as [imv_create] leaves them. *)
Definition no_handles : sdl_handles :=
  mk_sdl_handles false false false false false false false false.

(** What SDL and the font loader answer during set-up. *)
Record sdl_outcome : Type := mk_sdl_outcome {
  SDL_Init_ok : bool;         (* SDL_Init(SDL_INIT_VIDEO) == 0 *)
  window_created : bool;      (* SDL_CreateWindow is not NULL *)
  renderer_created : bool;    (* SDL_CreateRenderer is not NULL *)
  chequered_created : bool;   (* create_chequered is not NULL *)
  font_loaded : bool          (* load_font is not NULL *)
}.

Inductive setup_call : Type :=
| call_SDL_Init
| call_SDL_CreateWindow (width height : Z)
| call_SDL_CreateRenderer
| call_SDL_SetHint (scale_quality : string)
| call_create_chequered
| call_TTF_Init
| call_load_font (name : string)
| call_imv_texture_create
| call_imv_viewport_create.

Record setup_result : Type := mk_setup_result {
  setup_ok : bool;
  setup_session : imv;
  setup_handles : sdl_handles;
  setup_calls : list setup_call
}.

Definition set_sdl_init (h : sdl_handles) : sdl_handles :=
  mk_sdl_handles true (window h) (renderer h) (background_texture h)
    (ttf_init h) (font h) (texture h) (view h).

(** [setup_window]. *)
Definition setup_window (o : sdl_outcome) (s : imv) (h : sdl_handles)
  : setup_result :=
  if negb (SDL_Init_ok o) then
    mk_setup_result false (log (fprintf_stderr "SDL Failed to Init") s) h
      [call_SDL_Init]
  else
    let h1 := set_sdl_init h in
    let h2 := mk_sdl_handles true (window_created o) (renderer h1)
                (background_texture h1) (ttf_init h1) (font h1) (texture h1)
                (view h1) in
    let made2 := [call_SDL_Init; call_SDL_CreateWindow 1280 720] in
    if negb (window_created o) then
      mk_setup_result false
        (log (fprintf_stderr "SDL Failed to create window") s) h2 made2
    else
      let h3 := mk_sdl_handles true true (renderer_created o)
                  (background_texture h2) (ttf_init h2) (font h2)
                  (texture h2) (view h2) in
      let made3 := (made2 ++ [call_SDL_CreateRenderer])%list in
      if negb (renderer_created o) then
        mk_setup_result false
          (log (fprintf_stderr "SDL Failed to create renderer") s) h3 made3
      else
        let made4 :=
          (made3
           ++ [call_SDL_SetHint (if nearest_neighbour s then "0" else "1")])%list
        in
        let chequered :=
          match background_type s with
          | BACKGROUND_CHEQUERED => true
          | BACKGROUND_SOLID => false
          end in
        let h4 := mk_sdl_handles true true true
                    (if chequered then chequered_created o
                     else background_texture h3)
                    true (font_loaded o) (texture h3) (view h3) in
        let made5 :=
          (made4 ++ (if chequered then [call_create_chequered] else [])
           ++ [call_TTF_Init; call_load_font (font_name s)])%list in
        if negb (font_loaded o) then
          mk_setup_result false (log (fprintf_stderr "Error loading font") s)
            h4 made5
        else
          let h5 := mk_sdl_handles true true true (background_texture h4)
                      true true true true in
          let s1 :=
            if fullscreen s then log imv_viewport_toggle_fullscreen s else s in
          mk_setup_result true (log SDL_StopTextInput s1) h5
            (made5 ++ [call_imv_texture_create; call_imv_viewport_create])%list.

Inductive release_call : Type :=
| free_font_name
| imv_navigator_free
| imv_loader_free
| imv_commands_free
| free_stdin_data
| free_input_buffer
| SDL_DestroyRenderer
| SDL_DestroyWindow
| SDL_DestroyTexture
| TTF_CloseFont
| TTF_Quit
| SDL_Quit
| free_imv.

Definition when (cond : bool) (c : release_call) : list release_call :=
  if cond then [c] else [].

Definition is_set {A : Type} (p : option A) : bool :=
  match p with
  | Some _ => true
  | None => false
  end.

(** [imv_free]: the releases it makes, in order. *)
Definition imv_free (s : imv) (h : sdl_handles) : list release_call :=
  ([free_font_name; imv_navigator_free; imv_loader_free; imv_commands_free]
   ++ when (is_set (stdin_image_data s)) free_stdin_data
   ++ when (is_set (input_buffer s)) free_input_buffer
   ++ when (renderer h) SDL_DestroyRenderer
   ++ when (window h) SDL_DestroyWindow
   ++ when (background_texture h) SDL_DestroyTexture
   ++ when (font h) TTF_CloseFont
   ++ when (ttf_init h) TTF_Quit
   ++ when (sdl_init h) SDL_Quit
   ++ [free_imv])%list.

(** The conversion of a [long] to [int] (the low 32 bits, signed). *)
Definition int_of_long (z : Z) : Z :=
  let m := z mod 2 ^ 32 in
  if m <? 2 ^ 31 then m else m - 2 ^ 32.

Definition INT_MIN : Z := - 2 ^ 31.

Fixpoint index_of (path : string) (l : list string) (i : Z) : Z :=
  match l with
  | [] => -1
  | x :: l' => if String.eqb path x then i else index_of path l' (i + 1)
  end.

(** Modelled from the spec: [find(identifier) -> position or not-found]
    of the navigator; [imv_run] takes [-1] for not found. *)
Definition imv_navigator_find_path (nav : imv_navigator) (path : string) : Z :=
  index_of path (paths nav) 0.

(** The index [imv_run] computes from [-n]: the position of a listed
    path, else the number minus one, else [-1].  [errno_is_EINVAL] is the
    test [errno == EINVAL] after [strtol]. *)
Definition starting_index (nav : imv_navigator) (path : string)
  (errno_is_EINVAL : bool) : result Z :=
  let index := imv_navigator_find_path nav path in
  if index =? -1 then
    let index := int_of_long (C.strtol path 10) in
    if index =? INT_MIN then Fault (SignedOverflow "index -= 1")
    else OK (if errno_is_EINVAL then -1 else index - 1)
  else OK index.

(** The selection of the starting image.  [select] is
    [imv_navigator_select_str], whose code is in another file. *)
Definition select_starting_image
  (select : imv_navigator -> Z -> imv_navigator) (errno_is_EINVAL : bool)
  (s : imv) : result imv :=
  match starting_path s with
  | None => OK s
  | Some path =>
      index <- starting_index (navigator s) path errno_is_EINVAL ;;
      if 0 <=? index then OK (set_navigator (select (navigator s) index) s)
      else OK (log (fprintf_stderr
                      ("Invalid starting image: " ++ path ++ nl)) s)
  end.

Record run_result : Type := mk_run_result {
  exit_code : Z;
  made : list setup_call;
  final_handles : sdl_handles;
  final : loop_result
}.

(** [imv_run]: [start] is the first reading of [SDL_GetTicks]. *)
Definition imv_run (o : sdl_outcome)
  (select : imv_navigator -> Z -> imv_navigator) (errno_is_EINVAL : bool)
  (start : Z) (inputs : list tick_input) (s : imv) (h : sdl_handles)
  : result run_result :=
  if quit s then OK (mk_run_result 0 [] h (loop_ended s))
  else
    let w := setup_window o s h in
    if negb (setup_ok w)
    then OK (mk_run_result 1 (setup_calls w) (setup_handles w)
               (loop_ended (setup_session w)))
    else
      s1 <- select_starting_image select errno_is_EINVAL (setup_session w) ;;
      r <- imv_loop inputs (mk_locals 0 0 start) s1 ;;
      OK (mk_run_result 0 (setup_calls w) (setup_handles w) r).

(** SDL answers: all is well; the window cannot be created. *)
Definition sdl_fine : sdl_outcome := mk_sdl_outcome true true true true true.
Definition sdl_no_window : sdl_outcome :=
  mk_sdl_outcome true false true true true.

(** The digits [ds] at the start of a path are all that [strtol] reads
    when [rest], the text after them, is empty or starts with a character
    that is no digit; with no digits at all, [rest] must not start with
    white space or a sign either, which [strtol] would skip. *)
Definition ends_number (ds : list Z) (rest : list ascii) : bool :=
  match rest with
  | [] => true
  | c :: _ =>
      match C.digit_of 10 c with
      | Some _ => false
      | None =>
          match ds with
          | [] =>
              negb (C.isspace c) && negb (Ascii.eqb c "-")
              && negb (Ascii.eqb c "+")
          | _ :: _ => true
          end
      end
  end.

(** A session started with [-n path]. *)
Definition started_at (path : string) : imv :=
  set_starting_path (Some path) three_sources.

(** ** The chequered background of [render_window] *)

Definition INT_MAX : Z := 2 ^ 31 - 1.

Record SDL_Rect : Type := mk_rect {
  rect_x : Z;
  rect_y : Z;
  rect_w : Z;
  rect_h : Z
}.

(** The inner loop, [for(int x = ...; x < ww; x += img_w)]: the
    destinations of its [SDL_RenderCopy] calls.  [None] is a loop that
    has not ended within [fuel] turns. *)
Fixpoint tile_row (fuel : nat) (x y ww img_w img_h : Z)
  : option (result (list SDL_Rect)) :=
  if x <? ww then
    match fuel with
    | O => None
    | S fuel' =>
        let dst_rect := mk_rect x y img_w img_h in
        if (INT_MAX <? x + img_w) || (x + img_w <? INT_MIN)
        then Some (Fault (SignedOverflow "x += img_w"))
        else
          match tile_row fuel' (x + img_w) y ww img_w img_h with
          | Some (OK rest) => Some (OK (dst_rect :: rest))
          | other => other
          end
    end
  else Some (OK []).

(** The outer loop, [for(int y = ...; y < wh; y += img_h)]. *)
Fixpoint tile_rows (fuel inner : nat) (y ww wh img_w img_h : Z)
  : option (result (list SDL_Rect)) :=
  if y <? wh then
    match fuel with
    | O => None
    | S fuel' =>
        match tile_row inner 0 y ww img_w img_h with
        | Some (OK row) =>
            if (INT_MAX <? y + img_h) || (y + img_h <? INT_MIN)
            then Some (Fault (SignedOverflow "y += img_h"))
            else
              match tile_rows fuel' inner (y + img_h) ww wh img_w img_h with
              | Some (OK rest) => Some (OK (row ++ rest)%list)
              | other => other
              end
        | other => other
        end
    end
  else Some (OK []).

(** The tiling of a window of [ww] by [wh] with a texture of [img_w] by
    [img_h]. *)
Definition chequered_tiles (fuel : nat) (ww wh img_w img_h : Z)
  : option (result (list SDL_Rect)) :=
  tile_rows fuel fuel 0 ww wh img_w img_h.

(** The point [(px, py)] lies in the rectangle. *)
Definition covers (t : SDL_Rect) (px py : Z) : Prop :=
  rect_x t <= px < rect_x t + rect_w t /\ rect_y t <= py < rect_y t + rect_h t.


(* ===================================================================== *)
(** * Part II: properties                                                 *)
(* ===================================================================== *)

(** ** The trace and its projections *)

Lemma trace_log (c : call) (s : imv) : trace (log c s) = (trace s ++ [c])%list.
Proof. reflexivity. Qed.

Lemma loads_app (a b : list call) : loads (a ++ b) = (loads a ++ loads b)%list.
Proof. apply filter_app. Qed.

Lemma scalings_app (a b : list call) :
  scalings (a ++ b) = (scalings a ++ scalings b)%list.
Proof. apply filter_app. Qed.

Lemma time_feeds_app (a b : list call) :
  time_feeds (a ++ b) = (time_feeds a ++ time_feeds b)%list.
Proof.
  induction a as [| c a IH]; [reflexivity |].
  destruct c; cbn; rewrite ?IH; reflexivity.
Qed.

(** Calls made while handling input leave the load requests and the time
    feeds as they are. *)
Lemma input_calls_loads (new : list call) :
  forallb is_input_call new = true -> loads new = [].
Proof.
  induction new as [| c new IH]; [reflexivity |].
  cbn. intros H. apply andb_prop in H. destruct H as [Hc Hn].
  destruct c; cbn in *; try discriminate; auto.
Qed.


(** Rewriting the projections of a trace that grew by a known call. *)
Ltac trace_simpl :=
  cbn [fst snd trace log set_trace set_quit set_fullscreen set_overlay_enabled
       set_nearest_neighbour set_need_redraw set_need_rescale
       set_recursive_load set_cycle_input set_list_at_exit
       set_paths_from_stdin set_scaling_mode set_background_type
       set_background_color set_slideshow_image_duration
       set_slideshow_time_elapsed set_font_name set_navigator
       set_view_playing set_stdin_image_data set_stdin_image_data_len
       set_input_buffer set_starting_path
       quit need_redraw need_rescale view_playing navigator cycle_input
       paths_from_stdin scaling_mode slideshow_image_duration
       slideshow_time_elapsed input_buffer stdin_image_data
       stdin_image_data_len overlay_enabled commands recursive_load
       list_at_exit] in *;
  rewrite ?scalings_app, ?loads_app, ?time_feeds_app, <- ?app_assoc in *;
  cbn [scalings loads time_feeds filter is_scaling is_load app] in *;
  rewrite ?app_nil_r in *.

(** ** The phases of a turn, one by one *)

Section Phases.

Variables (inp : tick_input) (loc : locals) (s : imv).

Lemma take_image_scalings :
  scalings (trace (snd (take_image (loader_image inp) loc s)))
  = scalings (trace s).
Proof.
  unfold take_image. destruct (loader_image inp) as [[[w h] n] |];
    trace_simpl; reflexivity.
Qed.

Lemma take_image_stable :
  let s' := snd (take_image (loader_image inp) loc s) in
  view_playing s' = view_playing s
  /\ scaling_mode s' = scaling_mode s
  /\ time_feeds (trace s') = time_feeds (trace s)
  /\ loads (trace s') = loads (trace s).
Proof.
  unfold take_image. destruct (loader_image inp) as [[[w h] n] |];
    trace_simpl; repeat split; reflexivity.
Qed.

Lemma rescale_stable (window : Z * Z) :
  let s' := rescale window loc s in
  view_playing s' = view_playing s
  /\ time_feeds (trace s') = time_feeds (trace s)
  /\ loads (trace s') = loads (trace s).
Proof.
  unfold rescale. destruct (need_rescale s); [| repeat split; reflexivity].
  destruct window as [ww wh]. trace_simpl.
  destruct (scaling_mode s); [| destruct (_ && _) |];
    trace_simpl; repeat split; reflexivity.
Qed.

Lemma animate_stable (t : Z) :
  let s' := animate t loc s in
  view_playing s' = view_playing s
  /\ need_rescale s' = need_rescale s
  /\ scalings (trace s') = scalings (trace s)
  /\ loads (trace s') = loads (trace s).
Proof.
  unfold animate. destruct (view_playing s) eqn:E;
    trace_simpl; repeat split; auto.
Qed.

Lemma slideshow_stable (t : Z) :
  let s' := slideshow t loc s in
  view_playing s' = view_playing s
  /\ need_rescale s' = need_rescale s
  /\ trace s' = trace s.
Proof.
  unfold slideshow. destruct (negb _); [| repeat split; reflexivity].
  trace_simpl. destruct (_ <=? _); trace_simpl; repeat split; reflexivity.
Qed.

Lemma redraw_stable (dirty : bool) :
  let s' := redraw dirty s in
  view_playing s' = view_playing s
  /\ need_rescale s' = need_rescale s
  /\ scalings (trace s') = scalings (trace s)
  /\ time_feeds (trace s') = time_feeds (trace s)
  /\ loads (trace s') = loads (trace s).
Proof.
  unfold redraw, render_window.
  destruct dirty; trace_simpl;
    [| destruct (need_redraw s) ]; trace_simpl; repeat split; reflexivity.
Qed.

Lemma idle_stable (s' : imv) :
  idle inp s = OK s' ->
  view_playing s' = view_playing s
  /\ need_rescale s' = need_rescale s
  /\ scalings (trace s') = scalings (trace s)
  /\ time_feeds (trace s') = time_feeds (trace s)
  /\ loads (trace s') = loads (trace s).
Proof.
  unfold idle, check_stdin_for_paths, imv_add_path.
  destruct (paths_from_stdin s);
    [destruct (stdin_poll inp) as [| | | | buf];
     try destruct (path_of_line buf) as [[path |] |] |];
    cbn [bind]; intros H; try discriminate H; injection H as <-;
    trace_simpl; repeat split; reflexivity.
Qed.

End Phases.



(** ** What input handling may add to the trace *)

Lemma grows_same (s s' : imv) : trace s' = trace s -> grows s s'.
Proof. intros H. exists []. rewrite app_nil_r. split; [exact H | reflexivity]. Qed.

Lemma grows_trans (s1 s2 s3 : imv) : grows s1 s2 -> grows s2 s3 -> grows s1 s3.
Proof.
  intros [n1 [H1 F1]] [n2 [H2 F2]]. exists (n1 ++ n2)%list. split.
  - rewrite H2, H1, app_assoc. reflexivity.
  - rewrite forallb_app, F1, F2. reflexivity.
Qed.

Lemma grows_log (c : call) (s : imv) :
  is_input_call c = true -> grows s (log c s).
Proof.
  intros H. exists [c]. split; [reflexivity |]. cbn. rewrite H. reflexivity.
Qed.

Lemma grows_loads (s s' : imv) :
  grows s s' -> loads (trace s') = loads (trace s).
Proof.
  intros [new [H F]]. rewrite H, loads_app, (input_calls_loads _ F).
  apply app_nil_r.
Qed.


(** Closes [grows s s'] where [s'] is [s] under field updates and input
    calls. *)
Ltac grows_step :=
  lazymatch goal with
  | |- grows ?s ?s => apply grows_same; reflexivity
  | |- grows ?s (log ?c ?s1) =>
      apply (@grows_trans s s1); [grows_step | apply grows_log; reflexivity]
  | |- grows ?s (?f ?v ?s1) =>
      apply (@grows_trans s s1); [grows_step | apply grows_same; reflexivity]
  end.

Lemma call_handler_grows (h : handler) (args : list string) (s s' : imv) :
  call_handler h args s = OK s' -> grows s s'.
Proof.
  destruct h; cbn [call_handler];
    unfold command_quit, command_pan, command_select_rel, command_select_abs,
      command_zoom, command_remove, command_fullscreen, command_overlay;
    intros H;
    repeat match type of H with
      | (if ?c then _ else _) = _ => destruct c
      | match ?c with _ => _ end = _ => destruct c
      end;
    try discriminate; injection H as <-; grows_step.
Qed.

Lemma dispatch_grows (cmds : imv_commands) (args : list string) (s s' : imv) :
  dispatch cmds args s = OK s' -> grows s s'.
Proof.
  unfold dispatch. destruct args as [| name rest].
  - intros H. injection H as <-. grows_step.
  - destruct (lookup name (handlers cmds)) as [h |].
    + apply call_handler_grows.
    + intros H. injection H as <-. grows_step.
Qed.

Lemma imv_command_exec_grows (cmds : imv_commands) (line : string)
  (s s' : imv) :
  imv_command_exec cmds line s = OK s' -> grows s s'.
Proof.
  unfold imv_command_exec. destruct (tokenize line) as [| name rest].
  - intros H. injection H as <-. grows_step.
  - destruct (lookup name (aliases cmds)); apply dispatch_grows.
Qed.

Lemma text_entry_key_grows (buf : string) (sym : SDL_Keycode) (s s' : imv) :
  text_entry_key buf sym s = OK s' -> grows s s'.
Proof.
  unfold text_entry_key. intros H.
  destruct sym; try (injection H as <-; grows_step).
  - destruct (imv_command_exec (commands s) buf s) as [s1 |] eqn:E;
      [| discriminate].
    cbn [bind] in H. injection H as <-.
    apply imv_command_exec_grows in E.
    eapply grows_trans; [exact E | grows_step].
  - destruct (_ <? _)%Z; injection H as <-; grows_step.
Qed.

Lemma normal_key_grows (sym : SDL_Keycode) (mod_ : Z) (repeat : bool)
  (s s' : imv) :
  normal_key sym mod_ repeat s = OK s' -> grows s s'.
Proof.
  unfold normal_key, request_rescale, toggle_playing. intros H.
  destruct sym, repeat; cbv beta iota zeta delta [negb] in H;
    repeat match type of H with
      | (if ?c then _ else _) = _ => destruct c
      | match ?c with _ => _ end = _ => destruct c
      end;
    try discriminate;
    try (injection H as <-; grows_step);
    try (apply imv_command_exec_grows in H; exact H);
    (apply imv_command_exec_grows in H;
     eapply grows_trans; [| exact H]; grows_step).
Qed.

Lemma handle_event_grows (s s' : imv) (e : SDL_Event) :
  handle_event s e = OK s' -> grows s s'.
Proof.
  unfold handle_event. destruct e as [| text | sym m rep | y | st x y | |].
  - apply imv_command_exec_grows.
  - destruct (input_buffer s) as [buf |]; [| discriminate].
    destruct (strncat buf text (command_buffer_len - 1)); [| discriminate].
    cbn [bind]. intros H. injection H as <-. grows_step.
  - intros H.
    assert (G : grows s (log (SDL_ShowCursor false) s)) by grows_step.
    destruct (input_buffer s) as [buf |];
      [apply text_entry_key_grows in H | apply normal_key_grows in H];
      eapply grows_trans; eassumption.
  - intros H. injection H as <-. grows_step.
  - intros H. injection H as <-.
    destruct (negb _); grows_step.
  - intros H. injection H as <-. grows_step.
  - intros H. injection H as <-. grows_step.
Qed.

Lemma drain_events_grows (es : list SDL_Event) :
  forall s s' : imv, drain_events es s = OK s' -> grows s s'.
Proof.
  induction es as [| e es IH]; intros s s'; cbn [drain_events].
  - intros H. injection H as <-. grows_step.
  - destruct (quit s).
    + intros H. injection H as <-. grows_step.
    + destruct (handle_event s e) as [s1 |] eqn:E; [| discriminate].
      cbn [bind]. intros H. apply handle_event_grows in E.
      eapply grows_trans; [exact E | apply IH; exact H].
Qed.

(** ** The tail of the body: image, rescale, time, slideshow, drawing *)

Lemma shown_unfold (inp : tick_input) (loc : locals) (s : imv) :
  shown inp loc s
  = (let taken := take_image (loader_image inp) loc s in
     let loc1 := fst taken in
     let s2 := rescale (window_size inp) loc1 (snd taken) in
     let s3 := animate (ticks inp) loc1 s2 in
     let s4 := slideshow (ticks inp) loc1 s3 in
     (mk_locals (iw loc1) (ih loc1) (ticks inp),
      redraw (viewport_needs_redraw inp) s4)).
Proof.
  unfold shown. destruct (take_image (loader_image inp) loc s).
  reflexivity.
Qed.

(** A turn that reaches the image poll gets to the end of the body when
    the standard input is read without a fault. *)
Lemma present_unfold (inp : tick_input) (loc loc' : locals) (s s' : imv) :
  present inp loc s = OK (loc', s') <->
  (let taken := take_image (loader_image inp) loc s in
   let loc1 := fst taken in
   let s2 := rescale (window_size inp) loc1 (snd taken) in
   let s3 := animate (ticks inp) loc1 s2 in
   let s4 := slideshow (ticks inp) loc1 s3 in
   loc' = mk_locals (iw loc1) (ih loc1) (ticks inp)
   /\ idle inp (redraw (viewport_needs_redraw inp) s4) = OK s').
Proof.
  unfold present. rewrite shown_unfold. cbv beta iota zeta.
  destruct (idle inp _) as [s6 | f]; cbn [bind]; split.
  - intros H. injection H as <- <-. split; reflexivity.
  - intros [-> H]. injection H as <-. reflexivity.
  - discriminate.
  - intros [_ H]. discriminate H.
Qed.


Lemma take_image_last_time (img : option (Z * Z * Z)) (loc : locals) (s : imv) :
  last_time (fst (take_image img loc s)) = last_time loc.
Proof. unfold take_image. destruct img as [[[w h] n] |]; reflexivity. Qed.


(** ** The head of the body: error, wrapped latch, changed latch *)


Lemma handle_load_error_stable (err : option string) (s : imv) :
  let s' := handle_load_error err s in
  quit s' = quit s
  /\ cycle_input s' = cycle_input s
  /\ paths_from_stdin s' = paths_from_stdin s
  /\ view_playing s' = view_playing s
  /\ time_feeds (trace s') = time_feeds (trace s)
  /\ loads (trace s') = loads (trace s).
Proof.
  unfold handle_load_error. destruct err as [path |];
    [| repeat split; reflexivity].
  destruct (strncmp_eq path "-" 2); [| repeat split; reflexivity].
  trace_simpl. destruct (stdin_image_data s); trace_simpl;
    repeat split; reflexivity.
Qed.

Lemma check_wrapped_stable (s s' : imv) (w : bool) :
  check_wrapped s = (w, s') ->
  trace s' = trace s
  /\ quit s' = quit s
  /\ view_playing s' = view_playing s
  /\ paths_from_stdin s' = paths_from_stdin s
  /\ paths (navigator s') = paths (navigator s)
  /\ cur_path (navigator s') = cur_path (navigator s)
  /\ changed (navigator s') = changed (navigator s).
Proof.
  unfold check_wrapped. destruct (negb (cycle_input s)); cbn;
    intros H; injection H as <- <-; repeat split; reflexivity.
Qed.


(** How a turn leaves the body after the events: by the wrapped latch,
    by an empty selection, or at its end. *)
Lemma after_events_cases (inp : tick_input) (loc loc' : locals) (s s' : imv)
  (c : control) :
  after_events inp loc s = OK (c, loc', s') ->
  exists (w : bool) (s2 : imv),
    check_wrapped (handle_load_error (loader_error inp) s) = (w, s2)
    /\ ((w = true /\ c = Break /\ loc' = loc /\ s' = s2)
        \/ (w = false
            /\ exists s3 : imv,
                 (start_loading s2 = (Next, s3) /\ c = Next
                  /\ present inp loc s3 = OK (loc', s'))
                 \/ (start_loading s2 = (Continue, s3) /\ c = Continue
                     /\ loc' = loc /\ s' = s3))).
Proof.
  unfold after_events, after_load_error.
  destruct (check_wrapped (handle_load_error (loader_error inp) s))
    as [w s2] eqn:W.
  intros H. exists w, s2. split; [reflexivity |].
  destruct w.
  - injection H as <- <- <-. left. repeat split.
  - right. split; [reflexivity |].
    destruct (start_loading s2) as [c0 s3] eqn:L. exists s3.
    destruct c0.
    + destruct (present inp loc s3) as [[loc4 s4] | f] eqn:P;
        [| discriminate H].
      cbn [bind] in H. injection H as <- <- <-. left. repeat split.
    + injection H as <- <- <-. right. repeat split.
    + exfalso. revert L. unfold start_loading.
      destruct (imv_navigator_poll_changed (navigator s2)) as [chg nav].
      destruct chg; [| discriminate].
      destruct (imv_navigator_selection _); [discriminate |].
      destruct (negb _); discriminate.
Qed.







(** ** Rescaling *)

Lemma int_of_uint_small (z : Z) : 0 <= z < 2 ^ 31 -> C.int_of_uint z = z.
Proof.
  intros H. unfold C.int_of_uint. rewrite Z.mod_small by lia.
  destruct (Z.ltb_spec z (2 ^ 31)); [reflexivity | lia].
Qed.

(** C3, as amended: when a rescale is pending at the point of a turn where
    the controller tests the flag (it was pending before the turn, or the
    image taken from the loader in this turn is a new one), the fit
    operation of the turn follows the scaling mode.  "Actual size" scales
    to actual size and "scale to fit" scales to the window.  "Shrink to
    fit" compares the window with the width [w] and the height [h] the
    controller holds as [int]: those of the image taken in this turn, and
    without one those held from the turns before; it scales to actual size
    when the window is larger in both dimensions and to the window
    otherwise.  The dimensions of an image are held as they are when they
    are below 2^31.  No other fit operation is made in the rest of the
    turn, the dimensions are held for the turns to come and the flag is
    clear at the end of the turn. *)
Theorem C3_rescale_follows_scaling_mode :
  forall (inp : tick_input) (loc loc' : locals) (s s' : imv)
         (ww wh w h : Z),
    (exists width height is_new_image : Z,
       loader_image inp = Some (width, height, is_new_image)
       /\ bool_plus (need_rescale s) is_new_image = true
       /\ w = C.int_of_uint width /\ h = C.int_of_uint height)
    \/ (loader_image inp = None /\ need_rescale s = true
        /\ w = iw loc /\ h = ih loc) ->
    window_size inp = (ww, wh) ->
    present inp loc s = OK (loc', s') ->
    need_rescale s' = false
    /\ iw loc' = w /\ ih loc' = h
    /\ (forall width height is_new_image : Z,
          loader_image inp = Some (width, height, is_new_image) ->
          0 <= width < 2 ^ 31 -> 0 <= height < 2 ^ 31 ->
          w = width /\ h = height)
    /\ (scaling_mode s = SCALING_NONE ->
          scalings (trace s')
          = (scalings (trace s) ++ [imv_viewport_scale_to_actual])%list)
    /\ (scaling_mode s = SCALING_FULL ->
          scalings (trace s')
          = (scalings (trace s) ++ [imv_viewport_scale_to_window])%list)
    /\ (scaling_mode s = SCALING_DOWN -> w < ww -> h < wh ->
          scalings (trace s')
          = (scalings (trace s) ++ [imv_viewport_scale_to_actual])%list)
    /\ (scaling_mode s = SCALING_DOWN -> ww <= w \/ wh <= h ->
          scalings (trace s')
          = (scalings (trace s) ++ [imv_viewport_scale_to_window])%list).
Proof.
  intros inp loc loc' s s' ww wh w h Hpending Hwin Hpresent.
  apply present_unfold in Hpresent. cbv zeta in Hpresent.
  destruct Hpresent as [-> Hidle].
  pose proof (take_image_scalings inp loc s) as S0.
  destruct (take_image_stable inp loc s) as (_ & M0 & _).
  cbv zeta in M0.
  assert (Htake : exists s1,
             take_image (loader_image inp) loc s
             = (mk_locals w h (last_time loc), s1)
             /\ need_rescale s1 = true).
  { unfold take_image.
    destruct Hpending as [(wd & ht & n & -> & F & -> & ->) | (-> & F & -> & ->)].
    - eexists. split; [reflexivity |]. trace_simpl. exact F.
    - exists s. split; [destruct loc; reflexivity | exact F]. }
  destruct Htake as (s1 & Htake & Hflag).
  rewrite Htake in Hidle, S0, M0 |- *. cbn [fst snd iw ih] in *.
  rewrite Hwin in Hidle.
  set (loc1 := mk_locals w h (last_time loc)) in *.
  set (s2 := rescale (ww, wh) loc1 s1) in *.
  set (s3 := animate (ticks inp) loc1 s2) in *.
  set (s4 := slideshow (ticks inp) loc1 s3) in *.
  set (s5 := redraw (viewport_needs_redraw inp) s4) in *.
  destruct (@idle_stable inp s5 s' Hidle) as (_ & R5 & S5 & _).
  destruct (redraw_stable s4 (viewport_needs_redraw inp)) as (_ & R4 & S4 & _).
  destruct (slideshow_stable loc1 s3 (ticks inp)) as (_ & R3 & S3).
  destruct (animate_stable loc1 s2 (ticks inp)) as (_ & R2 & S2 & _).
  cbv zeta in *. fold s3 s4 s5 in R5, S5, R4, S4, R3, S3, R2, S2.
  rewrite R5, R4, R3, R2, S5, S4, S3, S2. clear R5 R4 R3 R2 S5 S4 S3 S2.
  unfold s2, rescale. rewrite Hflag. trace_simpl. rewrite M0, <- S0.
  split; [destruct (scaling_mode s); [| destruct (_ && _) |]; reflexivity |].
  split; [reflexivity |]. split; [reflexivity |].
  split.
  { intros wd ht n E Bw Bh.
    destruct Hpending as [(wd' & ht' & n' & E' & _ & -> & ->) | (E' & _)];
      [| rewrite E' in E; discriminate E].
    rewrite E' in E. injection E as -> -> _.
    split; apply int_of_uint_small; assumption. }
  unfold loc1. cbn [iw ih].
  repeat split; intros Hmode; rewrite Hmode.
  - trace_simpl. reflexivity.
  - trace_simpl. reflexivity.
  - intros Hw Hh.
    apply Z.ltb_lt in Hw, Hh. rewrite Hw, Hh. cbn [andb]. trace_simpl.
    reflexivity.
  - intros Hor.
    assert (E : (w <? ww) && (h <? wh) = false).
    { apply andb_false_iff. destruct Hor; [left | right]; apply Z.ltb_ge; lia. }
    rewrite E. trace_simpl. reflexivity.
Qed.

(** C3, the claim as written fails: an image 4294967295 pixels wide is
    held as a width of -1, so in "shrink to fit" a window of 1280 by 720,
    which is not larger than the image, counts as larger and the turn
    scales to actual size, not to the window. *)
Lemma C3_width_beyond_int_scales_to_actual :
  ~ (4294967295 < 1280)
  /\ scaling_mode (set_scaling_mode SCALING_DOWN three_sources) = SCALING_DOWN
  /\ exists (loc' : locals) (s' : imv),
       present (wide_image 4294967295 600) start_locals
         (set_scaling_mode SCALING_DOWN three_sources)
       = OK (loc', s')
       /\ iw loc' = -1
       /\ scalings (trace s') = [imv_viewport_scale_to_actual].
Proof.
  split; [lia |]. split; [reflexivity |].
  eexists _, _. split; [vm_compute; reflexivity |].
  split; reflexivity.
Qed.

(** ** Commands that restart the slideshow interval *)

(** C10 (the code where the claim fails): the handler of [remove] takes
    the selection of the cursor and hands it to [strdup] before anything
    else.  On a cursor without a selection, the state of a session that
    waits for paths from the standard input, this is [strdup(NULL)]: the
    command does not return, whatever its arguments and however the
    registry is reached, and the slideshow accumulator is never reset.
    The rest of the claim holds: the handler of [select_rel], given the
    command name and exactly one argument, and the handler of [remove] on
    a cursor with a selection leave the elapsed time of the slideshow at
    0; the default registry dispatches the two names to these handlers. *)
Theorem C10_remove_faults_on_an_empty_cursor :
  forall (s : imv) (args : list string),
    (imv_navigator_selection (navigator s) = None ->
       command_remove args s = Fault (NullPointer "strdup")
       /\ dispatch default_commands ("remove" :: args) s
          = Fault (NullPointer "strdup")
       /\ imv_command_exec default_commands "remove" s
          = Fault (NullPointer "strdup")
       /\ forall s' : imv,
            dispatch default_commands ("remove" :: args) s <> OK s')
    /\ (List.length args = 2%nat ->
          exists s', command_select_rel args s = OK s'
                     /\ slideshow_time_elapsed s' = 0
                     /\ navigator s'
                        = imv_navigator_select_rel (navigator s)
                            (C.strtol (nth 1 args "") 10))
    /\ (forall path, imv_navigator_selection (navigator s) = Some path ->
          exists s', command_remove args s = OK s'
                     /\ slideshow_time_elapsed s' = 0
                     /\ navigator s' = imv_navigator_remove (navigator s) path)
    /\ (forall arg,
          dispatch default_commands ["select_rel"; arg] s
          = command_select_rel ["select_rel"; arg] s)
    /\ dispatch default_commands ("remove" :: args) s
       = command_remove ("remove" :: args) s.
Proof.
  intros s args.
  assert (D : forall a, dispatch default_commands ("remove" :: a) s
                        = command_remove ("remove" :: a) s) by reflexivity.
  split; [| repeat split].
  - intros Hsel.
    assert (F : forall a, command_remove a s = Fault (NullPointer "strdup")).
    { intros a. unfold command_remove. rewrite Hsel. reflexivity. }
    split; [apply F |]. split; [rewrite D; apply F |].
    split; [exact (F ["remove"]) |].
    intros s'. rewrite D, F. discriminate.
  - intros Hlen. unfold command_select_rel. rewrite Hlen. cbn [Nat.eqb negb].
    eexists. repeat split.
  - intros path Hsel. unfold command_remove. rewrite Hsel.
    eexists. repeat split.
Qed.

(** ** Eviction of a source that failed to decode *)

Lemma remove_first_absent (id : string) (l : list string) :
  ~ In id l -> remove_first id l = l.
Proof.
  induction l as [| x l IH]; [reflexivity |].
  intros N. cbn. destruct (String.eqb_spec id x) as [-> | _].
  - contradiction N. left. reflexivity.
  - rewrite IH; [reflexivity |]. intros I. apply N. right. exact I.
Qed.




(** ** The end of the loop: wrapped latch and empty cursor *)


Lemma imv_loop_quit (inputs : list tick_input) (loc : locals) (s : imv) :
  quit s = true -> imv_loop inputs loc s = OK (loop_ended (at_exit s)).
Proof. intros Q. destruct inputs; cbn [imv_loop]; rewrite Q; reflexivity. Qed.

(** Evicting the only source empties the cursor and latches the change. *)
Lemma evicting_last_source (nav : imv_navigator) (X : string) :
  paths nav = [X] -> cur_path nav = 0%nat ->
  imv_navigator_selection (imv_navigator_remove nav X) = None
  /\ changed (imv_navigator_remove nav X) = true.
Proof.
  intros P C. unfold imv_navigator_remove, imv_navigator_selection.
  rewrite P, C. cbn. rewrite String.eqb_refl. cbn.
  split; [reflexivity | apply orb_true_r].
Qed.

(** C5 (the code where the claim fails): the only source fails to decode
    and is evicted, which leaves the cursor empty.  Without a feed of
    paths the session prints "No input files left. Exiting." and quits, as
    the claim says.  With paths still read from the standard input the
    turn ends without quitting; but the session does not wait for new
    paths: in the very next turn [poll] is given 10 ms, and when nothing
    arrives in that time (it returns 0, which is not 1) the session
    prints "error polling stdin" and quits, with the input still open and
    no path added.  Only an input that answers every poll keeps the
    session running. *)
Theorem C5_waiting_ends_at_the_first_silent_poll :
  (exists s' : imv,
     tick (failing "a.png" 16) start_locals one_source
     = OK (Continue, start_locals, s')
     /\ imv_navigator_selection (navigator s') = None
     /\ quit s' = true
     /\ trace s' = [fprintf_stderr ("No input files left. Exiting." ++ nl)])
  /\ (exists s' : imv,
        tick (failing "a.png" 16) start_locals
          (set_paths_from_stdin true one_source)
        = OK (Continue, start_locals, s')
        /\ imv_navigator_selection (navigator s') = None
        /\ paths_from_stdin s' = true
        /\ quit s' = false
        /\ trace s' = []
        /\ exists (loc'' : locals) (s'' : imv),
             tick (stdin_silent 32) start_locals s' = OK (Next, loc'', s'')
             /\ quit s'' = true
             /\ paths_from_stdin s'' = true
             /\ paths (navigator s'') = []
             /\ last (trace s'') SDL_RenderPresent
                = fprintf_stderr "error polling stdin")
  /\ (exists s'' : imv,
        imv_loop [failing "a.png" 16; stdin_silent 32] start_locals
          (set_paths_from_stdin true one_source)
        = OK (loop_ended s'')
        /\ quit s'' = true
        /\ In (fprintf_stderr "error polling stdin") (trace s''))
  /\ (exists (loc'' : locals) (s'' : imv),
        imv_loop [failing "a.png" 16; stdin_answering 32] start_locals
          (set_paths_from_stdin true one_source)
        = OK (loop_running loc'' s'')
        /\ quit s'' = false
        /\ paths (navigator s'') = ["b.png"]).
Proof.
  split; [eexists; split; [vm_compute; reflexivity | repeat split] |].
  split.
  { eexists. split; [vm_compute; reflexivity |].
    repeat split.
    eexists _, _. split; [vm_compute; reflexivity | repeat split]. }
  split.
  { eexists. split; [vm_compute; reflexivity |].
    split; [reflexivity |]. vm_compute. tauto. }
  eexists _, _. split; [vm_compute; reflexivity | split; reflexivity].
Qed.



(** ** The slideshow *)

Lemma take_image_view (img : option (Z * Z * Z)) (loc : locals) (s : imv) :
  slideshow_view (snd (take_image img loc s)) = slideshow_view s.
Proof. unfold take_image. destruct img as [[[w h] n] |]; reflexivity. Qed.

Lemma rescale_view (window : Z * Z) (loc : locals) (s : imv) :
  slideshow_view (rescale window loc s) = slideshow_view s.
Proof.
  unfold rescale. destruct (need_rescale s); [| reflexivity].
  destruct window as [ww wh]. trace_simpl.
  destruct (scaling_mode s); [| destruct (_ && _) |]; reflexivity.
Qed.

Lemma animate_view (t : Z) (loc : locals) (s : imv) :
  slideshow_view (animate t loc s) = slideshow_view s.
Proof. unfold animate. destruct (view_playing s); reflexivity. Qed.

Lemma redraw_view (dirty : bool) (s : imv) :
  slideshow_view (redraw dirty s) = slideshow_view s.
Proof.
  unfold redraw, render_window.
  destruct dirty; trace_simpl; [| destruct (need_redraw s) ]; reflexivity.
Qed.









(** ** The command line *)

(** C2 (as amended): while a command line is being typed, a key-down
    event does one of four things, the key code alone deciding which:
    escape discards the buffer; return executes the buffered line through
    the registry and then discards the buffer; backspace on a non-empty
    buffer erases its last character; every other key, and backspace on
    an empty buffer, leaves the session as it is but for the hidden mouse
    cursor.  None of these is a binding of normal mode. *)
Theorem C2_text_entry_key_down :
  forall (s : imv) (buf : string) (sym : SDL_Keycode) (mod_ : Z)
         (repeat : bool),
    input_buffer s = Some buf ->
    (sym = SDLK_ESCAPE
     /\ handle_event s (SDL_KEYDOWN sym mod_ repeat)
        = OK (set_need_redraw true
                (set_input_buffer None
                   (log SDL_StopTextInput (log (SDL_ShowCursor false) s)))))
    \/ (sym = SDLK_RETURN
        /\ handle_event s (SDL_KEYDOWN sym mod_ repeat)
           = (s1 <- imv_command_exec (commands s) buf
                      (log (SDL_ShowCursor false) s) ;;
              OK (set_need_redraw true
                    (set_input_buffer None (log SDL_StopTextInput s1)))))
    \/ (sym = SDLK_BACKSPACE /\ buf <> ""
        /\ handle_event s (SDL_KEYDOWN sym mod_ repeat)
           = OK (set_need_redraw true
                   (set_input_buffer (Some (C.removelast_string buf))
                      (log (SDL_ShowCursor false) s))))
    \/ (sym <> SDLK_ESCAPE /\ sym <> SDLK_RETURN
        /\ (sym = SDLK_BACKSPACE -> buf = "")
        /\ handle_event s (SDL_KEYDOWN sym mod_ repeat)
           = OK (log (SDL_ShowCursor false) s)).
Proof.
  intros s buf sym mod_ repeat Hbuf.
  unfold handle_event. rewrite Hbuf. unfold text_entry_key.
  destruct sym;
    try (right; right; right;
         repeat split; try discriminate; reflexivity).
  - left. split; reflexivity.
  - right; left. split; reflexivity.
  - destruct buf as [| c rest].
    + right; right; right. repeat split; discriminate.
    + right; right; left. repeat split. discriminate.
Qed.

(** The key-down of a plain key while "ab" is on the command line: the
    buffer is neither discarded (no cancel, no submit) nor edited, and the
    session has only hidden the mouse cursor. *)
Lemma C2_plain_key_down_is_ignored :
  input_buffer (typing "ab") = Some "ab"
  /\ exists s' : imv,
       handle_event (typing "ab") (SDL_KEYDOWN SDLK_q 0 false) = OK s'
       /\ input_buffer s' <> None
       /\ input_buffer s' <> Some (C.removelast_string "ab")
       /\ input_buffer s' = Some "ab"
       /\ s' = log (SDL_ShowCursor false) (typing "ab").
Proof.
  split; [reflexivity |]. eexists. split; [reflexivity |].
  repeat split; discriminate.
Qed.

(** C9 (the code at the failing input): the command line is opened and
    text events of 31 bytes arrive in one turn.  After 33 of them the
    buffer holds 1023 characters and is full; the 34th makes [strncat]
    write past the end of the 1024 bytes.  So does the 1024th character
    typed one text event at a time. *)
Theorem C9_text_input_overflows_command_buffer :
  (exists s' : imv,
     drain_events (events (typing_burst 33)) three_sources = OK s'
     /\ option_map String.length (input_buffer s') = Some 1023%nat)
  /\ drain_events (events (typing_burst 34)) three_sources
     = Fault (BufferOverflow "strncat")
  /\ tick (typing_burst 34) start_locals three_sources
     = Fault (BufferOverflow "strncat")
  /\ (exists s' : imv,
        drain_events (keystrokes 1023) three_sources = OK s'
        /\ option_map String.length (input_buffer s') = Some 1023%nat)
  /\ drain_events (keystrokes 1024) three_sources
     = Fault (BufferOverflow "strncat").
Proof.
  split; [eexists; split; vm_compute; reflexivity |].
  split; [vm_compute; reflexivity |].
  split; [vm_compute; reflexivity |].
  split; [eexists; split; vm_compute; reflexivity |].
  vm_compute; reflexivity.
Qed.

(** ** Option values *)

(** C6 (the code at the failing inputs): [-b 0x1234] is not six
    hexadecimal digits, yet it is accepted, as the colour 00 12 34;
    [-b +12345] and [-b " 12345"] likewise; a slideshow duration that is
    not a number, or that is negative, is accepted as well. *)
Theorem C6_malformed_option_values_are_accepted :
  (exists s' : imv,
     parse_options [("b"%char, "0x1234")] (imv_create BACKGROUND_SOLID true)
     = OK (option_break s')
     /\ background_color s' = {| r := 0; g := 0x12; b := 0x34 |})
  /\ (exists s' : imv,
        parse_options [("b"%char, "+12345")] (imv_create BACKGROUND_SOLID true)
        = OK (option_break s')
        /\ background_color s' = {| r := 0x01; g := 0x23; b := 0x45 |})
  /\ (exists s' : imv,
        parse_options [("b"%char, " 12345")] (imv_create BACKGROUND_SOLID true)
        = OK (option_break s')
        /\ background_color s' = {| r := 0x01; g := 0x23; b := 0x45 |})
  /\ (exists s' : imv,
        parse_options [("t"%char, "abc")] (imv_create BACKGROUND_SOLID true)
        = OK (option_break s')
        /\ slideshow_image_duration s' = 0)
  /\ (exists s' : imv,
        parse_options [("t"%char, "-1")] (imv_create BACKGROUND_SOLID true)
        = OK (option_break s')
        /\ slideshow_image_duration s' = 2 ^ 64 - 1000).
Proof.
  repeat split; eexists; split; vm_compute; reflexivity.
Qed.

(** ** The theorems at work on concrete sessions *)


(** Backspace with "ab" on the command line leaves "a". *)
Lemma C2_text_entry_key_down_witness :
  handle_event (typing "ab") (SDL_KEYDOWN SDLK_BACKSPACE 0 false)
  = OK (set_need_redraw true
          (set_input_buffer (Some "a")
             (log (SDL_ShowCursor false) (typing "ab")))).
Proof.
  destruct (@C2_text_entry_key_down (typing "ab") "ab" SDLK_BACKSPACE 0 false
              eq_refl)
    as [[E _] | [[E _] | [(_ & _ & H) | (_ & _ & E & _)]]].
  - discriminate E.
  - discriminate E.
  - exact H.
  - discriminate (E eq_refl).
Defined.

(** In "shrink to fit" mode a new image of 640 by 480 in a window of 1280
    by 720 is shown at its actual size. *)
Lemma C3_rescale_follows_scaling_mode_witness :
  exists (loc' : locals) (s' : imv),
    present (wide_image 640 480) start_locals
      (set_scaling_mode SCALING_DOWN three_sources)
    = OK (loc', s')
    /\ need_rescale s' = false
    /\ iw loc' = 640 /\ ih loc' = 480
    /\ scalings (trace s') = [imv_viewport_scale_to_actual].
Proof.
  assert (H : exists loc' s',
             present (wide_image 640 480) start_locals
               (set_scaling_mode SCALING_DOWN three_sources)
             = OK (loc', s'))
    by (eexists _, _; vm_compute; reflexivity).
  destruct H as (loc' & s' & H). exists loc', s'. split; [exact H |].
  destruct (@C3_rescale_follows_scaling_mode (wide_image 640 480)
              start_locals loc'
              (set_scaling_mode SCALING_DOWN three_sources) s'
              1280 720 640 480)
    as (A & B & C & _ & _ & _ & D & _).
  - left. exists 640, 480, 1. repeat split; reflexivity.
  - reflexivity.
  - exact H.
  - split; [exact A |]. split; [exact B |]. split; [exact C |].
    apply D; [reflexivity | lia | lia].
Defined.




(** [remove] in a fresh session, whose cursor is empty, and [select_rel 1]
    on three sources. *)
Lemma C10_remove_faults_on_an_empty_cursor_witness :
  command_remove ["remove"] (imv_create BACKGROUND_SOLID true)
  = Fault (NullPointer "strdup")
  /\ imv_command_exec default_commands "remove"
       (imv_create BACKGROUND_SOLID true)
     = Fault (NullPointer "strdup")
  /\ (exists s' : imv,
        command_select_rel ["select_rel"; "1"] three_sources = OK s'
        /\ slideshow_time_elapsed s' = 0).
Proof.
  destruct (@C10_remove_faults_on_an_empty_cursor
              (imv_create BACKGROUND_SOLID true) ["remove"]) as (F & _).
  destruct (F eq_refl) as (A & _ & B & _).
  split; [exact A |]. split; [exact B |].
  destruct (@C10_remove_faults_on_an_empty_cursor
              three_sources ["select_rel"; "1"]) as (_ & S & _).
  destruct (S eq_refl) as (s' & E & Z0 & _).
  exists s'. split; [exact E | exact Z0].
Defined.

(** ** Colours of six hexadecimal digits *)

Lemma hex_digit_facts (c : ascii) (d : Z) :
  C.digit_of 16 c = Some d ->
  0 <= d < 16
  /\ C.isspace c = false
  /\ Ascii.eqb c "x" = false
  /\ Ascii.eqb c "X" = false
  /\ Ascii.eqb "h" c = false.
Proof.
  destruct c as [[] [] [] [] [] [] [] []]; cbv; intros H;
    try discriminate H; injection H as <-;
    repeat split; discriminate.
Qed.

Lemma skip_space_hex (c : ascii) (d : Z) (cs : list ascii) :
  C.digit_of 16 c = Some d -> C.skip_space (c :: cs) 0 = (c :: cs, 0%nat).
Proof.
  intros H. destruct (hex_digit_facts _ H) as (_ & Hs & _).
  cbn [C.skip_space]. rewrite Hs. reflexivity.
Qed.

Lemma skip_sign_hex (c : ascii) (d : Z) (cs : list ascii) :
  C.digit_of 16 c = Some d -> C.skip_sign (c :: cs) = (false, c :: cs, 0%nat).
Proof.
  destruct c as [[] [] [] [] [] [] [] []]; cbv; intros H;
    try discriminate H; reflexivity.
Qed.

Lemma skip_prefix_hex (c1 c2 : ascii) (d2 : Z) (cs : list ascii) :
  C.digit_of 16 c2 = Some d2 ->
  C.skip_prefix 16 (c1 :: c2 :: cs) = (c1 :: c2 :: cs, 0%nat).
Proof.
  intros H. destruct (hex_digit_facts _ H) as (_ & _ & Hx & HX & _).
  unfold C.skip_prefix.
  destruct c1 as [[] [] [] [] [] [] [] []]; try reflexivity.
  destruct cs; [reflexivity |]. rewrite Hx, HX. reflexivity.
Qed.

Lemma hex_value_bytes (d1 d2 d3 d4 d5 d6 : Z) :
  0 <= d1 < 16 -> 0 <= d2 < 16 -> 0 <= d3 < 16 ->
  0 <= d4 < 16 -> 0 <= d5 < 16 -> 0 <= d6 < 16 ->
  forall v,
    v = (((((0 * 16 + d1) * 16 + d2) * 16 + d3) * 16 + d4) * 16 + d5) * 16 + d6 ->
    (C.ULONG_MAX <? v) = false
    /\ C.uint v = v
    /\ (0xFFFFFF <? v) = false
    /\ C.uchar (Z.shiftr v 16) = 16 * d1 + d2
    /\ Z.land (Z.shiftr v 8) 0xFF = 16 * d3 + d4
    /\ Z.land v 0xFF = 16 * d5 + d6.
Proof.
  intros H1 H2 H3 H4 H5 H6 v Hv.
  assert (B : 0 <= v <= 0xFFFFFF) by lia.
  change 0xFF with (Z.ones 8). rewrite !Z.land_ones, !Z.shiftr_div_pow2 by lia.
  unfold C.ULONG_MAX, C.uint, C.uchar.
  change (2 ^ 64 - 1) with 18446744073709551615.
  change (2 ^ 32) with 4294967296. change (2 ^ 16) with 65536.
  change (2 ^ 8) with 256.
  repeat split.
  - apply Z.ltb_ge. lia.
  - apply Z.mod_small. lia.
  - apply Z.ltb_ge. lia.
  - subst v. Z.div_mod_to_equations. lia.
  - subst v. Z.div_mod_to_equations. lia.
  - subst v. Z.div_mod_to_equations. lia.
Qed.

(** [strtoul] in base 16 on six hexadecimal digits reads all six. *)
Lemma strtoul_six_hex_digits (c1 c2 c3 c4 c5 c6 : ascii)
  (d1 d2 d3 d4 d5 d6 : Z) :
  C.digit_of 16 c1 = Some d1 -> C.digit_of 16 c2 = Some d2 ->
  C.digit_of 16 c3 = Some d3 -> C.digit_of 16 c4 = Some d4 ->
  C.digit_of 16 c5 = Some d5 -> C.digit_of 16 c6 = Some d6 ->
  C.strtoul
    (String c1 (String c2 (String c3 (String c4 (String c5 (String c6 ""))))))
    16
  = ((((((0 * 16 + d1) * 16 + d2) * 16 + d3) * 16 + d4) * 16 + d5) * 16 + d6,
     6%nat).
Proof.
  intros H1 H2 H3 H4 H5 H6.
  destruct (hex_digit_facts _ H1) as (B1 & _).
  destruct (hex_digit_facts _ H2) as (B2 & _).
  destruct (hex_digit_facts _ H3) as (B3 & _).
  destruct (hex_digit_facts _ H4) as (B4 & _).
  destruct (hex_digit_facts _ H5) as (B5 & _).
  destruct (hex_digit_facts _ H6) as (B6 & _).
  destruct (@hex_value_bytes _ _ _ _ _ _ B1 B2 B3 B4 B5 B6 _ eq_refl) as (V1 & _).
  unfold C.strtoul, C.scan_number. cbn [list_ascii_of_string].
  rewrite (@skip_space_hex c1 d1 _ H1), (@skip_sign_hex c1 d1 _ H1),
    (@skip_prefix_hex c1 c2 d2 _ H2).
  cbn [C.scan_digits]. rewrite H1, H2, H3, H4, H5, H6.
  cbn [C.negative C.magnitude C.used Nat.add]. rewrite V1. reflexivity.
Qed.

Lemma not_checks (c1 c2 : ascii) (d2 : Z) (rest : string) :
  C.digit_of 16 c2 = Some d2 ->
  String.eqb "checks" (String c1 (String c2 rest)) = false.
Proof.
  intros H2. destruct (hex_digit_facts _ H2) as (_ & _ & _ & _ & Hh).
  cbn [String.eqb]. destruct (Ascii.eqb "c" c1); [| reflexivity].
  rewrite Hh. reflexivity.
Qed.

(** Six hexadecimal digits are accepted, with the first two as red, the
    middle two as green and the last two as blue. *)
Lemma six_hex_digits_accepted (c1 c2 c3 c4 c5 c6 : ascii)
  (d1 d2 d3 d4 d5 d6 : Z) (s : imv) :
  C.digit_of 16 c1 = Some d1 -> C.digit_of 16 c2 = Some d2 ->
  C.digit_of 16 c3 = Some d3 -> C.digit_of 16 c4 = Some d4 ->
  C.digit_of 16 c5 = Some d5 -> C.digit_of 16 c6 = Some d6 ->
  parse_background
    (String c1 (String c2 (String c3 (String c4 (String c5 (String c6 ""))))))
    s
  = option_break
      (set_background_color
         {| r := 16 * d1 + d2; g := 16 * d3 + d4; b := 16 * d5 + d6 |}
         (set_background_type BACKGROUND_SOLID s)).
Proof.
  intros H1 H2 H3 H4 H5 H6.
  destruct (hex_digit_facts _ H1) as (B1 & _).
  destruct (hex_digit_facts _ H2) as (B2 & _).
  destruct (hex_digit_facts _ H3) as (B3 & _).
  destruct (hex_digit_facts _ H4) as (B4 & _).
  destruct (hex_digit_facts _ H5) as (B5 & _).
  destruct (hex_digit_facts _ H6) as (B6 & _).
  destruct (@hex_value_bytes _ _ _ _ _ _ B1 B2 B3 B4 B5 B6 _ eq_refl)
    as (_ & V2 & V3 & V4 & V5 & V6).
  unfold parse_background.
  rewrite (@not_checks c1 c2 d2 _ H2).
  assert (A : match C.deref (String c1 (String c2 (String c3 (String c4
                      (String c5 (String c6 ""))))))
              with
              | Some "#"%char =>
                  C.advance 1 (String c1 (String c2 (String c3 (String c4
                      (String c5 (String c6 ""))))))
              | _ => String c1 (String c2 (String c3 (String c4
                      (String c5 (String c6 "")))))
              end
              = String c1 (String c2 (String c3 (String c4
                      (String c5 (String c6 "")))))).
  { destruct c1 as [[] [] [] [] [] [] [] []]; cbv in H1; try discriminate H1;
      reflexivity. }
  rewrite A, (@strtoul_six_hex_digits _ _ _ _ _ _ _ _ _ _ _ _ H1 H2 H3 H4 H5 H6).
  cbn [C.advance C.deref Nat.eqb negb orb].
  rewrite V2, V3, V4, V5, V6. reflexivity.
Qed.

(** The same after a leading [#]. *)
Lemma six_hex_digits_after_hash_accepted (c1 c2 c3 c4 c5 c6 : ascii)
  (d1 d2 d3 d4 d5 d6 : Z) (s : imv) :
  C.digit_of 16 c1 = Some d1 -> C.digit_of 16 c2 = Some d2 ->
  C.digit_of 16 c3 = Some d3 -> C.digit_of 16 c4 = Some d4 ->
  C.digit_of 16 c5 = Some d5 -> C.digit_of 16 c6 = Some d6 ->
  parse_background
    (String "#"
       (String c1 (String c2 (String c3 (String c4 (String c5
          (String c6 "")))))))
    s
  = option_break
      (set_background_color
         {| r := 16 * d1 + d2; g := 16 * d3 + d4; b := 16 * d5 + d6 |}
         (set_background_type BACKGROUND_SOLID s)).
Proof.
  intros H1 H2 H3 H4 H5 H6.
  destruct (hex_digit_facts _ H1) as (B1 & _).
  destruct (hex_digit_facts _ H2) as (B2 & _).
  destruct (hex_digit_facts _ H3) as (B3 & _).
  destruct (hex_digit_facts _ H4) as (B4 & _).
  destruct (hex_digit_facts _ H5) as (B5 & _).
  destruct (hex_digit_facts _ H6) as (B6 & _).
  destruct (@hex_value_bytes _ _ _ _ _ _ B1 B2 B3 B4 B5 B6 _ eq_refl)
    as (_ & V2 & V3 & V4 & V5 & V6).
  unfold parse_background.
  change (String.eqb "checks"
            (String "#" (String c1 (String c2 (String c3 (String c4
               (String c5 (String c6 ""))))))))
    with false.
  cbn [C.deref C.advance].
  rewrite (@strtoul_six_hex_digits _ _ _ _ _ _ _ _ _ _ _ _ H1 H2 H3 H4 H5 H6).
  cbn [C.advance C.deref Nat.eqb negb orb].
  rewrite V2, V3, V4, V5, V6. reflexivity.
Qed.

(* ===================================================================== *)
(** * Part III: further properties of the controller                      *)
(* ===================================================================== *)

(** ** What the body of the loop leaves alone *)

Lemma handle_load_error_settings (err : option string) (s : imv) :
  settings (handle_load_error err s) = settings s.
Proof.
  unfold handle_load_error. destruct err as [path |]; [| reflexivity].
  destruct (strncmp_eq path "-" 2); [| reflexivity].
  cbn [stdin_image_data set_navigator].
  destruct (stdin_image_data s); reflexivity.
Qed.

Lemma check_wrapped_settings (s : imv) :
  settings (snd (check_wrapped s)) = settings s.
Proof. unfold check_wrapped. destruct (negb (cycle_input s)); reflexivity. Qed.

Lemma start_loading_settings (s : imv) :
  settings (snd (start_loading s)) = settings s.
Proof.
  unfold start_loading. cbn [imv_navigator_poll_changed].
  destruct (changed (navigator s)); [| reflexivity].
  destruct (imv_navigator_selection _); [reflexivity |].
  destruct (negb _); reflexivity.
Qed.

Lemma take_image_settings (img : option (Z * Z * Z)) (loc : locals) (s : imv) :
  settings (snd (take_image img loc s)) = settings s.
Proof. unfold take_image. destruct img as [[[w h] n] |]; reflexivity. Qed.

Lemma rescale_settings (window : Z * Z) (loc : locals) (s : imv) :
  settings (rescale window loc s) = settings s.
Proof.
  unfold rescale. destruct (need_rescale s); [| reflexivity].
  destruct window as [ww wh]. cbn [scaling_mode set_need_rescale].
  destruct (scaling_mode s); [| destruct (_ && _) |]; reflexivity.
Qed.

Lemma animate_settings (t : Z) (loc : locals) (s : imv) :
  settings (animate t loc s) = settings s.
Proof. unfold animate. destruct (view_playing s); reflexivity. Qed.

Lemma slideshow_settings (t : Z) (loc : locals) (s : imv) :
  settings (slideshow t loc s) = settings s.
Proof.
  unfold slideshow. destruct (negb _); [| reflexivity].
  destruct (_ <=? _); reflexivity.
Qed.

Lemma redraw_settings (dirty : bool) (s : imv) :
  settings (redraw dirty s) = settings s.
Proof.
  unfold redraw, render_window.
  destruct dirty; cbn [need_redraw set_need_redraw];
    [| destruct (need_redraw s) ]; reflexivity.
Qed.

Lemma idle_settings (inp : tick_input) (s s' : imv) :
  idle inp s = OK s' -> settings s' = settings s.
Proof.
  unfold idle, check_stdin_for_paths, imv_add_path.
  destruct (paths_from_stdin s);
    [destruct (stdin_poll inp) as [| | | | buf];
     try destruct (path_of_line buf) as [[path |] |] |];
    cbn [bind]; intros H; try discriminate H; injection H as <-;
    reflexivity.
Qed.

Lemma present_settings (inp : tick_input) (loc loc' : locals) (s s' : imv) :
  present inp loc s = OK (loc', s') -> settings s' = settings s.
Proof.
  intros H. apply present_unfold in H. cbv zeta in H. destruct H as [_ H].
  apply idle_settings in H. rewrite H.
  rewrite redraw_settings, slideshow_settings,
    animate_settings, rescale_settings.
  apply take_image_settings.
Qed.

Lemma after_events_settings (inp : tick_input) (loc loc' : locals)
  (s s' : imv) (c : control) :
  after_events inp loc s = OK (c, loc', s') -> settings s' = settings s.
Proof.
  intros H. apply after_events_cases in H.
  destruct H as (w & s2 & W & H).
  pose proof (check_wrapped_settings
                (handle_load_error (loader_error inp) s)) as WS.
  rewrite W in WS. cbn [snd] in WS.
  rewrite handle_load_error_settings in WS.
  destruct H as [(_ & _ & _ & ->) | (_ & s3 & [(L & _ & P) | (L & _ & _ & ->)])].
  - exact WS.
  - pose proof (start_loading_settings s2) as LS.
    rewrite L in LS. cbn [snd] in LS.
    apply present_settings in P. congruence.
  - pose proof (start_loading_settings s2) as LS.
    rewrite L in LS. cbn [snd] in LS. congruence.
Qed.

(** X1: once the events of a turn are handled, the rest of the body (load
    error, wrapped and changed latches, image, rescale, time, slideshow,
    drawing, stdin) changes none of the settings: the command line, the
    registry, the scaling mode, the slideshow interval, the overlay and
    cycling flags and the other options keep their values. *)
Theorem X1_body_after_events_keeps_settings :
  forall (inp : tick_input) (loc loc' : locals) (s s' : imv) (c : control),
    after_events inp loc s = OK (c, loc', s') ->
    input_buffer s' = input_buffer s
    /\ commands s' = commands s
    /\ scaling_mode s' = scaling_mode s
    /\ slideshow_image_duration s' = slideshow_image_duration s
    /\ overlay_enabled s' = overlay_enabled s
    /\ cycle_input s' = cycle_input s
    /\ list_at_exit s' = list_at_exit s
    /\ recursive_load s' = recursive_load s
    /\ fullscreen s' = fullscreen s
    /\ nearest_neighbour s' = nearest_neighbour s
    /\ background_type s' = background_type s
    /\ background_color s' = background_color s
    /\ font_name s' = font_name s
    /\ starting_path s' = starting_path s.
Proof.
  intros inp loc loc' s s' c H.
  pose proof (@after_events_settings inp loc loc' s s' c H) as E.
  unfold settings in E.
  injection E as E1 E2 E3 E4 E5 E6 E7 E8 E9 E10 E11 E12 E13 E14.
  repeat split; assumption.
Qed.

Lemma X1_body_after_events_keeps_settings_witness :
  exists (c : control) (loc' : locals) (s' : imv),
    after_events (quiet 16) start_locals three_sources = OK (c, loc', s')
    /\ scaling_mode s' = SCALING_FULL
    /\ input_buffer s' = None.
Proof.
  assert (H : exists c loc' s',
             after_events (quiet 16) start_locals three_sources
             = OK (c, loc', s')).
  { eexists. eexists. eexists. vm_compute. reflexivity. }
  destruct H as (c & loc' & s' & H). exists c, loc', s'.
  destruct (X1_body_after_events_keeps_settings _ _ _ H) as (B & _ & M & _).
  split; [exact H |]. split; [rewrite M | rewrite B]; reflexivity.
Defined.

(** ** What the command handlers leave alone *)

Lemma handler_frame_refl (s : imv) : handler_frame s s.
Proof. unfold handler_frame. repeat split; auto. Qed.

Lemma call_handler_frame (h : handler) (args : list string) (s s' : imv) :
  call_handler h args s = OK s' -> handler_frame s s'.
Proof.
  destruct h; cbn [call_handler];
    unfold command_quit, command_pan, command_select_rel, command_select_abs,
      command_zoom, command_remove, command_fullscreen, command_overlay;
    intros H;
    repeat match type of H with
      | (if ?c then _ else _) = _ => destruct c
      | match ?c with _ => _ end = _ => destruct c
      end;
    try discriminate; injection H as <-;
    unfold handler_frame; cbn; repeat split; auto.
Qed.

Lemma dispatch_frame (cmds : imv_commands) (args : list string) (s s' : imv) :
  dispatch cmds args s = OK s' -> handler_frame s s'.
Proof.
  unfold dispatch. destruct args as [| name rest].
  - intros H. injection H as <-. apply handler_frame_refl.
  - destruct (lookup name (handlers cmds)) as [h |].
    + apply call_handler_frame.
    + intros H. injection H as <-. apply handler_frame_refl.
Qed.

Lemma imv_command_exec_frame (cmds : imv_commands) (line : string)
  (s s' : imv) :
  imv_command_exec cmds line s = OK s' -> handler_frame s s'.
Proof.
  unfold imv_command_exec. destruct (tokenize line) as [| name rest].
  - intros H. injection H as <-. apply handler_frame_refl.
  - destruct (lookup name (aliases cmds)); apply dispatch_frame.
Qed.

Unset Implicit Arguments.

(** ** Entering and leaving command mode *)

Lemma normal_key_opens_command_line (sym : SDL_Keycode) (m : Z) (rep : bool)
  (s s' : imv) (buf : string) :
  input_buffer s = None ->
  normal_key sym m rep s = OK s' ->
  input_buffer s' = Some buf ->
  buf = "" /\ sym = SDLK_SEMICOLON /\ Z.land m KMOD_SHIFT <> 0.
Proof.
  intros E H B. unfold normal_key, request_rescale, toggle_playing in H.
  destruct sym, rep; cbv beta iota zeta delta [negb] in H;
    repeat match type of H with
      | (if ?c then _ else _) = _ => destruct c eqn:?
      | match ?c with _ => _ end = _ => destruct c
      end;
    try discriminate;
    try (injection H as <-; cbn in B; congruence);
    try (apply imv_command_exec_frame in H; destruct H as (K & _);
         cbn in K; congruence);
    injection H as <-; cbn in B; injection B as <-;
    (split; [reflexivity |]; split; [reflexivity |]);
    (destruct (Z.land m KMOD_SHIFT =? 0) eqn:Z0;
     [discriminate | apply Z.eqb_neq; exact Z0]).
Qed.

Lemma text_entry_key_closes_command_line (buf : string) (sym : SDL_Keycode)
  (s s' : imv) :
  input_buffer s = Some buf ->
  text_entry_key buf sym s = OK s' ->
  input_buffer s' = None ->
  sym = SDLK_ESCAPE \/ sym = SDLK_RETURN.
Proof.
  intros E H B. unfold text_entry_key in H.
  destruct sym; try (injection H as <-; congruence); auto.
  destruct (_ <? _); injection H as <-; cbn in B; congruence.
Qed.

(** X3: command mode is entered and left by three keys only.  From normal
    mode an event that leaves a command line behind is a key-down of the
    semicolon with shift held, and the line starts empty; from command
    mode an event that leaves no command line behind is a key-down of
    escape or of return. *)
Theorem X3_command_mode_is_entered_and_left_by_its_keys :
  forall (s s' : imv) (e : SDL_Event),
    handle_event s e = OK s' ->
    (input_buffer s = None ->
     forall buf, input_buffer s' = Some buf ->
       buf = ""
       /\ exists m rep, e = SDL_KEYDOWN SDLK_SEMICOLON m rep
                        /\ Z.land m KMOD_SHIFT <> 0)
    /\ (forall buf, input_buffer s = Some buf ->
        input_buffer s' = None ->
          exists m rep, e = SDL_KEYDOWN SDLK_ESCAPE m rep
                        \/ e = SDL_KEYDOWN SDLK_RETURN m rep).
Proof.
  intros s s' e H. split.
  - intros E buf B. unfold handle_event in H.
    destruct e as [| text | sym m rep | y | st x y | |].
    + apply imv_command_exec_frame in H. destruct H as (K & _). congruence.
    + rewrite E in H. discriminate.
    + rewrite E in H.
      assert (E0 : input_buffer (log (SDL_ShowCursor false) s) = None)
        by exact E.
      destruct (normal_key_opens_command_line _ _ _ _ _ _ E0 H B)
        as (B1 & B2 & B3).
      split; [exact B1 |]. exists m, rep. subst sym. split;
        [reflexivity | exact B3].
    + injection H as <-. cbn in B. congruence.
    + injection H as <-. destruct (negb _); cbn in B; congruence.
    + injection H as <-. cbn in B. congruence.
    + injection H as <-. congruence.
  - intros buf E B. unfold handle_event in H.
    destruct e as [| text | sym m rep | y | st x y | |].
    + apply imv_command_exec_frame in H. destruct H as (K & _). congruence.
    + rewrite E in H.
      destruct (strncat buf text (command_buffer_len - 1)); [| discriminate].
      cbn [bind] in H. injection H as <-. cbn in B. discriminate.
    + rewrite E in H.
      assert (E0 : input_buffer (log (SDL_ShowCursor false) s) = Some buf)
        by exact E.
      destruct (text_entry_key_closes_command_line _ _ _ _ E0 H B) as [-> | ->];
        exists m, rep; [left | right]; reflexivity.
    + injection H as <-. cbn in B. congruence.
    + injection H as <-. destruct (negb _); cbn in B; congruence.
    + injection H as <-. cbn in B. congruence.
    + injection H as <-. congruence.
Qed.

Lemma X3_command_mode_is_entered_and_left_by_its_keys_witness :
  exists s' : imv,
    handle_event (typing "ab") (SDL_KEYDOWN SDLK_ESCAPE 0 false) = OK s'
    /\ input_buffer s' = None
    /\ exists m rep,
         SDL_KEYDOWN SDLK_ESCAPE 0 false = SDL_KEYDOWN SDLK_ESCAPE m rep
         \/ SDL_KEYDOWN SDLK_ESCAPE 0 false = SDL_KEYDOWN SDLK_RETURN m rep.
Proof.
  eexists. split; [reflexivity |]. split; [reflexivity |].
  refine (proj2 (X3_command_mode_is_entered_and_left_by_its_keys
                   (typing "ab") _ (SDL_KEYDOWN SDLK_ESCAPE 0 false) eq_refl)
            "ab" eq_refl eq_refl).
Defined.

(** ** The quit flag *)

Lemma handle_event_keeps_quit (s s' : imv) (e : SDL_Event) :
  handle_event s e = OK s' -> quit s = true -> quit s' = true.
Proof.
  unfold handle_event. intros H Q.
  destruct e as [| text | sym m rep | y | st x y | |].
  - apply imv_command_exec_frame in H. destruct H as (_ & _ & _ & _ & K & _).
    exact (K Q).
  - destruct (input_buffer s) as [buf |]; [| discriminate].
    destruct (strncat _ _ _); [| discriminate].
    cbn [bind] in H. injection H as <-. exact Q.
  - destruct (input_buffer s) as [buf |].
    + unfold text_entry_key in H.
      destruct sym; try (injection H as <-; exact Q).
      * destruct (imv_command_exec _ _ _) as [s1 |] eqn:X; [| discriminate].
        cbn [bind] in H. injection H as <-.
        apply imv_command_exec_frame in X.
        destruct X as (_ & _ & _ & _ & K & _). exact (K Q).
      * destruct (_ <? _); injection H as <-; exact Q.
    + unfold normal_key, request_rescale, toggle_playing in H.
      destruct sym, rep; cbv beta iota zeta delta [negb] in H;
        repeat match type of H with
          | (if ?c then _ else _) = _ => destruct c
          | match ?c with _ => _ end = _ => destruct c
          end;
        try discriminate;
        try (injection H as <-; exact Q);
        apply imv_command_exec_frame in H;
        destruct H as (_ & _ & _ & _ & K & _); apply K; first [exact Q | reflexivity].
  - injection H as <-. exact Q.
  - injection H as <-. destruct (negb _); exact Q.
  - injection H as <-. exact Q.
  - injection H as <-. exact Q.
Qed.

(** X4: no event clears the quit flag, and events queued behind the one
    that set it are never handled: if handling a prefix of the queue ends
    with the flag set, handling the whole queue ends in the same
    session. *)
Theorem X4_events_behind_a_quit_are_not_handled :
  forall (before behind : list SDL_Event) (s s1 : imv),
    drain_events before s = OK s1 ->
    quit s1 = true ->
    drain_events (before ++ behind) s = OK s1
    /\ forall (e : SDL_Event) (s2 : imv),
         handle_event s1 e = OK s2 -> quit s2 = true.
Proof.
  intros before behind s s1 D Q. split.
  - revert s D. induction before as [| e es IH]; intros s D.
    + cbn [drain_events] in D. injection D as ->. cbn [app].
      destruct behind; cbn [drain_events]; [reflexivity |].
      rewrite Q. reflexivity.
    + cbn [app drain_events] in *. destruct (quit s) eqn:Qs.
      * exact D.
      * destruct (handle_event s e) as [s0 |]; [| discriminate].
        cbn [bind] in *. apply IH. exact D.
  - intros e s2 H. exact (handle_event_keeps_quit _ _ _ H Q).
Qed.

Lemma X4_events_behind_a_quit_are_not_handled_witness :
  exists s1 : imv,
    drain_events ([SDL_QUIT] ++ [SDL_KEYDOWN SDLK_RIGHT 0 false]) three_sources
    = OK s1
    /\ navigator s1 = navigator three_sources.
Proof.
  assert (D : exists s1, drain_events [SDL_QUIT] three_sources = OK s1
                         /\ quit s1 = true
                         /\ navigator s1 = navigator three_sources).
  { eexists. split; [reflexivity |]. split; reflexivity. }
  destruct D as (s1 & D & Q & N). exists s1. split; [| exact N].
  exact (proj1 (X4_events_behind_a_quit_are_not_handled
                  [SDL_QUIT] [SDL_KEYDOWN SDLK_RIGHT 0 false]
                  three_sources s1 D Q)).
Defined.

(** ** Events that cannot fault *)

Lemma append_length (a b : string) :
  String.length (a ++ b) = (String.length a + String.length b)%nat.
Proof.
  induction a as [| c a IH]; [reflexivity |].
  cbn. rewrite IH. reflexivity.
Qed.

Lemma take_length (n : nat) (s : string) :
  (String.length (C.take n s) <= String.length s)%nat.
Proof.
  revert s. induction n as [| n IH]; intros s; [apply Nat.le_0_l |].
  destruct s as [| c s]; [apply le_n |].
  cbn. apply le_n_S. apply IH.
Qed.

Lemma take_all (n : nat) (s : string) :
  (String.length s <= n)%nat -> C.take n s = s.
Proof.
  revert s. induction n as [| n IH]; intros s L.
  - destruct s; [reflexivity | cbn in L; lia].
  - destruct s as [| c s]; [reflexivity |].
    cbn in *. rewrite IH; [reflexivity | lia].
Qed.

Lemma call_handler_returns (h : handler) (args : list string) (s : imv) :
  imv_navigator_selection (navigator s) <> None ->
  exists s', call_handler h args s = OK s'.
Proof.
  intros Sel.
  destruct h; cbn [call_handler];
    unfold command_quit, command_pan, command_select_rel, command_select_abs,
      command_zoom, command_remove, command_fullscreen, command_overlay;
    repeat match goal with
      | |- exists _, (if ?c then _ else _) = _ => destruct c
      end;
    try (eexists; reflexivity).
  destruct (imv_navigator_selection (navigator s));
    [eexists; reflexivity | contradiction Sel; reflexivity].
Qed.

Lemma imv_command_exec_returns (cmds : imv_commands) (line : string)
  (s : imv) :
  imv_navigator_selection (navigator s) <> None ->
  exists s', imv_command_exec cmds line s = OK s'.
Proof.
  intros Sel. unfold imv_command_exec, dispatch.
  destruct (tokenize line) as [| name rest]; [eexists; reflexivity |].
  destruct (lookup name (aliases cmds)) as [expansion |].
  - destruct (tokenize expansion ++ rest)%list as [| n r];
      [eexists; reflexivity |].
    destruct (lookup n (handlers cmds));
      [apply call_handler_returns; exact Sel | eexists; reflexivity].
  - destruct (lookup name (handlers cmds));
      [apply call_handler_returns; exact Sel | eexists; reflexivity].
Qed.

(** X5: with a source selected, handling an event returns a session for
    every event but a text event that arrives outside command mode or
    that does not fit: a text event is handled when a command line exists
    and its length plus the length of the text is below 1024; every other
    event is handled whatever the session. *)
Theorem X5_events_are_handled_without_fault :
  forall (s : imv) (e : SDL_Event),
    imv_navigator_selection (navigator s) <> None ->
    (forall text, e = SDL_TEXTINPUT text ->
       exists buf, input_buffer s = Some buf
                   /\ Z.of_nat (String.length buf)
                      + Z.of_nat (String.length text) < command_buffer_len) ->
    exists s', handle_event s e = OK s'.
Proof.
  intros s e Sel Htext. unfold handle_event.
  destruct e as [| text | sym m rep | y | st x y | |];
    try (eexists; reflexivity).
  - apply imv_command_exec_returns. exact Sel.
  - destruct (Htext text eq_refl) as (buf & E & L). rewrite E.
    unfold strncat.
    destruct (Z.ltb_spec
                (Z.of_nat (String.length
                   (buf ++ C.take (Z.to_nat (command_buffer_len - 1)) text)))
                command_buffer_len) as [_ | G].
    + cbn [bind]. eexists. reflexivity.
    + rewrite append_length in G.
      pose proof (take_length (Z.to_nat (command_buffer_len - 1)) text). lia.
  - destruct (input_buffer s) as [buf |].
    + unfold text_entry_key.
      destruct sym; try (eexists; reflexivity).
      * destruct (imv_command_exec_returns
                    (commands (log (SDL_ShowCursor false) s)) buf
                    (log (SDL_ShowCursor false) s) Sel) as [s1 X].
        rewrite X. cbn [bind]. eexists. reflexivity.
      * destruct (_ <? _); eexists; reflexivity.
    + unfold normal_key, request_rescale, toggle_playing.
      destruct sym, rep; cbv beta iota zeta delta [negb];
        repeat match goal with
          | |- exists _, (if ?c then _ else _) = _ => destruct c
          end;
        try (eexists; reflexivity);
        try (apply imv_command_exec_returns; exact Sel).
      change (imv_navigator_selection
                (navigator (log (SDL_ShowCursor false) s)))
        with (imv_navigator_selection (navigator s)).
      destruct (imv_navigator_selection (navigator s));
        [eexists; reflexivity | contradiction Sel; reflexivity].
Qed.

Lemma X5_events_are_handled_without_fault_witness :
  exists s', handle_event three_sources (SDL_KEYDOWN SDLK_x 0 false) = OK s'.
Proof.
  apply (X5_events_are_handled_without_fault three_sources
           (SDL_KEYDOWN SDLK_x 0 false)).
  - vm_compute. discriminate.
  - intros text H. discriminate H.
Defined.

(** X6: on a cursor without a selection (the state in which the session
    waits for paths from the standard input), the keys that pass the
    selection to libc fault under the default registry: [x] hands the
    [NULL] selection to [strdup] and [p] hands it to [puts], and so does
    the command [remove] typed on the command line. *)
Theorem X6_remove_and_print_fault_on_an_empty_cursor :
  forall (s : imv) (m : Z),
    commands s = default_commands ->
    imv_navigator_selection (navigator s) = None ->
    (input_buffer s = None ->
       handle_event s (SDL_KEYDOWN SDLK_x m false)
       = Fault (NullPointer "strdup")
       /\ handle_event s (SDL_KEYDOWN SDLK_p m false)
          = Fault (NullPointer "puts"))
    /\ (input_buffer s = Some "remove" ->
          handle_event s (SDL_KEYDOWN SDLK_RETURN m false)
          = Fault (NullPointer "strdup")).
Proof.
  intros s m C Sel. split.
  - intros E. unfold handle_event. rewrite E. unfold normal_key.
    cbv beta iota zeta delta [negb].
    change (commands (log (SDL_ShowCursor false) s)) with (commands s).
    change (imv_navigator_selection
              (navigator (log (SDL_ShowCursor false) s)))
      with (imv_navigator_selection (navigator s)).
    rewrite C, Sel. split; [| reflexivity].
    change (imv_command_exec default_commands "remove"
              (log (SDL_ShowCursor false) s))
      with (command_remove ["remove"] (log (SDL_ShowCursor false) s)).
    unfold command_remove.
    change (imv_navigator_selection
              (navigator (log (SDL_ShowCursor false) s)))
      with (imv_navigator_selection (navigator s)).
    rewrite Sel. reflexivity.
  - intros E. unfold handle_event. rewrite E. unfold text_entry_key.
    change (commands (log (SDL_ShowCursor false) s)) with (commands s).
    rewrite C.
    change (imv_command_exec default_commands "remove"
              (log (SDL_ShowCursor false) s))
      with (command_remove ["remove"] (log (SDL_ShowCursor false) s)).
    unfold command_remove.
    change (imv_navigator_selection
              (navigator (log (SDL_ShowCursor false) s)))
      with (imv_navigator_selection (navigator s)).
    rewrite Sel. reflexivity.
Qed.

Lemma X6_remove_and_print_fault_on_an_empty_cursor_witness :
  handle_event (set_paths_from_stdin true (imv_create BACKGROUND_SOLID true))
    (SDL_KEYDOWN SDLK_x 0 false)
  = Fault (NullPointer "strdup").
Proof.
  exact (proj1 (proj1 (X6_remove_and_print_fault_on_an_empty_cursor
                         (set_paths_from_stdin true
                            (imv_create BACKGROUND_SOLID true))
                         0 eq_refl eq_refl) eq_refl)).
Defined.

(** ** Typing and erasing *)

Lemma removelast_string_snoc (s : string) (c : ascii) :
  C.removelast_string (s ++ String c "") = s.
Proof.
  induction s as [| d s IH]; [reflexivity |].
  cbn [append C.removelast_string]. rewrite IH.
  destruct s; reflexivity.
Qed.

(** X7: a text event that fits is appended to the command line as it is,
    and a backspace after a text event of one character gives the line
    back: typing a character and erasing it is a round trip. *)
Theorem X7_typed_text_is_appended_and_backspace_undoes_it :
  forall (s : imv) (buf text : string),
    input_buffer s = Some buf ->
    Z.of_nat (String.length buf) + Z.of_nat (String.length text)
    < command_buffer_len ->
    handle_event s (SDL_TEXTINPUT text)
    = OK (set_need_redraw true (set_input_buffer (Some (buf ++ text)) s))
    /\ forall (c : ascii) (m : Z) (rep : bool),
         text = String c "" ->
         exists s1 s2,
           handle_event s (SDL_TEXTINPUT text) = OK s1
           /\ handle_event s1 (SDL_KEYDOWN SDLK_BACKSPACE m rep) = OK s2
           /\ input_buffer s2 = Some buf.
Proof.
  intros s buf text E L.
  assert (T : handle_event s (SDL_TEXTINPUT text)
              = OK (set_need_redraw true
                      (set_input_buffer (Some (buf ++ text)) s))).
  { unfold handle_event. rewrite E. unfold strncat.
    rewrite take_all
      by (unfold command_buffer_len in *; lia).
    destruct (Z.ltb_spec (Z.of_nat (String.length (buf ++ text)))
                command_buffer_len) as [_ | G].
    - reflexivity.
    - rewrite append_length in G. lia. }
  split; [exact T |].
  intros c m rep ->. eexists. eexists. split; [exact T |].
  unfold handle_event. cbn [input_buffer set_need_redraw set_input_buffer].
  unfold text_entry_key. rewrite append_length. cbn [String.length].
  destruct (Z.ltb_spec 0 (Z.of_nat (String.length buf + 1))) as [_ | G];
    [| lia].
  split; [reflexivity |]. cbn [input_buffer set_need_redraw set_input_buffer].
  rewrite removelast_string_snoc. reflexivity.
Qed.

Lemma X7_typed_text_is_appended_and_backspace_undoes_it_witness :
  exists s1 s2,
    handle_event (typing "ab") (SDL_TEXTINPUT "c") = OK s1
    /\ handle_event s1 (SDL_KEYDOWN SDLK_BACKSPACE 0 false) = OK s2
    /\ input_buffer s2 = Some "ab".
Proof.
  apply (proj2 (X7_typed_text_is_appended_and_backspace_undoes_it
                  (typing "ab") "ab" "c" eq_refl eq_refl) "c"%char 0 false
           eq_refl).
Defined.

(** ** Keys of normal mode *)

(** X8: in normal mode a repeated key-down (a key held down) of one of the
    toggles s, r, a, c, x, f, space, p and d does nothing but hide the
    mouse cursor, whatever the registry and the cursor: auto-repeat never
    removes a second source, toggles twice or prints twice. *)
Theorem X8_key_repeat_is_ignored_by_the_toggles :
  forall (s : imv) (sym : SDL_Keycode) (m : Z),
    input_buffer s = None ->
    In sym [SDLK_s; SDLK_r; SDLK_a; SDLK_c; SDLK_x; SDLK_f; SDLK_SPACE;
            SDLK_p; SDLK_d] ->
    handle_event s (SDL_KEYDOWN sym m true)
    = OK (log (SDL_ShowCursor false) s).
Proof.
  intros s sym m E H. unfold handle_event. rewrite E.
  cbn [In] in H.
  repeat (destruct H as [<- | H]; [reflexivity |]).
  destruct H.
Qed.

Lemma X8_key_repeat_is_ignored_by_the_toggles_witness :
  handle_event three_sources (SDL_KEYDOWN SDLK_x 0 true)
  = OK (log (SDL_ShowCursor false) three_sources).
Proof.
  apply (X8_key_repeat_is_ignored_by_the_toggles three_sources SDLK_x 0
           eq_refl).
  cbn. auto 10.
Defined.

Lemma scaling_key_press (s : imv) (m : Z) :
  input_buffer s = None ->
  handle_event s (SDL_KEYDOWN SDLK_s m false)
  = OK (set_need_redraw true
          (set_need_rescale true
             (set_scaling_mode (next_scaling_mode (scaling_mode s))
                (log (SDL_ShowCursor false) s)))).
Proof. intros E. unfold handle_event. rewrite E. reflexivity. Qed.

(** X9: in normal mode three presses of s bring the scaling mode back to
    where it was, passing through the two other modes, and each press
    asks for a rescale and a redraw. *)
Theorem X9_scaling_key_cycles_through_the_three_modes :
  forall (s : imv) (m1 m2 m3 : Z),
    input_buffer s = None ->
    exists s1 s2 s3,
      handle_event s (SDL_KEYDOWN SDLK_s m1 false) = OK s1
      /\ handle_event s1 (SDL_KEYDOWN SDLK_s m2 false) = OK s2
      /\ handle_event s2 (SDL_KEYDOWN SDLK_s m3 false) = OK s3
      /\ scaling_mode s3 = scaling_mode s
      /\ scaling_mode s1 <> scaling_mode s
      /\ scaling_mode s2 <> scaling_mode s
      /\ scaling_mode s2 <> scaling_mode s1
      /\ need_rescale s1 = true /\ need_redraw s1 = true
      /\ need_rescale s3 = true /\ need_redraw s3 = true.
Proof.
  intros s m1 m2 m3 E.
  eexists. eexists. eexists.
  split; [apply scaling_key_press; exact E |].
  split; [apply scaling_key_press; exact E |].
  split; [apply scaling_key_press; exact E |].
  cbn. destruct (scaling_mode s); cbn; repeat split; discriminate.
Qed.

Lemma X9_scaling_key_cycles_through_the_three_modes_witness :
  exists s1 s2 s3,
    handle_event three_sources (SDL_KEYDOWN SDLK_s 0 false) = OK s1
    /\ handle_event s1 (SDL_KEYDOWN SDLK_s 0 false) = OK s2
    /\ handle_event s2 (SDL_KEYDOWN SDLK_s 0 false) = OK s3
    /\ scaling_mode s3 = SCALING_FULL.
Proof.
  destruct (X9_scaling_key_cycles_through_the_three_modes three_sources
              0 0 0 eq_refl)
    as (s1 & s2 & s3 & H1 & H2 & H3 & M & _).
  exists s1, s2, s3. repeat split; assumption.
Defined.

(** ** The slideshow interval and its keys *)

Lemma interval_key_press (s : imv) (m : Z) :
  input_buffer s = None ->
  handle_event s (SDL_KEYDOWN SDLK_t m false)
  = OK (set_need_redraw true
          (set_slideshow_image_duration
             (if negb (Z.land m (Z.lor KMOD_SHIFT KMOD_CAPS) =? 0)
              then (if 1000 <=? slideshow_image_duration s
                    then slideshow_image_duration s - 1000
                    else slideshow_image_duration s)
              else C.ulong (slideshow_image_duration s + 1000))
             (log (SDL_ShowCursor false) s))).
Proof. intros E. unfold handle_event. rewrite E. reflexivity. Qed.

(** X10: the key t adds a second to the slideshow interval and shift-t
    takes one off, so that t followed by shift-t gives the interval back
    whenever the sum fits an [unsigned long]; shift-t leaves an interval
    below one second as it is, and t on an interval within a second of
    [ULONG_MAX] wraps around to a value below one second. *)
Theorem X10_interval_keys_add_and_remove_a_second :
  forall (s : imv) (plain shifted : Z),
    input_buffer s = None ->
    Z.land plain (Z.lor KMOD_SHIFT KMOD_CAPS) = 0 ->
    Z.land shifted (Z.lor KMOD_SHIFT KMOD_CAPS) <> 0 ->
    0 <= slideshow_image_duration s <= C.ULONG_MAX ->
    exists s1 s2 s3,
      handle_event s (SDL_KEYDOWN SDLK_t plain false) = OK s1
      /\ handle_event s1 (SDL_KEYDOWN SDLK_t shifted false) = OK s2
      /\ handle_event s (SDL_KEYDOWN SDLK_t shifted false) = OK s3
      /\ (slideshow_image_duration s + 1000 <= C.ULONG_MAX ->
            slideshow_image_duration s1 = slideshow_image_duration s + 1000
            /\ slideshow_image_duration s2 = slideshow_image_duration s)
      /\ (C.ULONG_MAX < slideshow_image_duration s + 1000 ->
            slideshow_image_duration s1
            = slideshow_image_duration s + 1000 - 2 ^ 64
            /\ slideshow_image_duration s1 < 1000)
      /\ (slideshow_image_duration s < 1000 ->
            slideshow_image_duration s3 = slideshow_image_duration s)
      /\ (1000 <= slideshow_image_duration s ->
            slideshow_image_duration s3 = slideshow_image_duration s - 1000).
Proof.
  intros s plain shifted E P S R.
  apply Z.eqb_eq in P. apply Z.eqb_neq in S.
  eexists. eexists. eexists.
  split; [apply interval_key_press; exact E |].
  split; [apply interval_key_press; exact E |].
  split; [apply interval_key_press; exact E |].
  cbn [slideshow_image_duration set_slideshow_image_duration set_need_redraw
         log set_trace].
  rewrite P, S. cbn [negb]. unfold C.ulong, C.ULONG_MAX in *.
  change (2 ^ 64) with 18446744073709551616 in *.
  repeat split.
  - rewrite Z.mod_small by lia. reflexivity.
  - rewrite Z.mod_small by lia.
    destruct (Z.leb_spec 1000 (slideshow_image_duration s + 1000)); lia.
  - rewrite <- (Z_mod_plus_full _ (-1)). rewrite Z.mod_small by lia. lia.
  - rewrite <- (Z_mod_plus_full _ (-1)). rewrite Z.mod_small by lia. lia.
  - intros L. destruct (Z.leb_spec 1000 (slideshow_image_duration s)); lia.
  - intros L. destruct (Z.leb_spec 1000 (slideshow_image_duration s)); lia.
Qed.

Lemma X10_interval_keys_add_and_remove_a_second_witness :
  exists s1 s2,
    handle_event slideshow_session (SDL_KEYDOWN SDLK_t 0 false) = OK s1
    /\ handle_event s1 (SDL_KEYDOWN SDLK_t 1 false) = OK s2
    /\ slideshow_image_duration s1 = 3000
    /\ slideshow_image_duration s2 = 2000.
Proof.
  destruct (X10_interval_keys_add_and_remove_a_second slideshow_session 0 1
              eq_refl eq_refl)
    as (s1 & s2 & s3 & H1 & H2 & _ & A & _).
  - vm_compute. discriminate.
  - vm_compute. split; discriminate.
  - exists s1, s2. split; [exact H1 |]. split; [exact H2 |].
    apply A. vm_compute. discriminate.
Defined.

(** ** The slideshow accumulator through a turn *)

Lemma ulong_range (z : Z) : 0 <= C.ulong z <= C.ULONG_MAX.
Proof.
  unfold C.ulong, C.ULONG_MAX.
  pose proof (Z.mod_pos_bound z (2 ^ 64) eq_refl). lia.
Qed.

(** The accumulator after the phases of the body that do not touch it. *)
Lemma elapsed_head (err : option string) (s : imv) :
  slideshow_time_elapsed
    (snd (start_loading (snd (check_wrapped (handle_load_error err s)))))
  = slideshow_time_elapsed s.
Proof.
  unfold start_loading, check_wrapped, handle_load_error.
  destruct err as [path |];
    [destruct (strncmp_eq path "-" 2);
     [cbn [stdin_image_data set_navigator]; destruct (stdin_image_data s) |] |];
    cbn [cycle_input set_navigator log set_trace set_stdin_image_data
           set_stdin_image_data_len];
    destruct (negb (cycle_input s));
    cbn [imv_navigator_wrapped imv_navigator_poll_changed snd fst navigator
           set_navigator log set_trace changed set_stdin_image_data
           set_stdin_image_data_len];
    match goal with
    | |- context [if ?c then _ else _] => destruct c
    end;
    try reflexivity;
    match goal with
    | |- context [match ?c with Some _ => _ | None => _ end] => destruct c
    end;
    try reflexivity;
    match goal with
    | |- context [if ?c then _ else _] => destruct c
    end;
    reflexivity.
Qed.

Lemma elapsed_tail_before (inp : tick_input) (loc : locals) (s : imv) :
  let taken := take_image (loader_image inp) loc s in
  slideshow_time_elapsed
    (animate (ticks inp) (fst taken)
       (rescale (window_size inp) (fst taken) (snd taken)))
  = slideshow_time_elapsed s.
Proof.
  cbv zeta.
  pose proof (animate_view (ticks inp)
                (fst (take_image (loader_image inp) loc s))
                (rescale (window_size inp)
                   (fst (take_image (loader_image inp) loc s))
                   (snd (take_image (loader_image inp) loc s)))) as A.
  rewrite rescale_view, take_image_view in A.
  unfold slideshow_view in A. injection A as _ _ A _ _ _. exact A.
Qed.

Lemma elapsed_tail_after (inp : tick_input) (s s' : imv) :
  idle inp (redraw (viewport_needs_redraw inp) s) = OK s' ->
  slideshow_time_elapsed s' = slideshow_time_elapsed s.
Proof.
  pose proof (redraw_view (viewport_needs_redraw inp) s) as R.
  unfold slideshow_view in R. injection R as _ _ R _ _ _. rewrite <- R.
  unfold idle, check_stdin_for_paths, imv_add_path.
  destruct (paths_from_stdin _);
    [destruct (stdin_poll inp) as [| | | | buf];
     try destruct (path_of_line buf) as [[path |] |] |];
    cbn [bind]; intros H; try discriminate H; injection H as <-;
    reflexivity.
Qed.

Lemma slideshow_elapsed_cases (t : Z) (loc : locals) (s : imv) :
  slideshow_time_elapsed (slideshow t loc s) = slideshow_time_elapsed s
  \/ slideshow_time_elapsed (slideshow t loc s) = 0
  \/ slideshow_time_elapsed (slideshow t loc s)
     = C.ulong (slideshow_time_elapsed s + delta_time t loc).
Proof.
  unfold slideshow. destruct (negb _); [| left; reflexivity].
  cbn [slideshow_image_duration slideshow_time_elapsed
         set_slideshow_time_elapsed set_need_redraw].
  destruct (_ <=? _); [right; left | right; right]; reflexivity.
Qed.

Lemma present_elapsed (inp : tick_input) (loc loc' : locals) (s s' : imv) :
  present inp loc s = OK (loc', s') ->
  slideshow_time_elapsed s'
  = slideshow_time_elapsed
      (slideshow (ticks inp) loc
         (animate (ticks inp) (fst (take_image (loader_image inp) loc s))
            (rescale (window_size inp)
               (fst (take_image (loader_image inp) loc s))
               (snd (take_image (loader_image inp) loc s))))).
Proof.
  intros H. apply present_unfold in H. cbv zeta in H. destruct H as [_ H].
  apply elapsed_tail_after in H. rewrite H.
  unfold slideshow, delta_time. rewrite take_image_last_time. reflexivity.
Qed.


Lemma rescale_clears (window : Z * Z) (loc : locals) (s : imv) :
  need_rescale (rescale window loc s) = false.
Proof.
  unfold rescale. destruct (need_rescale s) eqn:E; [| exact E].
  destruct window as [ww wh]. cbn [scaling_mode set_need_rescale].
  destruct (scaling_mode s); [| destruct (_ && _) |]; reflexivity.
Qed.

Lemma redraw_clears (dirty : bool) (s : imv) :
  need_redraw (redraw dirty s) = false.
Proof.
  unfold redraw, render_window.
  destruct dirty; cbn [need_redraw set_need_redraw];
    [reflexivity | destruct (need_redraw s) eqn:E; [reflexivity | exact E]].
Qed.

Lemma paths_from_stdin_before_idle (inp : tick_input) (loc : locals)
  (s : imv) :
  let taken := take_image (loader_image inp) loc s in
  paths_from_stdin
    (redraw (viewport_needs_redraw inp)
       (slideshow (ticks inp) (fst taken)
          (animate (ticks inp) (fst taken)
             (rescale (window_size inp) (fst taken) (snd taken)))))
  = paths_from_stdin s.
Proof.
  cbv zeta.
  set (taken := take_image (loader_image inp) loc s).
  set (x := animate (ticks inp) (fst taken)
              (rescale (window_size inp) (fst taken) (snd taken))).
  assert (V : slideshow_view x = slideshow_view s).
  { unfold x. rewrite animate_view, rescale_view. apply take_image_view. }
  assert (P : paths_from_stdin (slideshow (ticks inp) (fst taken) x)
              = paths_from_stdin x).
  { unfold slideshow. destruct (negb _); [| reflexivity].
    cbn [slideshow_image_duration slideshow_time_elapsed
           set_slideshow_time_elapsed set_need_redraw].
    destruct (_ <=? _); reflexivity. }
  pose proof (redraw_view (viewport_needs_redraw inp)
                (slideshow (ticks inp) (fst taken) x)) as R.
  unfold slideshow_view in R, V.
  injection R as _ _ _ _ _ R. injection V as _ _ _ _ _ V.
  rewrite R, P. exact V.
Qed.

Lemma chomp_cstr (buf : string) : chomp (C.cstr buf) <> "" -> chomp buf <> "".
Proof.
  destruct buf as [| c rest]; [intros H; exact H |].
  cbn [C.cstr]. destruct (Ascii.eqb c "000") eqn:Z0;
    [intros H; contradiction H; reflexivity |].
  destruct rest as [| d rest]; [intros H; exact H |].
  intros _. cbn [chomp]. discriminate.
Qed.

(** X12: every turn that runs to the end of the body leaves no rescale
    owed and has taken the time of the turn as the new reference; it
    leaves a redraw owed only when paths are read from the standard input
    and a line that is not blank arrived in this turn. *)
Theorem X12_completed_turn_settles_the_dirty_flags :
  forall (inp : tick_input) (loc loc' : locals) (s s' : imv),
    present inp loc s = OK (loc', s') ->
    need_rescale s' = false
    /\ last_time loc' = ticks inp
    /\ (need_redraw s' = true ->
          paths_from_stdin s = true
          /\ exists buf, stdin_poll inp = fgets_line buf /\ chomp buf <> ""
                         /\ chomp (C.cstr buf) <> "").
Proof.
  intros inp loc loc' s s' H. apply present_unfold in H. cbv zeta in H.
  destruct H as [-> H].
  set (taken := take_image (loader_image inp) loc s) in *.
  set (s2 := rescale (window_size inp) (fst taken) (snd taken)) in *.
  set (s3 := animate (ticks inp) (fst taken) s2) in *.
  set (s4 := slideshow (ticks inp) (fst taken) s3) in *.
  set (s5 := redraw (viewport_needs_redraw inp) s4) in *.
  split; [| split; [reflexivity |]].
  - destruct (@idle_stable inp s5 s' H) as (_ & R5 & _).
    destruct (redraw_stable s4 (viewport_needs_redraw inp)) as (_ & R4 & _).
    destruct (slideshow_stable (fst taken) s3 (ticks inp)) as (_ & R3 & _).
    destruct (animate_stable (fst taken) s2 (ticks inp)) as (_ & R2 & _).
    cbv zeta in *. fold s3 s4 s5 in R5, R4, R3, R2.
    rewrite R5, R4, R3, R2. apply rescale_clears.
  - pose proof (paths_from_stdin_before_idle inp loc s) as P.
    cbv zeta in P. fold taken s2 s3 s4 s5 in P.
    pose proof (redraw_clears (viewport_needs_redraw inp) s4) as C.
    fold s5 in C. unfold idle, check_stdin_for_paths in H. rewrite P in H.
    destruct (paths_from_stdin s).
    + destruct (stdin_poll inp) as [| | | | buf];
        try (injection H as <-;
             cbn [need_redraw set_quit set_paths_from_stdin log set_trace];
             rewrite C; discriminate).
      unfold path_of_line in H.
      destruct (C.cstr buf) as [| c0 str] eqn:CS; [discriminate H |].
      destruct (Z.ltb_spec 0 (Z.of_nat (String.length (chomp (String c0 str)))))
        as [L | L]; cbn [bind] in H; injection H as <-.
      * intros _. split; [reflexivity |]. exists buf.
        split; [reflexivity |].
        assert (N : chomp (C.cstr buf) <> "").
        { rewrite CS. intros E. rewrite E in L. cbn in L. lia. }
        split; [apply chomp_cstr; exact N | exact N].
      * rewrite C. discriminate.
    + injection H as <-. cbn [need_redraw log set_trace]. rewrite C.
      discriminate.
Qed.

Lemma X12_completed_turn_settles_the_dirty_flags_witness :
  exists (loc' : locals) (s' : imv),
    present (quiet 16) start_locals three_sources = OK (loc', s')
    /\ need_rescale s' = false
    /\ last_time loc' = 16.
Proof.
  assert (H : exists loc' s',
             present (quiet 16) start_locals three_sources = OK (loc', s')).
  { eexists. eexists. vm_compute. reflexivity. }
  destruct H as (loc' & s' & H). exists loc', s'.
  destruct (X12_completed_turn_settles_the_dirty_flags _ _ _ _ _ H)
    as (A & B & _).
  split; [exact H |]. split; [exact A | exact B].
Defined.

Lemma after_events_next (inp : tick_input) (loc loc' : locals) (s s' : imv) :
  after_events inp loc s = OK (Next, loc', s') ->
  exists s3,
    present inp loc s3 = OK (loc', s')
    /\ slideshow_image_duration s3 = slideshow_image_duration s.
Proof.
  intros H. apply after_events_cases in H.
  destruct H as (w & s2 & W & H).
  pose proof (check_wrapped_settings
                (handle_load_error (loader_error inp) s)) as WS.
  rewrite handle_load_error_settings, W in WS. cbn [snd] in WS.
  destruct H as [(_ & E & _) | (_ & s3 & [(L & _ & P) | (_ & E & _)])];
    try discriminate E.
  pose proof (start_loading_settings s2) as LS.
  rewrite L in LS. cbn [snd] in LS.
  exists s3. split; [exact P |].
  rewrite WS in LS. unfold settings in LS.
  injection LS as _ _ _ L4 _ _ _ _ _ _ _ _ _ _. exact L4.
Qed.

(** X13: after every turn that runs to the end of the body with the
    slideshow on (a positive interval), the accumulator is at least 0 and
    strictly below the interval, and the interval is the one the events of
    the turn left. *)
Theorem X13_accumulator_stays_below_the_interval :
  forall (inp : tick_input) (loc loc' : locals) (s s1 s' : imv),
    drain_events (events inp) s = OK s1 ->
    tick inp loc s = OK (Next, loc', s') ->
    0 < slideshow_image_duration s1 ->
    slideshow_image_duration s' = slideshow_image_duration s1
    /\ 0 <= slideshow_time_elapsed s' < slideshow_image_duration s'.
Proof.
  intros inp loc loc' s s1 s' D T Pos. unfold tick in T. rewrite D in T.
  cbn [bind] in T. destruct (quit s1); [discriminate |].
  destruct (after_events_next _ _ _ _ _ T) as (s3 & P & D3).
  pose proof (@present_settings inp loc loc' s3 s' P) as S.
  pose proof (present_elapsed inp loc loc' s3 s' P) as E.
  unfold settings in S.
  injection S as _ _ _ S4 _ _ _ _ _ _ _ _ _ _.
  rewrite S4, D3. split; [reflexivity |]. rewrite E.
  set (x := animate (ticks inp) (fst (take_image (loader_image inp) loc s3))
              (rescale (window_size inp)
                 (fst (take_image (loader_image inp) loc s3))
                 (snd (take_image (loader_image inp) loc s3)))).
  assert (Dx : slideshow_image_duration x = slideshow_image_duration s1).
  { unfold x.
    pose proof (animate_settings (ticks inp)
                  (fst (take_image (loader_image inp) loc s3))
                  (rescale (window_size inp)
                     (fst (take_image (loader_image inp) loc s3))
                     (snd (take_image (loader_image inp) loc s3)))) as A.
    rewrite rescale_settings, take_image_settings in A. unfold settings in A.
    injection A as _ _ _ A4 _ _ _ _ _ _ _ _ _ _. rewrite A4. exact D3. }
  unfold slideshow.
  destruct (Z.eqb_spec (slideshow_image_duration x) 0) as [Z0 | _];
    [rewrite Dx in Z0; lia |].
  cbn [negb slideshow_image_duration slideshow_time_elapsed
         set_slideshow_time_elapsed set_need_redraw set_navigator].
  rewrite Dx.
  destruct (Z.leb_spec (slideshow_image_duration s1)
              (C.ulong (slideshow_time_elapsed x
                        + delta_time (ticks inp) loc))) as [L | L];
    cbn [slideshow_time_elapsed set_slideshow_time_elapsed set_need_redraw
           set_navigator].
  - lia.
  - pose proof (ulong_range (slideshow_time_elapsed x
                             + delta_time (ticks inp) loc)). lia.
Qed.

Lemma X13_accumulator_stays_below_the_interval_witness :
  exists (loc' : locals) (s' : imv),
    tick (quiet 2100) start_locals slideshow_session = OK (Next, loc', s')
    /\ 0 <= slideshow_time_elapsed s' < slideshow_image_duration s'.
Proof.
  assert (H : exists loc' s',
             tick (quiet 2100) start_locals slideshow_session
             = OK (Next, loc', s')).
  { eexists. eexists. vm_compute. reflexivity. }
  destruct H as (loc' & s' & H). exists loc', s'. split; [exact H |].
  apply (X13_accumulator_stays_below_the_interval (quiet 2100) start_locals
           loc' slideshow_session slideshow_session s' eq_refl H).
  reflexivity.
Defined.

(** ** Load requests *)

Lemma present_loads (inp : tick_input) (loc loc' : locals) (s s' : imv) :
  present inp loc s = OK (loc', s') ->
  loads (trace s') = loads (trace s)
  /\ view_playing s' = view_playing s.
Proof.
  intros H. apply present_unfold in H. cbv zeta in H. destruct H as [_ H].
  set (taken := take_image (loader_image inp) loc s) in *.
  set (s2 := rescale (window_size inp) (fst taken) (snd taken)) in *.
  set (s3 := animate (ticks inp) (fst taken) s2) in *.
  set (s4 := slideshow (ticks inp) (fst taken) s3) in *.
  set (s5 := redraw (viewport_needs_redraw inp) s4) in *.
  destruct (@idle_stable inp s5 s' H) as (P5 & _ & _ & _ & L5).
  destruct (redraw_stable s4 (viewport_needs_redraw inp))
    as (P4 & _ & _ & _ & L4).
  destruct (slideshow_stable (fst taken) s3 (ticks inp)) as (P3 & _ & T3).
  destruct (animate_stable (fst taken) s2 (ticks inp)) as (P2 & _ & _ & L2).
  destruct (rescale_stable (fst taken) (snd taken) (window_size inp))
    as (P1 & _ & L1).
  destruct (take_image_stable inp loc s) as (P0 & _ & _ & L0).
  cbv zeta in *. fold taken s2 s3 s4 s5 in P5, L5, P4, L4, P3, T3, P2, L2,
    P1, L1, P0, L0.
  split; [rewrite L5, L4, T3, L2, L1; exact L0
         | rewrite P5, P4, P3, P2, P1; exact P0].
Qed.

(** The loads of a turn, from the session the events left. *)
Lemma after_events_loads (inp : tick_input) (loc loc' : locals) (s s' : imv)
  (c : control) :
  after_events inp loc s = OK (c, loc', s') ->
  loads (trace s')
  = (loads (trace s)
     ++ match c, changed (navigator (handle_load_error (loader_error inp) s)),
              imv_navigator_selection
                (navigator (handle_load_error (loader_error inp) s)) with
        | Next, true, Some p =>
            [imv_loader_load p
               (stdin_image_data (handle_load_error (loader_error inp) s))
               (stdin_image_data_len
                  (handle_load_error (loader_error inp) s))]
        | _, _, _ => []
        end)%list
  /\ (c = Next ->
      changed (navigator (handle_load_error (loader_error inp) s)) = true ->
      view_playing s' = true)
  /\ (c = Continue ->
      changed (navigator (handle_load_error (loader_error inp) s)) = true
      /\ imv_navigator_selection
           (navigator (handle_load_error (loader_error inp) s)) = None)
  /\ (c = Break <->
      cycle_input s = false
      /\ wrapped (navigator (handle_load_error (loader_error inp) s)) = true).
Proof.
  intros H. apply after_events_cases in H.
  destruct H as (w & s2 & W & H).
  destruct (handle_load_error_stable (loader_error inp) s)
    as (_ & Cy & _ & _ & _ & L1).
  cbv zeta in L1, Cy. set (s1 := handle_load_error (loader_error inp) s) in *.
  assert (D : stdin_image_data s2 = stdin_image_data s1
              /\ stdin_image_data_len s2 = stdin_image_data_len s1
              /\ (w = true <->
                  cycle_input s = false /\ wrapped (navigator s1) = true)).
  { unfold check_wrapped in W. rewrite Cy in W.
    destruct (cycle_input s); cbn in W; injection W as <- <-.
    - split; [reflexivity |]. split; [reflexivity |].
      split; [discriminate | intros [E _]; discriminate E].
    - split; [reflexivity |]. split; [reflexivity |].
      split; [intros E; split; [reflexivity | exact E] | intros [_ E]; exact E]. }
  destruct D as (D1 & D2 & D3).
  apply check_wrapped_stable in W.
  destruct W as (T2 & _ & _ & _ & P2 & C2 & G2).
  assert (Sel : imv_navigator_selection (navigator s2)
                = imv_navigator_selection (navigator s1)).
  { unfold imv_navigator_selection. rewrite P2, C2. reflexivity. }
  destruct H as [(Ew & -> & _ & ->) | (Ew & s3 & [(L & -> & P) | (L & -> & _ & ->)])].
  - rewrite T2, L1, app_nil_r.
    split; [reflexivity |]. split; [discriminate |]. split; [discriminate |].
    split; [intros _; apply D3; exact Ew | reflexivity].
  - assert (NB : Next = Break <->
                 cycle_input s = false /\ wrapped (navigator s1) = true).
    { split; [discriminate |]. intros K. apply D3 in K. congruence. }
    apply present_loads in P. destruct P as [PL PP].
    unfold start_loading in L. cbn [imv_navigator_poll_changed] in L.
    rewrite G2 in L.
    destruct (changed (navigator s1)).
    + change (imv_navigator_selection
                (navigator
                   (set_navigator
                      {| paths := paths (navigator s2);
                         cur_path := cur_path (navigator s2);
                         changed := false;
                         wrapped := wrapped (navigator s2) |} s2)))
        with (imv_navigator_selection (navigator s2)) in L.
      rewrite Sel in L.
      destruct (imv_navigator_selection (navigator s1)) as [p |].
      * injection L as <-. rewrite PL, PP.
        cbn [trace log set_trace set_view_playing set_navigator view_playing
               stdin_image_data stdin_image_data_len].
        rewrite !loads_app. cbn [loads filter is_load app].
        rewrite app_nil_r, T2, L1, D1, D2.
        split; [reflexivity |]. split; [reflexivity |].
        split; [discriminate | exact NB].
      * destruct (negb _); discriminate L.
    + injection L as <-. rewrite PL. cbn [trace set_navigator].
      rewrite T2, L1, app_nil_r.
      split; [reflexivity |]. split; [discriminate |].
      split; [discriminate | exact NB].
  - assert (NB : Continue = Break <->
                 cycle_input s = false /\ wrapped (navigator s1) = true).
    { split; [discriminate |]. intros K. apply D3 in K. congruence. }
    unfold start_loading in L. cbn [imv_navigator_poll_changed] in L.
    rewrite G2 in L.
    destruct (changed (navigator s1)); [| discriminate L].
    change (imv_navigator_selection
              (navigator
                 (set_navigator
                    {| paths := paths (navigator s2);
                       cur_path := cur_path (navigator s2);
                       changed := false;
                       wrapped := wrapped (navigator s2) |} s2)))
      with (imv_navigator_selection (navigator s2)) in L.
    rewrite Sel in L.
    destruct (imv_navigator_selection (navigator s1)) as [p |];
      [discriminate L |].
    destruct (negb _); injection L as <-;
      cbn [trace log set_trace set_quit set_navigator];
      rewrite ?loads_app; cbn [loads filter is_load app];
      rewrite ?app_nil_r, T2, L1;
      (split; [reflexivity |]; split; [discriminate |];
       split; [auto | exact NB]).
Qed.

(** X14: a turn asks the loader for at most one image.  It does so exactly
    when the events leave the quit flag clear, the turn is not ended by
    the wrapped latch (cycling is on, or the latch is clear) and, after
    the check of the loader's error, the changed latch is set and the
    cursor has a selection: the request is for the selected path and
    carries the pending raw bytes and their length, whatever the path; the
    turn then runs to the end of the body and leaves the viewport playing.
    In every other turn, and so in every turn ended by the wrapped latch,
    no load is issued.  Events never issue a load. *)
Theorem X14_at_most_one_load_per_turn :
  forall (inp : tick_input) (loc loc' : locals) (s s1 s' : imv) (c : control),
    drain_events (events inp) s = OK s1 ->
    tick inp loc s = OK (c, loc', s') ->
    loads (trace s1) = loads (trace s)
    /\ (forall p : string,
          (quit s1 = false
           /\ (cycle_input s1 = true
               \/ wrapped
                    (navigator (handle_load_error (loader_error inp) s1))
                  = false)
           /\ changed (navigator (handle_load_error (loader_error inp) s1))
              = true
           /\ imv_navigator_selection
                (navigator (handle_load_error (loader_error inp) s1))
              = Some p)
          <-> loads (trace s')
              = (loads (trace s)
                 ++ [imv_loader_load p
                       (stdin_image_data
                          (handle_load_error (loader_error inp) s1))
                       (stdin_image_data_len
                          (handle_load_error (loader_error inp) s1))])%list)
    /\ (loads (trace s') = loads (trace s)
        \/ exists p : string,
             loads (trace s')
             = (loads (trace s)
                ++ [imv_loader_load p
                      (stdin_image_data
                         (handle_load_error (loader_error inp) s1))
                      (stdin_image_data_len
                         (handle_load_error (loader_error inp) s1))])%list
             /\ c = Next /\ view_playing s' = true)
    /\ (c = Break -> loads (trace s') = loads (trace s)).
Proof.
  intros inp loc loc' s s1 s' c D T.
  unfold tick in T. rewrite D in T. cbn [bind] in T.
  apply drain_events_grows, grows_loads in D.
  split; [exact D |].
  assert (NoSnoc : forall (l : list call) (x : call), l <> (l ++ [x])%list).
  { intros l x E. apply (f_equal (@List.length call)) in E.
    rewrite length_app in E. cbn in E. lia. }
  destruct (quit s1) eqn:Q.
  - injection T as <- _ <-. rewrite D.
    split; [| split; [left; reflexivity | reflexivity]].
    intros p. split; [intros [K _]; discriminate K |].
    intros E. exfalso. exact (NoSnoc _ _ E).
  - destruct (after_events_loads _ _ _ _ _ _ T) as (L & P & K & B).
    rewrite D in L.
    set (e := handle_load_error (loader_error inp) s1) in *.
    assert (W : c <> Break <->
                (cycle_input s1 = true \/ wrapped (navigator e) = false)).
    { rewrite B. destruct (cycle_input s1), (wrapped (navigator e));
        intuition congruence. }
    split; [| split].
    + intros p. split.
      * intros (_ & NW & G & Sel). apply W in NW. rewrite G, Sel in L.
        destruct c; [exact L | | contradiction NW; reflexivity].
        destruct (K eq_refl) as [_ K2]. congruence.
      * intros E. rewrite E in L. apply app_inv_head in L.
        destruct c; try discriminate L.
        destruct (changed (navigator e)); [| discriminate L].
        destruct (imv_navigator_selection (navigator e)) as [q |];
          [| discriminate L].
        injection L as ->.
        split; [reflexivity |]. split; [apply W; discriminate |].
        split; reflexivity.
    + destruct c; try (left; rewrite L; apply app_nil_r).
      destruct (changed (navigator e)) eqn:G;
        [| left; rewrite L; apply app_nil_r].
      destruct (imv_navigator_selection (navigator e)) as [q |];
        [| left; rewrite L; apply app_nil_r].
      right. exists q. split; [exact L |]. split; [reflexivity |].
      apply P; reflexivity.
    + intros ->. rewrite L. apply app_nil_r.
Qed.

Lemma X14_at_most_one_load_per_turn_witness :
  exists (loc' : locals) (s' : imv),
    tick (quiet 16) start_locals three_sources = OK (Next, loc', s')
    /\ loads (trace s') = [imv_loader_load "a.png" None 0].
Proof.
  assert (H : exists loc' s',
             tick (quiet 16) start_locals three_sources
             = OK (Next, loc', s')).
  { eexists. eexists. vm_compute. reflexivity. }
  destruct H as (loc' & s' & H). exists loc', s'. split; [exact H |].
  destruct (X14_at_most_one_load_per_turn (quiet 16) start_locals loc'
              three_sources three_sources s' Next eq_refl H)
    as (_ & A & _).
  apply (proj1 (A "a.png")).
  repeat split; try reflexivity. left. reflexivity.
Defined.



(** ** The background colour option *)

Lemma skip_space_count (cs : list ascii) :
  forall n : nat,
    (snd (C.skip_space cs n) + List.length (fst (C.skip_space cs n))
     = n + List.length cs)%nat.
Proof.
  induction cs as [| c cs IH]; intros n; [reflexivity |].
  cbn [C.skip_space]. destruct (C.isspace c); [| reflexivity].
  rewrite IH. cbn [List.length]. lia.
Qed.

Lemma skip_sign_count (cs : list ascii) :
  (snd (C.skip_sign cs) + List.length (snd (fst (C.skip_sign cs)))
   = List.length cs)%nat.
Proof.
  destruct cs as [| c cs]; [reflexivity |].
  destruct c as [[] [] [] [] [] [] [] []]; reflexivity.
Qed.

Lemma skip_prefix_count (base : Z) (cs : list ascii) :
  (snd (C.skip_prefix base cs) + List.length (fst (C.skip_prefix base cs))
   = List.length cs)%nat.
Proof.
  unfold C.skip_prefix.
  destruct cs as [| c [| x [| h cs]]]; try reflexivity;
    destruct c as [[] [] [] [] [] [] [] []]; try reflexivity.
  destruct (_ && _); reflexivity.
Qed.

Lemma scan_digits_count (base : Z) (cs : list ascii) :
  forall (acc : Z) (n : nat),
    (snd (C.scan_digits base cs acc n) <= n + List.length cs)%nat.
Proof.
  induction cs as [| c cs IH]; intros acc n; cbn [C.scan_digits snd];
    [lia |].
  destruct (C.digit_of base c); cbn [snd List.length]; [| lia].
  specialize (IH (acc * base + z) (S n)). lia.
Qed.

Lemma list_ascii_length (s : string) :
  List.length (list_ascii_of_string s) = String.length s.
Proof. induction s as [| c s IH]; [reflexivity |]. cbn. rewrite IH. reflexivity. Qed.

(** [strtoul] never reads past the end of the string. *)
Lemma strtoul_used (s : string) (base : Z) :
  (snd (C.strtoul s base) <= String.length s)%nat.
Proof.
  unfold C.strtoul, C.scan_number.
  pose proof (skip_space_count (list_ascii_of_string s) 0) as H1.
  destruct (C.skip_space (list_ascii_of_string s) 0) as [cs1 n1].
  pose proof (skip_sign_count cs1) as H2.
  destruct (C.skip_sign cs1) as [[neg cs2] n2].
  pose proof (skip_prefix_count base cs2) as H3.
  destruct (C.skip_prefix base cs2) as [cs3 n3].
  pose proof (scan_digits_count base cs3 0 0) as H4.
  destruct (C.scan_digits base cs3 0 0) as [v n4].
  rewrite list_ascii_length in H1. cbn [fst snd] in *.
  destruct n4; cbn [snd C.used]; lia.
Qed.

Lemma advance_to_end (n : nat) (s : string) :
  (n <= String.length s)%nat ->
  C.deref (C.advance n s) = None ->
  n = String.length s.
Proof.
  revert s. induction n as [| n IH]; intros s L D.
  - destruct s; [reflexivity | discriminate D].
  - destruct s as [| c s]; [cbn in L; lia |].
    cbn in *. f_equal. apply IH; [lia | exact D].
Qed.

(** The text of a colour argument: what follows the optional [#]. *)
Lemma colour_text_cases (optarg : string) :
  (C.deref optarg <> Some "#"%char
   /\ match C.deref optarg with
      | Some "#"%char => C.advance 1 optarg
      | _ => optarg
      end = optarg)
  \/ optarg
     = String "#"
         match C.deref optarg with
         | Some "#"%char => C.advance 1 optarg
         | _ => optarg
         end.
Proof.
  destruct optarg as [| c rest]; [left; split; [discriminate | reflexivity] |].
  cbn [C.deref C.advance].
  destruct c as [[] [] [] [] [] [] [] []];
    try (left; split; [discriminate | reflexivity]).
  right. reflexivity.
Qed.

(** X16: a colour argument of the wrong length is never accepted, and an
    accepted one is stored as three bytes.  If [-b] is given anything but
    the word checks and the option is accepted, the argument is either
    [#] followed by exactly six characters, or exactly six characters the
    first of which is not [#]; the background is solid and each of the
    colour components is between 0 and 255. *)
Theorem X16_accepted_colour_has_six_characters :
  forall (optarg : string) (s s' : imv),
    optarg <> "checks" ->
    parse_background optarg s = option_break s' ->
    (exists text : string,
       String.length text = 6%nat
       /\ (optarg = String "#" text
           \/ (optarg = text /\ C.deref optarg <> Some "#"%char)))
    /\ background_type s' = BACKGROUND_SOLID
    /\ 0 <= r (background_color s') <= 255
    /\ 0 <= g (background_color s') <= 255
    /\ 0 <= b (background_color s') <= 255.
Proof.
  intros optarg s s' NC H. unfold parse_background in H.
  destruct (String.eqb_spec "checks" optarg) as [E | _];
    [contradiction NC; symmetry; exact E |].
  pose proof (colour_text_cases optarg) as Cases.
  set (argp := match C.deref optarg with
               | Some "#"%char => C.advance 1 optarg
               | _ => optarg
               end) in *.
  pose proof (strtoul_used argp 16) as U.
  destruct (C.strtoul argp 16) as [v len]. cbn [snd] in U.
  destruct (C.deref (C.advance len argp)) eqn:D; [discriminate |].
  cbn [orb] in H.
  destruct (Nat.eqb_spec len 6) as [L6 | _]; [| discriminate].
  cbn [negb orb] in H.
  destruct (0xFFFFFF <? C.uint v); [discriminate |].
  injection H as <-.
  pose proof (advance_to_end len argp U D) as Len.
  split.
  - exists argp. split; [congruence |].
    destruct Cases as [[C0 C1] | C1].
    + right. split; [symmetry; exact C1 | exact C0].
    + left. exact C1.
  - cbn [background_type background_color set_background_color
           set_background_type r g b].
    split; [reflexivity |].
    unfold C.uchar. change 0xFF with (Z.ones 8). rewrite !Z.land_ones by lia.
    pose proof (Z.mod_pos_bound (Z.shiftr (C.uint v) 16) (2 ^ 8) eq_refl).
    pose proof (Z.mod_pos_bound (Z.shiftr (C.uint v) 8) (2 ^ 8) eq_refl).
    pose proof (Z.mod_pos_bound (C.uint v) (2 ^ 8) eq_refl).
    change (2 ^ 8) with 256 in *. change (Z.ones 8) with 255. lia.
Qed.

Lemma X16_accepted_colour_has_six_characters_witness :
  exists s' : imv,
    parse_background "#ff8000" (imv_create BACKGROUND_CHEQUERED true)
    = option_break s'
    /\ background_type s' = BACKGROUND_SOLID
    /\ 0 <= r (background_color s') <= 255.
Proof.
  assert (H : exists s',
             parse_background "#ff8000" (imv_create BACKGROUND_CHEQUERED true)
             = option_break s').
  { eexists. vm_compute. reflexivity. }
  destruct H as [s' H]. exists s'. split; [exact H |].
  destruct (X16_accepted_colour_has_six_characters "#ff8000" _ s'
              ltac:(discriminate) H) as (_ & A & B & _).
  split; [exact A | exact B].
Defined.

(** X17: six hexadecimal digits, with or without a leading [#], are
    accepted, and the colour stored has the first two digits as red, the
    middle two as green and the last two as blue. *)
Theorem X17_six_hex_digits_give_the_three_bytes :
  forall (c1 c2 c3 c4 c5 c6 : ascii) (d1 d2 d3 d4 d5 d6 : Z) (s : imv),
    C.digit_of 16 c1 = Some d1 -> C.digit_of 16 c2 = Some d2 ->
    C.digit_of 16 c3 = Some d3 -> C.digit_of 16 c4 = Some d4 ->
    C.digit_of 16 c5 = Some d5 -> C.digit_of 16 c6 = Some d6 ->
    parse_background
      (String c1 (String c2 (String c3 (String c4 (String c5
         (String c6 ""))))))
      s
    = option_break
        (set_background_color
           {| r := 16 * d1 + d2; g := 16 * d3 + d4; b := 16 * d5 + d6 |}
           (set_background_type BACKGROUND_SOLID s))
    /\ parse_background
         (String "#"
            (String c1 (String c2 (String c3 (String c4 (String c5
               (String c6 "")))))))
         s
       = option_break
           (set_background_color
              {| r := 16 * d1 + d2; g := 16 * d3 + d4; b := 16 * d5 + d6 |}
              (set_background_type BACKGROUND_SOLID s)).
Proof.
  intros c1 c2 c3 c4 c5 c6 d1 d2 d3 d4 d5 d6 s H1 H2 H3 H4 H5 H6. split.
  - exact (@six_hex_digits_accepted c1 c2 c3 c4 c5 c6 d1 d2 d3 d4 d5 d6 s
             H1 H2 H3 H4 H5 H6).
  - exact (@six_hex_digits_after_hash_accepted c1 c2 c3 c4 c5 c6
             d1 d2 d3 d4 d5 d6 s H1 H2 H3 H4 H5 H6).
Qed.

Lemma X17_six_hex_digits_give_the_three_bytes_witness :
  parse_background "1e90ff" (imv_create BACKGROUND_CHEQUERED true)
  = option_break
      (set_background_color {| r := 30; g := 144; b := 255 |}
         (set_background_type BACKGROUND_SOLID
            (imv_create BACKGROUND_CHEQUERED true))).
Proof.
  exact (proj1 (X17_six_hex_digits_give_the_three_bytes
                  "1" "e" "9" "0" "f" "f" 1 14 9 0 15 15
                  (imv_create BACKGROUND_CHEQUERED true)
                  eq_refl eq_refl eq_refl eq_refl eq_refl eq_refl)).
Defined.

(** ** The slideshow option *)

Lemma digit_cases (d : Z) :
  is_digit d ->
  d = 0 \/ d = 1 \/ d = 2 \/ d = 3 \/ d = 4 \/ d = 5 \/ d = 6 \/ d = 7
  \/ d = 8 \/ d = 9.
Proof. unfold is_digit. lia. Qed.

Lemma digit_char_facts (d : Z) :
  is_digit d ->
  C.digit_of 10 (digit_char d) = Some d
  /\ C.isspace (digit_char d) = false
  /\ (forall cs, C.skip_sign (digit_char d :: cs)
                 = (false, digit_char d :: cs, 0%nat))
  /\ C.digit_of 10 "." = None.
Proof.
  intros H.
  destruct (digit_cases d H)
    as [-> | [-> | [-> | [-> | [-> | [-> | [-> | [-> | [-> | ->]]]]]]]]];
    repeat split; reflexivity.
Qed.

Lemma skip_prefix_decimal (cs : list ascii) :
  C.skip_prefix 10 cs = (cs, 0%nat).
Proof.
  unfold C.skip_prefix.
  destruct cs as [| c [| x [| h cs]]]; try reflexivity;
    destruct c as [[] [] [] [] [] [] [] []]; reflexivity.
Qed.

Lemma scan_numeral (ds : list Z) :
  Forall is_digit ds ->
  forall (rest : list ascii) (acc : Z) (n : nat),
    C.scan_digits 10 (numeral ds ++ rest) acc n
    = C.scan_digits 10 rest (decimal_from acc ds) (n + List.length ds).
Proof.
  induction 1 as [| d ds Hd _ IH]; intros rest acc n.
  - cbn. rewrite Nat.add_0_r. reflexivity.
  - cbn [numeral map app C.scan_digits].
    destruct (digit_char_facts d Hd) as (E & _). rewrite E.
    fold (numeral ds). rewrite IH. cbn [decimal_from fold_left List.length].
    f_equal. lia.
Qed.

Lemma decimal_from_bounds (ds : list Z) :
  Forall is_digit ds ->
  forall acc : Z,
    0 <= acc ->
    acc * 10 ^ Z.of_nat (List.length ds) <= decimal_from acc ds
    /\ decimal_from acc ds < (acc + 1) * 10 ^ Z.of_nat (List.length ds).
Proof.
  induction 1 as [| d ds Hd _ IH]; intros acc A.
  - cbn. lia.
  - cbn [decimal_from fold_left List.length].
    rewrite Nat2Z.inj_succ, Z.pow_succ_r by lia.
    destruct (IH (acc * 10 + d)) as [L U]; [unfold is_digit in Hd; lia |].
    unfold decimal_from in *. unfold is_digit in Hd.
    pose proof (Z.pow_pos_nonneg 10 (Z.of_nat (List.length ds))
                  ltac:(lia) ltac:(lia)).
    nia.
Qed.

(** [strtoul] in base 10 on a numeral, alone or followed by a point. *)
Lemma strtoul_numeral (ds : list Z) (rest : list ascii) :
  Forall is_digit ds -> ds <> [] ->
  decimal ds <= C.ULONG_MAX ->
  rest = [] \/ (exists tail, rest = "."%char :: tail) ->
  C.strtoul (string_of_list_ascii (numeral ds ++ rest)) 10
  = (decimal ds, List.length ds).
Proof.
  intros F NE B R. unfold C.strtoul, C.scan_number.
  rewrite list_ascii_of_string_of_list_ascii.
  destruct ds as [| d ds]; [contradiction NE; reflexivity |].
  inversion F as [| d' ds' Hd Hds]; subst.
  destruct (digit_char_facts d Hd) as (_ & Sp & Sg & Pt).
  cbn [numeral map app C.skip_space]. rewrite Sp, Sg.
  rewrite skip_prefix_decimal.
  change (digit_char d :: (map digit_char ds ++ rest)%list)
    with (numeral (d :: ds) ++ rest)%list.
  rewrite (scan_numeral (d :: ds) F).
  assert (S : C.scan_digits 10 rest (decimal_from 0 (d :: ds))
                (0 + List.length (d :: ds))
              = (decimal (d :: ds), List.length (d :: ds))).
  { destruct R as [-> | [tail ->]]; [reflexivity |].
    cbn [C.scan_digits]. rewrite Pt. reflexivity. }
  rewrite S. cbn [List.length C.negative C.magnitude C.used Nat.add].
  destruct (Z.ltb_spec C.ULONG_MAX (decimal (d :: ds))); [lia | reflexivity].
Qed.

Lemma advance_app (a b : list ascii) :
  C.advance (List.length a) (string_of_list_ascii (a ++ b))
  = string_of_list_ascii b.
Proof.
  induction a as [| c a IH]; cbn.
  - destruct (string_of_list_ascii b); reflexivity.
  - exact IH.
Qed.

Lemma numeral_length (ds : list Z) : List.length (numeral ds) = List.length ds.
Proof. apply length_map. Qed.

(** The fraction: at most three digits, scaled to milliseconds. *)
Lemma fraction_delay (frac : list Z) :
  Forall is_digit frac -> (List.length frac <= 3)%nat ->
  let '(w, n2) := C.strtoul (string_of_list_ascii (numeral frac)) 10 in
  scale_delay (3 - Z.of_nat n2) (C.long_of_ulong w)
  = OK (decimal frac * 10 ^ (3 - Z.of_nat (List.length frac)))
  /\ 0 <= decimal frac * 10 ^ (3 - Z.of_nat (List.length frac)) < 1000.
Proof.
  intros F L.
  destruct frac as [| f1 [| f2 [| f3 [| f4 frac]]]];
    [| | | | cbn in L; lia].
  - cbn. split; [reflexivity | lia].
  - inversion F as [| ? ? H1 _]; subst.
    destruct (digit_cases f1 H1)
      as [-> | [-> | [-> | [-> | [-> | [-> | [-> | [-> | [-> | ->]]]]]]]]];
      vm_compute;
      (split; [reflexivity | split; first [discriminate | reflexivity]]).
  - inversion F as [| ? ? H1 F2]; subst.
    inversion F2 as [| ? ? H2 _]; subst.
    pose proof (strtoul_numeral [f1; f2] [] F ltac:(discriminate)) as S.
    rewrite app_nil_r in S. rewrite S.
    + unfold is_digit in *. cbn [List.length].
      unfold decimal, decimal_from. cbn [fold_left].
      unfold scale_delay, C.long_of_ulong.
      change (3 - Z.of_nat 2) with 1. cbn [Z.ltb Z.compare Z.to_nat].
      change (Z.to_nat 1) with 1%nat. change (Pos.to_nat 1) with 1%nat.
      destruct (Z.ltb_spec ((0 * 10 + f1) * 10 + f2) (2 ^ 63)) as [_ | G];
        [| change (2 ^ 63) with 9223372036854775808 in G; lia].
      cbn [times_ten]. unfold C.in_long, C.LONG_MIN, C.LONG_MAX.
      change (- 2 ^ 63) with (-9223372036854775808).
      change (2 ^ 63 - 1) with 9223372036854775807.
      destruct (Z.leb_spec (-9223372036854775808)
                  (((0 * 10 + f1) * 10 + f2) * 10)); [| lia].
      destruct (Z.leb_spec (((0 * 10 + f1) * 10 + f2) * 10)
                  9223372036854775807); [| lia].
      cbn [andb]. change (10 ^ 1) with 10. split; [reflexivity | lia].
    + unfold decimal, decimal_from, is_digit, C.ULONG_MAX in *.
      cbn [fold_left]. change (2 ^ 64 - 1) with 18446744073709551615. lia.
    + left. reflexivity.
  - inversion F as [| ? ? H1 F2]; subst.
    inversion F2 as [| ? ? H2 F3]; subst.
    inversion F3 as [| ? ? H3 _]; subst.
    pose proof (strtoul_numeral [f1; f2; f3] [] F ltac:(discriminate)) as S.
    rewrite app_nil_r in S. rewrite S.
    + unfold is_digit in *. cbn [List.length].
      unfold decimal, decimal_from. cbn [fold_left].
      unfold scale_delay, C.long_of_ulong.
      change (3 - Z.of_nat 3) with 0. cbn [Z.ltb Z.compare Z.to_nat].
      destruct (Z.ltb_spec (((0 * 10 + f1) * 10 + f2) * 10 + f3) (2 ^ 63))
        as [_ | G];
        [| change (2 ^ 63) with 9223372036854775808 in G; lia].
      cbn [times_ten]. change (10 ^ 0) with 1. split; [f_equal; lia | lia].
    + unfold decimal, decimal_from, is_digit, C.ULONG_MAX in *.
      cbn [fold_left]. change (2 ^ 64 - 1) with 18446744073709551615. lia.
    + left. reflexivity.
Qed.

(** X18: [-t] followed by a number of seconds, a point and at most three
    digits gives the interval in milliseconds: the seconds times 1000 plus
    the digits after the point read as tenths, hundredths or thousandths.
    It is accepted when that number is below [ULONG_MAX]; when it is
    [ULONG_MAX] itself, which fits an [unsigned long], the option is
    rejected, as that value is the mark of an error.  The seconds alone
    give the seconds times 1000. *)
Theorem X18_seconds_and_fraction_give_milliseconds :
  forall (secs frac : list Z) (s : imv),
    Forall is_digit secs -> secs <> [] ->
    Forall is_digit frac -> (List.length frac <= 3)%nat ->
    (decimal secs * 1000
     + decimal frac * 10 ^ (3 - Z.of_nat (List.length frac)) < C.ULONG_MAX ->
     parse_slideshow
       (string_of_list_ascii (numeral secs ++ "."%char :: numeral frac)) s
     = OK (option_break
             (set_slideshow_image_duration
                (decimal secs * 1000
                 + decimal frac * 10 ^ (3 - Z.of_nat (List.length frac)))
                s)))
    /\ (decimal secs * 1000
        + decimal frac * 10 ^ (3 - Z.of_nat (List.length frac))
        = C.ULONG_MAX ->
        parse_slideshow
          (string_of_list_ascii (numeral secs ++ "."%char :: numeral frac)) s
        = OK (option_return false
                (log (fprintf_stderr
                        ("Wrong slideshow delay '"
                         ++ string_of_list_ascii
                              (numeral secs ++ "."%char :: numeral frac)
                         ++ "'. Aborting." ++ nl))
                   (set_slideshow_image_duration C.ULONG_MAX s))))
    /\ (decimal secs * 1000 <= C.ULONG_MAX ->
        parse_slideshow (string_of_list_ascii (numeral secs)) s
        = OK (option_break
                (set_slideshow_image_duration (decimal secs * 1000) s))).
Proof.
  intros secs frac s Fs NE Ff Lf.
  assert (Pos : 0 <= decimal secs).
  { destruct (decimal_from_bounds secs Fs 0 ltac:(lia)) as [L _].
    unfold decimal. lia. }
  assert (R0 : 0 <= decimal frac * 10 ^ (3 - Z.of_nat (List.length frac))
               < 1000).
  { pose proof (fraction_delay frac Ff Lf) as D.
    destruct (C.strtoul (string_of_list_ascii (numeral frac)) 10) as [w n2].
    exact (proj2 D). }
  assert (Main : decimal secs * 1000
                 + decimal frac * 10 ^ (3 - Z.of_nat (List.length frac))
                 <= C.ULONG_MAX ->
                 parse_slideshow
                   (string_of_list_ascii
                      (numeral secs ++ "."%char :: numeral frac)) s
                 = (let duration :=
                      decimal secs * 1000
                      + decimal frac
                        * 10 ^ (3 - Z.of_nat (List.length frac)) in
                    let s1 := set_slideshow_image_duration duration s in
                    if duration =? C.ULONG_MAX
                    then OK (option_return false
                               (log (fprintf_stderr
                                       ("Wrong slideshow delay '"
                                        ++ string_of_list_ascii
                                             (numeral secs
                                              ++ "."%char :: numeral frac)
                                        ++ "'. Aborting." ++ nl)) s1))
                    else OK (option_break s1))).
  { intros B.
    assert (Bs : decimal secs <= C.ULONG_MAX) by lia.
    assert (W : C.ulong (decimal secs * 1000) = decimal secs * 1000).
    { unfold C.ulong, C.ULONG_MAX in *. apply Z.mod_small.
      change (2 ^ 64 - 1) with 18446744073709551615 in *.
      change (2 ^ 64) with 18446744073709551616. lia. }
    unfold parse_slideshow.
    rewrite (strtoul_numeral secs _ Fs NE Bs
               (or_intror (ex_intro _ (numeral frac) eq_refl))).
    assert (A : C.advance (List.length secs)
                  (string_of_list_ascii
                     (numeral secs ++ "."%char :: numeral frac))
                = string_of_list_ascii ("."%char :: numeral frac)).
    { rewrite <- (numeral_length secs). apply advance_app. }
    rewrite !A. cbn [string_of_list_ascii C.deref C.advance].
    pose proof (fraction_delay frac Ff Lf) as D.
    destruct (C.strtoul (string_of_list_ascii (numeral frac)) 10) as [w n2].
    destruct D as [D R]. rewrite D. cbn [bind].
    destruct (Z.ltb_spec
                (decimal frac * 10 ^ (3 - Z.of_nat (List.length frac))) 1000)
      as [_ | G]; [| lia].
    rewrite W.
    assert (V : C.ulong (decimal secs * 1000
                         + decimal frac
                           * 10 ^ (3 - Z.of_nat (List.length frac)))
                = decimal secs * 1000
                  + decimal frac * 10 ^ (3 - Z.of_nat (List.length frac))).
    { unfold C.ulong, C.ULONG_MAX in *. apply Z.mod_small.
      change (2 ^ 64 - 1) with 18446744073709551615 in *.
      change (2 ^ 64) with 18446744073709551616. lia. }
    rewrite V. reflexivity. }
  split; [| split].
  - intros B. rewrite Main by lia. cbv zeta.
    destruct (Z.eqb_spec
                (decimal secs * 1000
                 + decimal frac * 10 ^ (3 - Z.of_nat (List.length frac)))
                C.ULONG_MAX) as [E | _]; [lia | reflexivity].
  - intros B. rewrite Main by lia. cbv zeta. rewrite B, Z.eqb_refl.
    reflexivity.
  - intros B.
    assert (Bs : decimal secs <= C.ULONG_MAX) by lia.
    assert (W : C.ulong (decimal secs * 1000) = decimal secs * 1000).
    { unfold C.ulong, C.ULONG_MAX in *. apply Z.mod_small.
      change (2 ^ 64 - 1) with 18446744073709551615 in *.
      change (2 ^ 64) with 18446744073709551616. lia. }
    unfold parse_slideshow.
    pose proof (strtoul_numeral secs [] Fs NE Bs (or_introl eq_refl)) as S.
    rewrite app_nil_r in S. rewrite S.
    pose proof (advance_app (numeral secs) []) as A.
    rewrite app_nil_r, numeral_length in A. rewrite !A.
    cbn [string_of_list_ascii C.deref bind]. rewrite W.
    destruct (Z.eqb_spec (decimal secs * 1000) C.ULONG_MAX) as [E | _];
      [| reflexivity].
    unfold C.ULONG_MAX in E.
    change (2 ^ 64 - 1) with 18446744073709551615 in E. lia.
Qed.

Lemma X18_seconds_and_fraction_give_milliseconds_witness :
  parse_slideshow "12.5" (imv_create BACKGROUND_SOLID true)
  = OK (option_break
          (set_slideshow_image_duration 12500
             (imv_create BACKGROUND_SOLID true))).
Proof.
  refine (proj1 (X18_seconds_and_fraction_give_milliseconds [1; 2] [5]
                   (imv_create BACKGROUND_SOLID true) _ _ _ _) _).
  - repeat constructor; vm_compute; discriminate.
  - discriminate.
  - repeat constructor; vm_compute; discriminate.
  - cbn. lia.
  - vm_compute. reflexivity.
Defined.

(** ** Paths on the command line and on the standard input *)

Lemma sentinels_cons (arg : string) (rest : list string) :
  sentinels (arg :: rest)
  = if String.eqb "-" arg then S (sentinels rest) else sentinels rest.
Proof.
  unfold sentinels. cbn [count_occ].
  destruct (string_dec arg "-") as [-> | N]; [reflexivity |].
  destruct (String.eqb_spec "-" arg) as [E | _]; [congruence | reflexivity].
Qed.

Lemma add_path_args_outcome (env : startup_input) (argv : list string) :
  forall (d : bool) (s : imv),
    paths_from_stdin s = false ->
    paths_from_stdin (snd (add_path_args env argv d s)) = false
    /\ (fst (add_path_args env argv d s) = true
        <-> (sentinels argv + (if d then 1 else 0) <= 1)%nat)
    /\ (sentinels argv = 0%nat ->
          stdin_image_data (snd (add_path_args env argv d s))
          = stdin_image_data s
          /\ stdin_image_data_len (snd (add_path_args env argv d s))
             = stdin_image_data_len s)
    /\ (sentinels argv = 1%nat -> d = false ->
          stdin_image_data (snd (add_path_args env argv d s))
          = fst (piped env)
          /\ stdin_image_data_len (snd (add_path_args env argv d s))
             = snd (piped env)).
Proof.
  induction argv as [| arg rest IH]; intros d s P.
  - cbn. repeat split; try exact P; try discriminate; intros; destruct d; lia.
  - rewrite sentinels_cons. cbn [add_path_args].
    destruct (String.eqb "-" arg).
    + rewrite P. destruct d.
      * cbn [fst snd]. repeat split; try exact P; try discriminate.
        intros H. lia.
      * specialize (IH true
                      (imv_add_path (directories env) arg
                         (set_stdin_image_data_len (snd (piped env))
                            (set_stdin_image_data (fst (piped env)) s)))
                      P).
        destruct IH as (I1 & I2 & I3 & _).
        repeat split; try exact I1.
        -- intros H. apply I2 in H. lia.
        -- intros H. apply I2. lia.
        -- discriminate.
        -- discriminate.
        -- apply I3. lia.
        -- apply I3. lia.
    + specialize (IH d (imv_add_path (directories env) arg s) P).
      destruct IH as (I1 & I2 & I3 & I4).
      repeat split; try exact I1; try apply I2;
        try (apply I3; assumption); try (apply I4; assumption).
Qed.

(** X19: with path arguments, parsing them succeeds exactly when the
    sentinel [-] occurs at most once among them.  When it occurs once the
    session holds what [read_from_stdin] returned, buffer and length; when
    it does not occur the raw bytes of the session are untouched; and the
    paths are never taken from the standard input. *)
Theorem X19_sentinel_is_accepted_at_most_once :
  forall (env : startup_input) (argv : list string) (s : imv),
    paths_from_stdin s = false ->
    argv <> [] ->
    exists (ok : bool) (s' : imv),
      parse_paths env argv s = OK (ok, s')
      /\ (ok = true <-> (sentinels argv <= 1)%nat)
      /\ paths_from_stdin s' = false
      /\ (sentinels argv = 1%nat ->
            stdin_image_data s' = fst (piped env)
            /\ stdin_image_data_len s' = snd (piped env))
      /\ (sentinels argv = 0%nat ->
            stdin_image_data s' = stdin_image_data s
            /\ stdin_image_data_len s' = stdin_image_data_len s).
Proof.
  intros env argv s P NE.
  destruct (add_path_args_outcome env argv false s P) as (A1 & A2 & A3 & A4).
  assert (E : parse_paths env argv s = OK (add_path_args env argv false s)).
  { unfold parse_paths. destruct argv as [| a r]; [contradiction NE; reflexivity |].
    destruct (add_path_args env (a :: r) false s) as [ok s1].
    cbn [snd] in A1. destruct ok; cbn [negb]; [rewrite A1 |]; reflexivity. }
  destruct (add_path_args env argv false s) as [ok s'].
  cbn [fst snd] in *. exists ok, s'. rewrite Nat.add_0_r in A2.
  split; [exact E |].
  repeat split; try exact A1; try apply A2; try (apply A3; assumption);
    try (apply A4; [assumption | reflexivity]).
Qed.

Lemma X19_sentinel_is_accepted_at_most_once_witness :
  (exists s', parse_paths piped_startup ["a.png"; "-"; "-"]
                (imv_create BACKGROUND_SOLID true) = OK (false, s'))
  /\ (exists s', parse_paths piped_startup ["a.png"; "-"]
                   (imv_create BACKGROUND_SOLID true) = OK (true, s')).
Proof.
  split.
  - destruct (X19_sentinel_is_accepted_at_most_once piped_startup
                ["a.png"; "-"; "-"] (imv_create BACKGROUND_SOLID true)
                eq_refl ltac:(discriminate)) as (ok & s' & E & A & _).
    exists s'. rewrite E. destruct ok; [| reflexivity].
    apply proj1 in A. specialize (A eq_refl). vm_compute in A. lia.
  - destruct (X19_sentinel_is_accepted_at_most_once piped_startup
                ["a.png"; "-"] (imv_create BACKGROUND_SOLID true)
                eq_refl ltac:(discriminate)) as (ok & s' & E & A & _).
    exists s'. rewrite E. destruct ok; [reflexivity |].
    apply proj2 in A. assert (K : false = true); [| discriminate K].
    apply A. vm_compute. lia.
Defined.

Lemma add_path_args_ignores_lines (env : startup_input) (lines : list string)
  (argv : list string) :
  forall (d : bool) (s : imv),
    add_path_args (mk_startup_input (piped env) lines (directories env))
      argv d s
    = add_path_args env argv d s.
Proof.
  induction argv as [| arg rest IH]; intros d s; [reflexivity |].
  cbn [add_path_args piped directories]. rewrite !IH. reflexivity.
Qed.

Lemma read_first_path_ignores_piped (env : startup_input)
  (data : option (list Byte.byte) * Z) (lines : list string) :
  forall s : imv,
    read_first_path (mk_startup_input data (stdin_lines env) (directories env))
      lines s
    = read_first_path env lines s.
Proof.
  induction lines as [| buf rest IH]; intros s; [reflexivity |].
  cbn [read_first_path directories]. rewrite IH. reflexivity.
Qed.

(** What the first lines of the standard input leave of the session. *)
Lemma read_first_path_keeps (env : startup_input) (lines : list string) :
  forall (s s' : imv) (ok : bool),
    read_first_path env lines s = OK (ok, s') ->
    paths_from_stdin s' = paths_from_stdin s
    /\ stdin_image_data s' = stdin_image_data s.
Proof.
  induction lines as [| buf rest IH]; intros s s' ok; cbn [read_first_path].
  - intros R. injection R as _ <-. split; reflexivity.
  - destruct (path_of_line buf) as [[path |] | f]; cbn [bind];
      [| apply IH | discriminate].
    intros R. injection R as _ <-. split; reflexivity.
Qed.

(** X20: the standard input is read one way or the other, never both.
    With path arguments the outcome of parsing them does not depend on the
    lines of the standard input (no line is read); without path arguments
    it does not depend on what [read_from_stdin] would return (no raw
    bytes are read) and the session is marked as reading paths from the
    standard input. *)
Theorem X20_stdin_is_read_as_data_or_as_paths :
  forall (env : startup_input) (argv : list string) (s : imv),
    paths_from_stdin s = false ->
    (argv <> [] ->
       forall lines,
         parse_paths (mk_startup_input (piped env) lines (directories env))
           argv s
         = parse_paths env argv s)
    /\ (argv = [] ->
        (forall data,
           parse_paths
             (mk_startup_input data (stdin_lines env) (directories env))
             argv s
           = parse_paths env argv s)
        /\ forall (ok : bool) (s' : imv),
             parse_paths env argv s = OK (ok, s') ->
             paths_from_stdin s' = true
             /\ stdin_image_data s' = stdin_image_data s).
Proof.
  intros env argv s P. split.
  - intros NE lines.
    destruct (add_path_args_outcome env argv false s P) as (A1 & _).
    unfold parse_paths. destruct argv as [| a r]; [contradiction NE; reflexivity |].
    rewrite add_path_args_ignores_lines.
    destruct (add_path_args env (a :: r) false s) as [ok s1].
    cbn [snd] in A1. destruct ok; cbn [negb]; [rewrite A1 |]; reflexivity.
  - intros ->. unfold parse_paths. cbn [negb paths_from_stdin
      set_paths_from_stdin stdin_lines].
    split.
    + intros data. rewrite read_first_path_ignores_piped. reflexivity.
    + intros ok s'.
      destruct (read_first_path env (stdin_lines env) _) as [[ok3 s3] | f] eqn:R;
        cbn [bind]; [| discriminate].
      apply read_first_path_keeps in R. destruct R as [R1 R2].
      destruct ok3; intros H; injection H as _ <-; cbn; split; assumption.
Qed.

Lemma X20_stdin_is_read_as_data_or_as_paths_witness :
  parse_paths
    (mk_startup_input (piped piped_startup) ["junk"]
       (directories piped_startup))
    ["-"] (imv_create BACKGROUND_SOLID true)
  = parse_paths piped_startup ["-"] (imv_create BACKGROUND_SOLID true).
Proof.
  apply (proj1 (X20_stdin_is_read_as_data_or_as_paths piped_startup ["-"]
                  (imv_create BACKGROUND_SOLID true) eq_refl)).
  discriminate.
Defined.

Lemma chomp_newline (path : string) : chomp (path ++ nl) = path.
Proof.
  induction path as [| c path IH]; [reflexivity |].
  cbn [append chomp]. rewrite IH.
  destruct path; reflexivity.
Qed.

Lemma cstr_newline (path : string) :
  C.cstr path = path -> C.cstr (path ++ nl) = path ++ nl.
Proof.
  induction path as [| c path IH]; [reflexivity |].
  cbn [append C.cstr]. destruct (Ascii.eqb c "000"); [discriminate |].
  intros H. injection H as H. rewrite (IH H). reflexivity.
Qed.

Lemma path_of_line_fault (buf : string) (f : fault) :
  path_of_line buf = Fault f ->
  C.cstr buf = "" /\ f = OutOfBounds "buf[len-1]".
Proof.
  unfold path_of_line. destruct (C.cstr buf) as [| c rest].
  - intros H. injection H as <-. split; reflexivity.
  - destruct (_ <? _)%Z; discriminate.
Qed.

Lemma read_first_path_outcome (env : startup_input) (lines : list string) :
  forall s : imv,
    match read_first_path env lines s with
    | OK (true, s') =>
        exists before line after path,
          lines = (before ++ line :: after)%list
          /\ Forall blank before
          /\ path_of_line line = OK (Some path)
          /\ s' = imv_add_path (directories env) path s
    | OK (false, s') => Forall blank lines /\ s' = s
    | Fault f =>
        exists before line after,
          lines = (before ++ line :: after)%list
          /\ Forall blank before
          /\ C.cstr line = ""
          /\ f = OutOfBounds "buf[len-1]"
    end.
Proof.
  induction lines as [| buf rest IH]; intros s.
  - cbn. split; [constructor | reflexivity].
  - cbn [read_first_path].
    destruct (path_of_line buf) as [[path |] | f] eqn:PL; cbn [bind].
    + exists [], buf, rest, path. repeat split; [constructor | exact PL].
    + specialize (IH s).
      destruct (read_first_path env rest s) as [[[|] s'] | f].
      * destruct IH as (before & line & after & path & E & F & N & S).
        exists (buf :: before), line, after, path.
        repeat split; try assumption; [rewrite E; reflexivity |].
        constructor; assumption.
      * destruct IH as [F S]. split; [constructor; assumption | exact S].
      * destruct IH as (before & line & after & E & F & N & S).
        exists (buf :: before), line, after.
        repeat split; try assumption; [rewrite E; reflexivity |].
        constructor; assumption.
    + apply path_of_line_fault in PL. destruct PL as [CS ->].
      exists [], buf, rest. repeat split; [constructor | exact CS].
Qed.

(** X21: without path arguments the lines of the standard input are read
    until one holds a path.  Blank lines (a newline alone) are skipped;
    the first other line becomes the first path: its bytes up to the first
    NUL, without the newline; the lines after it are left for the loop.
    Parsing fails, after the message " no input!", exactly when every line
    is blank or there is none.  When the first line that is not blank
    starts with a NUL byte, the byte before the buffer is read.  A line
    made of a path without NUL bytes and a newline is that path. *)
Theorem X21_first_path_comes_from_the_first_line :
  forall (env : startup_input) (s : imv),
    (forall s' : imv,
       parse_paths env [] s = OK (true, s') ->
       exists before line after path,
         stdin_lines env = (before ++ line :: after)%list
         /\ Forall blank before
         /\ path_of_line line = OK (Some path)
         /\ path = chomp (C.cstr line)
         /\ navigator s'
            = imv_navigator_add (directories env) (navigator s)
                path (recursive_load s))
    /\ (forall s' : imv,
          parse_paths env [] s = OK (false, s') ->
          Forall blank (stdin_lines env)
          /\ navigator s' = navigator s
          /\ exists tr,
               trace s' = (tr ++ [fprintf_stderr (" no input!" ++ nl)])%list)
    /\ (forall f : fault,
          parse_paths env [] s = Fault f ->
          f = OutOfBounds "buf[len-1]"
          /\ exists before line after,
               stdin_lines env = (before ++ line :: after)%list
               /\ Forall blank before
               /\ C.cstr line = "")
    /\ (Forall blank (stdin_lines env) ->
        exists s', parse_paths env [] s = OK (false, s'))
    /\ (forall path : string,
          C.cstr path = path -> path <> "" ->
          path_of_line (path ++ nl) = OK (Some path))
    /\ blank nl
    /\ forall rest : string,
         path_of_line (String "000" rest) = Fault (OutOfBounds "buf[len-1]").
Proof.
  intros env s.
  assert (PathChomp : forall line path,
             path_of_line line = OK (Some path) ->
             path = chomp (C.cstr line)).
  { intros line path. unfold path_of_line.
    destruct (C.cstr line) as [| c rest]; [discriminate |].
    destruct (_ <? _)%Z; [| discriminate].
    intros H. injection H as <-. reflexivity. }
  split; [| split; [| split; [| split; [| split; [| split]]]]].
  - intros s'. unfold parse_paths.
    cbn [negb paths_from_stdin set_paths_from_stdin].
    pose proof (read_first_path_outcome env (stdin_lines env)
                  (log (fprintf_stderr "Reading paths from stdin...")
                     (set_paths_from_stdin true s))) as R.
    destruct (read_first_path env (stdin_lines env) _) as [[[|] s3] | f];
      cbn [bind]; try discriminate.
    destruct R as (before & line & after & path & E & F & N & S).
    intros H. injection H as <-. exists before, line, after, path.
    repeat split; try assumption; [apply PathChomp; exact N |].
    rewrite S. reflexivity.
  - intros s'. unfold parse_paths.
    cbn [negb paths_from_stdin set_paths_from_stdin].
    pose proof (read_first_path_outcome env (stdin_lines env)
                  (log (fprintf_stderr "Reading paths from stdin...")
                     (set_paths_from_stdin true s))) as R.
    destruct (read_first_path env (stdin_lines env) _) as [[[|] s3] | f];
      cbn [bind]; try discriminate.
    destruct R as [F S]. intros H. injection H as <-. rewrite S.
    split; [exact F |]. split; [reflexivity |]. eexists. reflexivity.
  - intros f. unfold parse_paths.
    cbn [negb paths_from_stdin set_paths_from_stdin].
    pose proof (read_first_path_outcome env (stdin_lines env)
                  (log (fprintf_stderr "Reading paths from stdin...")
                     (set_paths_from_stdin true s))) as R.
    destruct (read_first_path env (stdin_lines env) _) as [[[|] s3] | f0];
      cbn [bind]; try discriminate.
    destruct R as (before & line & after & E & F & N & ->).
    intros H. injection H as <-. split; [reflexivity |].
    exists before, line, after. repeat split; assumption.
  - intros B. unfold parse_paths.
    cbn [negb paths_from_stdin set_paths_from_stdin].
    assert (R : forall lines x, Forall blank lines ->
                  read_first_path env lines x = OK (false, x)).
    { induction lines as [| buf rest IH]; intros x FB; [reflexivity |].
      inversion FB as [| ? ? Hb Hr]; subst. cbn [read_first_path].
      unfold blank in Hb. rewrite Hb. cbn [bind]. apply IH. exact Hr. }
    rewrite (R _ _ B). cbn [bind]. eexists. reflexivity.
  - intros path CS NE. unfold path_of_line.
    rewrite (cstr_newline path CS).
    destruct path as [| c rest]; [contradiction NE; reflexivity |].
    cbn [append]. cbv beta iota zeta.
    change (String c (rest ++ nl)) with (String c rest ++ nl).
    rewrite chomp_newline. reflexivity.
  - reflexivity.
  - intros rest. reflexivity.
Qed.

Lemma X21_first_path_comes_from_the_first_line_witness :
  exists s' : imv,
    parse_paths listed_startup [] (imv_create BACKGROUND_SOLID true)
    = OK (true, s')
    /\ paths (navigator s') = ["a.png"].
Proof.
  assert (H : exists s',
             parse_paths listed_startup [] (imv_create BACKGROUND_SOLID true)
             = OK (true, s'))
    by (eexists; vm_compute; reflexivity).
  destruct H as [s' H]. exists s'. split; [exact H |].
  destruct (proj1 (X21_first_path_comes_from_the_first_line listed_startup
                     (imv_create BACKGROUND_SOLID true)) s' H)
    as (before & line & after & path & E & B & P & _ & N).
  rewrite N.
  destruct before as [| b0 [| b1 before]].
  - injection E as <- _. vm_compute in P. discriminate P.
  - injection E as _ <- _. vm_compute in P. injection P as <-.
    reflexivity.
  - exfalso. injection E as _ E1 E2.
    inversion B as [| ? ? _ B1]; subst. inversion B1 as [| ? ? Hb _]; subst.
    vm_compute in Hb. discriminate Hb.
Defined.

(** ** Options are handled from left to right *)

(** X22: the options are handled in order and the first that returns
    (help, or a rejected value, or an unknown option) ends the parsing:
    the options of two lists one after the other are those of the first,
    then, if none of them returned, those of the second in the session the
    first left.  In particular what follows [-h] is never looked at, and
    neither are the paths: the outcome is [true] with the quit flag set. *)
Theorem X22_options_compose_and_the_first_return_wins :
  forall (before behind : list (ascii * string)) (s : imv),
    parse_options (before ++ behind) s
    = (out <- parse_options before s ;;
       match out with
       | option_break s1 => parse_options behind s1
       | option_return ret s1 => OK (option_return ret s1)
       end)
    /\ forall (env : startup_input) (argv : list string) (arg : string)
              (s1 : imv),
         parse_options before s = OK (option_break s1) ->
         exists s2,
           imv_parse_args env (before ++ ("h"%char, arg) :: behind) argv s
           = OK (true, s2)
           /\ quit s2 = true
           /\ navigator s2 = navigator s1
           /\ paths_from_stdin s2 = paths_from_stdin s1.
Proof.
  assert (A : forall before behind s,
             parse_options (before ++ behind) s
             = (out <- parse_options before s ;;
                match out with
                | option_break s1 => parse_options behind s1
                | option_return ret s1 => OK (option_return ret s1)
                end)).
  { induction before as [| [o optarg] before IH]; intros behind s.
    - cbn [app parse_options bind]. reflexivity.
    - cbn [app parse_options].
      destruct (parse_option o optarg s) as [[s1 | ret s1] | f]; cbn [bind].
      + apply IH.
      + reflexivity.
      + reflexivity. }
  intros before behind s. split; [apply A |].
  intros env argv arg s1 H. unfold imv_parse_args.
  rewrite A, H. cbn [bind parse_options parse_option].
  eexists. split; [reflexivity |]. repeat split.
Qed.

Lemma X22_options_compose_and_the_first_return_wins_witness :
  exists s2,
    imv_parse_args piped_startup
      ([("f"%char, "")] ++ ("h"%char, "") :: [("b"%char, "nonsense")])
      ["-"; "-"] (imv_create BACKGROUND_SOLID true)
    = OK (true, s2)
    /\ quit s2 = true.
Proof.
  destruct (proj2 (X22_options_compose_and_the_first_return_wins
                     [("f"%char, "")] [("b"%char, "nonsense")]
                     (imv_create BACKGROUND_SOLID true))
              piped_startup ["-"; "-"] "" _ eq_refl)
    as (s2 & H & Q & _).
  exists s2. split; [exact H | exact Q].
Defined.

(** ** The standard input after its end *)

Lemma call_handler_keeps_stdin_flag (h : handler) (args : list string)
  (s s' : imv) :
  call_handler h args s = OK s' -> paths_from_stdin s' = paths_from_stdin s.
Proof.
  destruct h; cbn [call_handler];
    unfold command_quit, command_pan, command_select_rel, command_select_abs,
      command_zoom, command_remove, command_fullscreen, command_overlay;
    intros H;
    repeat match type of H with
      | (if ?c then _ else _) = _ => destruct c
      | match ?c with _ => _ end = _ => destruct c
      end;
    try discriminate; injection H as <-; reflexivity.
Qed.

Lemma imv_command_exec_keeps_stdin_flag (cmds : imv_commands) (line : string)
  (s s' : imv) :
  imv_command_exec cmds line s = OK s' ->
  paths_from_stdin s' = paths_from_stdin s.
Proof.
  unfold imv_command_exec, dispatch.
  destruct (tokenize line) as [| name rest].
  - intros H. injection H as <-. reflexivity.
  - destruct (lookup name (aliases cmds)) as [expansion |].
    + destruct (tokenize expansion ++ rest)%list as [| n r0].
      * intros H. injection H as <-. reflexivity.
      * destruct (lookup n (handlers cmds));
          [apply call_handler_keeps_stdin_flag
          | intros H; injection H as <-; reflexivity].
    + destruct (lookup name (handlers cmds));
        [apply call_handler_keeps_stdin_flag
        | intros H; injection H as <-; reflexivity].
Qed.

Lemma handle_event_keeps_stdin_flag (s s' : imv) (e : SDL_Event) :
  handle_event s e = OK s' -> paths_from_stdin s' = paths_from_stdin s.
Proof.
  unfold handle_event. intros H.
  destruct e as [| text | sym m rep | y | st x y | |].
  - apply imv_command_exec_keeps_stdin_flag in H. exact H.
  - destruct (input_buffer s) as [buf |]; [| discriminate].
    destruct (strncat _ _ _); [| discriminate].
    cbn [bind] in H. injection H as <-. reflexivity.
  - destruct (input_buffer s) as [buf |].
    + unfold text_entry_key in H.
      destruct sym; try (injection H as <-; reflexivity).
      * destruct (imv_command_exec _ _ _) as [s1 |] eqn:X; [| discriminate].
        cbn [bind] in H. injection H as <-.
        apply imv_command_exec_keeps_stdin_flag in X. exact X.
      * destruct (_ <? _); injection H as <-; reflexivity.
    + unfold normal_key, request_rescale, toggle_playing in H.
      destruct sym, rep; cbv beta iota zeta delta [negb] in H;
        repeat match type of H with
          | (if ?c then _ else _) = _ => destruct c
          | match ?c with _ => _ end = _ => destruct c
          end;
        try discriminate;
        try (injection H as <-; reflexivity);
        apply imv_command_exec_keeps_stdin_flag in H; exact H.
  - injection H as <-. reflexivity.
  - injection H as <-. destruct (negb _); reflexivity.
  - injection H as <-. reflexivity.
  - injection H as <-. reflexivity.
Qed.

Lemma drain_events_keeps_stdin_flag (es : list SDL_Event) :
  forall s s' : imv,
    drain_events es s = OK s' -> paths_from_stdin s' = paths_from_stdin s.
Proof.
  induction es as [| e es IH]; intros s s'; cbn [drain_events].
  - intros H. injection H as <-. reflexivity.
  - destruct (quit s).
    + intros H. injection H as <-. reflexivity.
    + destruct (handle_event s e) as [s1 |] eqn:E; [| discriminate].
      cbn [bind]. intros H. rewrite (IH _ _ H).
      exact (handle_event_keeps_stdin_flag _ _ _ E).
Qed.

Lemma after_events_without_stdin (inp : tick_input) (o : stdin_outcome)
  (dir : string -> option (list string)) (loc : locals) (s : imv) :
  paths_from_stdin s = false ->
  after_events
    (mk_tick_input (events inp) (loader_error inp) (loader_image inp)
       (window_size inp) (ticks inp) (viewport_needs_redraw inp) o dir)
    loc s
  = after_events inp loc s
  /\ exists (c : control) (loc' : locals) (s' : imv),
       after_events inp loc s = OK (c, loc', s')
       /\ paths_from_stdin s' = false.
Proof.
  intros P. unfold after_events, after_load_error.
  cbn [loader_error].
  destruct (handle_load_error_stable (loader_error inp) s)
    as (_ & _ & P1 & _).
  cbv zeta in P1. rewrite P in P1.
  destruct (check_wrapped _) as [w s2] eqn:W.
  apply check_wrapped_stable in W. destruct W as (_ & _ & _ & P2 & _).
  rewrite P1 in P2.
  destruct w; [split; [reflexivity | eexists _, _, _; split; [reflexivity | exact P2]] |].
  assert (P3 : paths_from_stdin (snd (start_loading s2)) = false).
  { unfold start_loading. cbn [imv_navigator_poll_changed].
    destruct (changed (navigator s2)); [| exact P2].
    destruct (imv_navigator_selection _); [exact P2 |].
    cbn [paths_from_stdin set_navigator]. rewrite P2. exact P2. }
  destruct (start_loading s2) as [c s3]. cbn [snd] in P3.
  destruct c;
    try (split; [reflexivity | eexists _, _, _; split; [reflexivity | exact P3]]).
  unfold present. rewrite !shown_unfold. cbv beta iota zeta.
  cbn [loader_image window_size ticks viewport_needs_redraw snd].
  pose proof (paths_from_stdin_before_idle inp loc s3) as B.
  cbv zeta in B. rewrite P3 in B.
  unfold idle. rewrite B. cbn [bind].
  split; [reflexivity |].
  eexists _, _, _. split; [reflexivity | exact B].
Qed.

(** X23: once the session does not read paths from the standard input
    (paths were given as arguments, or the input has ended), the loop
    never consults it again: the flag stays off in every turn and the run
    is the same whatever [poll] and [fgets] would have returned and
    whatever the directories hold. *)
Theorem X23_loop_leaves_stdin_alone_once_paths_are_done :
  forall (inputs : list tick_input)
         (polls : list (stdin_outcome * (string -> option (list string))))
         (loc : locals) (s : imv),
    paths_from_stdin s = false ->
    List.length polls = List.length inputs ->
    imv_loop
      (map (fun p =>
              mk_tick_input (events (fst p)) (loader_error (fst p))
                (loader_image (fst p)) (window_size (fst p)) (ticks (fst p))
                (viewport_needs_redraw (fst p)) (fst (snd p)) (snd (snd p)))
         (combine inputs polls))
      loc s
    = imv_loop inputs loc s
    /\ forall r, imv_loop inputs loc s = OK r ->
                 paths_from_stdin (state_of r) = false.
Proof.
  induction inputs as [| inp rest IH]; intros polls loc s P L.
  - cbn [combine map imv_loop]. split; [reflexivity |].
    intros r H. destruct (quit s); injection H as <-; cbn [state_of];
      [unfold at_exit; destruct (list_at_exit s) |]; exact P.
  - destruct polls as [| [o dir] polls]; [discriminate L |].
    cbn [List.length] in L. injection L as L.
    cbn [combine map imv_loop fst snd].
    destruct (quit s) eqn:Q.
    + split; [reflexivity |]. intros r H. injection H as <-. cbn [state_of].
      unfold at_exit; destruct (list_at_exit s); exact P.
    + unfold tick. cbn [events].
      destruct (drain_events (events inp) s) as [s1 |] eqn:D;
        [| split; [reflexivity | discriminate]].
      cbn [bind].
      pose proof (drain_events_keeps_stdin_flag _ _ _ D) as P1.
      rewrite P in P1.
      destruct (quit s1).
      * cbn [bind]. split; [reflexivity |]. intros r H. injection H as <-.
        cbn [state_of]. unfold at_exit; destruct (list_at_exit s1); exact P1.
      * destruct (after_events_without_stdin inp o dir loc s1 P1)
          as (E & c & loc1 & s2 & A & PA).
        rewrite E, A. cbn [bind].
        destruct c.
        -- apply IH; assumption.
        -- apply IH; assumption.
        -- split; [reflexivity |]. intros r H. injection H as <-.
           cbn [state_of]. unfold at_exit; destruct (list_at_exit s2);
             exact PA.
Qed.

Lemma X23_loop_leaves_stdin_alone_once_paths_are_done_witness :
  imv_loop
    (map (fun p =>
            mk_tick_input (events (fst p)) (loader_error (fst p))
              (loader_image (fst p)) (window_size (fst p)) (ticks (fst p))
              (viewport_needs_redraw (fst p)) (fst (snd p)) (snd (snd p)))
       (combine [quiet 16] [(fgets_line "z.png", fun _ : string => None)]))
    start_locals three_sources
  = imv_loop [quiet 16] start_locals three_sources.
Proof.
  apply (proj1 (X23_loop_leaves_stdin_alone_once_paths_are_done [quiet 16]
                  [(fgets_line "z.png", fun _ : string => None)]
                  start_locals three_sources eq_refl eq_refl)).
Defined.

(** ** Set-up and tear-down *)

(** X24: [setup_window] succeeds exactly when SDL initialises, the window
    and the renderer are created and the font is loaded.  When it fails,
    one message has been written and neither texture nor viewport is
    created; when SDL itself fails to initialise nothing else is tried and
    no handle is set.  When it succeeds every handle but the background
    texture is set, and the background texture is created only for a
    chequered background. *)
Theorem X24_setup_window_stops_at_the_first_failure :
  forall (o : sdl_outcome) (s : imv) (h : sdl_handles),
    (setup_ok (setup_window o s h) = true
     <-> SDL_Init_ok o = true /\ window_created o = true
         /\ renderer_created o = true /\ font_loaded o = true)
    /\ (setup_ok (setup_window o s h) = false ->
          (exists msg,
             setup_session (setup_window o s h)
             = log (fprintf_stderr msg) s)
          /\ ~ In call_imv_texture_create (setup_calls (setup_window o s h))
          /\ ~ In call_imv_viewport_create (setup_calls (setup_window o s h))
          /\ texture (setup_handles (setup_window o s h)) = texture h
          /\ view (setup_handles (setup_window o s h)) = view h)
    /\ (SDL_Init_ok o = false ->
          setup_calls (setup_window o s h) = [call_SDL_Init]
          /\ setup_handles (setup_window o s h) = h)
    /\ (setup_ok (setup_window o s h) = true ->
          sdl_init (setup_handles (setup_window o s h)) = true
          /\ window (setup_handles (setup_window o s h)) = true
          /\ renderer (setup_handles (setup_window o s h)) = true
          /\ ttf_init (setup_handles (setup_window o s h)) = true
          /\ font (setup_handles (setup_window o s h)) = true
          /\ texture (setup_handles (setup_window o s h)) = true
          /\ view (setup_handles (setup_window o s h)) = true
          /\ (In call_create_chequered (setup_calls (setup_window o s h))
              <-> background_type s = BACKGROUND_CHEQUERED)).
Proof.
  intros [i w r c f] s h. unfold setup_window.
  cbn [SDL_Init_ok window_created renderer_created chequered_created
         font_loaded].
  destruct i, w, r, f; cbn [negb setup_ok setup_session setup_handles
                              setup_calls];
    (split; [split; [intros H; try discriminate H; repeat split
                    | intros (A & B & C0 & D); try discriminate; reflexivity]
            |]);
    (split; [intros H; try discriminate H;
             (split; [eexists; reflexivity |]);
             destruct (background_type s); cbn;
             repeat split; try reflexivity;
             intros K; repeat (destruct K as [K | K]; try discriminate K);
             try contradiction
            |]);
    (split; [intros H; try discriminate H; split; reflexivity |]);
    intros H; try discriminate H;
    repeat (split; [reflexivity |]);
    destruct (background_type s); cbn; split;
    intros K; try discriminate K; try reflexivity;
    try (repeat (destruct K as [K | K]; try discriminate K); contradiction);
    auto 10.
Qed.

Lemma X24_setup_window_stops_at_the_first_failure_witness :
  (exists msg,
     setup_session (setup_window sdl_no_window three_sources no_handles)
     = log (fprintf_stderr msg) three_sources)
  /\ view (setup_handles (setup_window sdl_no_window three_sources no_handles))
     = false.
Proof.
  destruct (proj1 (proj2 (X24_setup_window_stops_at_the_first_failure
                            sdl_no_window three_sources no_handles))
              eq_refl)
    as (A & _ & _ & _ & B).
  split; [exact A | exact B].
Defined.

(** The releases of [imv_free] come in one order, whichever are made. *)
Lemma release_order :
  forall (a b d e g k x y : bool) (before behind : list release_call),
    ([free_font_name; imv_navigator_free; imv_loader_free; imv_commands_free]
     ++ when x free_stdin_data ++ when y free_input_buffer
     ++ when a SDL_DestroyRenderer ++ when b SDL_DestroyWindow
     ++ when d SDL_DestroyTexture ++ when e TTF_CloseFont
     ++ when g TTF_Quit ++ when k SDL_Quit ++ [free_imv])%list
    = (before ++ SDL_DestroyWindow :: behind)%list ->
    ~ In SDL_DestroyRenderer behind /\ ~ In SDL_Quit before.
Proof.
  intros a b d e g k x y before behind H.
  destruct a, b, d, e, g, k, x, y; cbn in H;
    repeat (destruct before as [| ? before]; cbn in H;
            [ try discriminate H; injection H as <-;
              split; cbn; intuition discriminate
            | injection H as <- H ]);
    try (destruct before; discriminate H).
Qed.

Lemma In_when (c c' : release_call) (b : bool) :
  In c (when b c') <-> b = true /\ c' = c.
Proof.
  destruct b; cbn; intuition discriminate.
Qed.

(** Each handle is released exactly when it is set. *)
Lemma imv_free_releases (s : imv) (h : sdl_handles) :
  (In SDL_Quit (imv_free s h) <-> sdl_init h = true)
  /\ (In SDL_DestroyWindow (imv_free s h) <-> window h = true)
  /\ (In SDL_DestroyRenderer (imv_free s h) <-> renderer h = true)
  /\ (In TTF_Quit (imv_free s h) <-> ttf_init h = true)
  /\ (In TTF_CloseFont (imv_free s h) <-> font h = true)
  /\ (In SDL_DestroyTexture (imv_free s h) <-> background_texture h = true).
Proof.
  unfold imv_free.
  repeat split; repeat rewrite in_app_iff; repeat rewrite In_when; cbn [In];
    intuition (try discriminate; auto).
Qed.

(** X25: what [setup_window] acquired, [imv_free] releases, and nothing
    else, whichever step of the set-up failed.  Starting from the handles
    of a fresh session, after [setup_window] the call of [imv_free] quits
    SDL exactly when SDL was initialised, destroys the window and the
    renderer exactly when their creation was tried and succeeded, quits
    the font library exactly when it was initialised, closes the font
    exactly when it was loaded, and destroys the background texture
    exactly when one was created; the window is destroyed after the
    renderer and before SDL is quit. *)
Theorem X25_imv_free_releases_what_setup_acquired :
  forall (o : sdl_outcome) (s : imv),
    (In SDL_Quit
       (imv_free (setup_session (setup_window o s no_handles))
          (setup_handles (setup_window o s no_handles)))
     <-> SDL_Init_ok o = true)
    /\ (In SDL_DestroyWindow
          (imv_free (setup_session (setup_window o s no_handles))
             (setup_handles (setup_window o s no_handles)))
        <-> In (call_SDL_CreateWindow 1280 720)
              (setup_calls (setup_window o s no_handles))
            /\ window_created o = true)
    /\ (In SDL_DestroyRenderer
          (imv_free (setup_session (setup_window o s no_handles))
             (setup_handles (setup_window o s no_handles)))
        <-> In call_SDL_CreateRenderer
              (setup_calls (setup_window o s no_handles))
            /\ renderer_created o = true)
    /\ (In TTF_Quit
          (imv_free (setup_session (setup_window o s no_handles))
             (setup_handles (setup_window o s no_handles)))
        <-> In call_TTF_Init (setup_calls (setup_window o s no_handles)))
    /\ (In TTF_CloseFont
          (imv_free (setup_session (setup_window o s no_handles))
             (setup_handles (setup_window o s no_handles)))
        <-> In call_TTF_Init (setup_calls (setup_window o s no_handles))
            /\ font_loaded o = true)
    /\ (In SDL_DestroyTexture
          (imv_free (setup_session (setup_window o s no_handles))
             (setup_handles (setup_window o s no_handles)))
        <-> In call_create_chequered
              (setup_calls (setup_window o s no_handles))
            /\ chequered_created o = true)
    /\ (forall before behind,
          imv_free (setup_session (setup_window o s no_handles))
            (setup_handles (setup_window o s no_handles))
          = (before ++ SDL_DestroyWindow :: behind)%list ->
          ~ In SDL_DestroyRenderer behind /\ ~ In SDL_Quit before).
Proof.
  intros o s.
  destruct (imv_free_releases (setup_session (setup_window o s no_handles))
              (setup_handles (setup_window o s no_handles)))
    as (A & B & C & D & E & F).
  rewrite A, B, C, D, E, F.
  split; [| split; [| split; [| split; [| split; [| split]]]]];
    try (unfold imv_free; intros ? ?; apply release_order);
    destruct o as [i w r c f];
    unfold setup_window, no_handles;
    cbn [SDL_Init_ok window_created renderer_created chequered_created
           font_loaded];
    destruct i, w, r, f, (background_type s);
    cbn [negb setup_ok setup_session setup_handles setup_calls sdl_init
           window renderer background_texture ttf_init font texture view
           set_sdl_init app In];
    intuition (try discriminate; auto).
Qed.

(** ** The starting image *)

Lemma skip_sign_other (c : ascii) (cs : list ascii) :
  Ascii.eqb c "-" = false -> Ascii.eqb c "+" = false ->
  C.skip_sign (c :: cs) = (false, c :: cs, 0%nat).
Proof.
  destruct c as [[] [] [] [] [] [] [] []]; cbn; intros A B;
    try reflexivity; discriminate.
Qed.

(** [strtol] in base 10 on a numeral and what follows it. *)
Lemma strtol_numeral (ds : list Z) (rest : list ascii) :
  Forall is_digit ds -> ends_number ds rest = true ->
  decimal ds <= C.LONG_MAX ->
  C.strtol (string_of_list_ascii (numeral ds ++ rest)) 10 = decimal ds.
Proof.
  intros F R B. unfold C.strtol, C.scan_number.
  rewrite list_ascii_of_string_of_list_ascii.
  assert (D : C.scan_digits 10 rest (decimal_from 0 ds) (0 + List.length ds)
              = (decimal ds, List.length ds)).
  { destruct rest as [| c rest]; [reflexivity |].
    cbn [ends_number] in R. cbn [C.scan_digits].
    destruct (C.digit_of 10 c); [discriminate R | reflexivity]. }
  destruct ds as [| d ds].
  - cbn [numeral map app]. destruct rest as [| c rest]; [reflexivity |].
    cbn [ends_number] in R. cbn [C.skip_space].
    destruct (C.digit_of 10 c) eqn:E; [discriminate R |].
    destruct (C.isspace c); [discriminate R |].
    destruct (Ascii.eqb c "-") eqn:M; [discriminate R |].
    destruct (Ascii.eqb c "+") eqn:P; [discriminate R |].
    rewrite (skip_sign_other c rest M P), skip_prefix_decimal.
    cbn [C.scan_digits]. rewrite E. reflexivity.
  - inversion F as [| d' ds' Hd Hds]; subst.
    destruct (digit_char_facts d Hd) as (_ & Sp & Sg & _).
    cbn [numeral map app C.skip_space]. rewrite Sp, Sg.
    rewrite skip_prefix_decimal.
    change (digit_char d :: (map digit_char ds ++ rest)%list)
      with (numeral (d :: ds) ++ rest)%list.
    rewrite (scan_numeral (d :: ds) F), D.
    cbn [List.length C.negative C.magnitude].
    destruct (Z.ltb_spec C.LONG_MAX (decimal (d :: ds))); [lia | reflexivity].
Qed.

Lemma int_of_long_small (z : Z) : 0 <= z < 2 ^ 31 -> int_of_long z = z.
Proof.
  intros H. unfold int_of_long. rewrite Z.mod_small by lia.
  destruct (Z.ltb_spec z (2 ^ 31)); [reflexivity | lia].
Qed.

Lemma int_of_long_min (z : Z) :
  int_of_long z = INT_MIN <-> z mod 2 ^ 32 = 2 ^ 31.
Proof.
  unfold int_of_long, INT_MIN.
  pose proof (Z.mod_pos_bound z (2 ^ 32) ltac:(lia)).
  destruct (Z.ltb_spec (z mod 2 ^ 32) (2 ^ 31)); lia.
Qed.

(** X26: the number given with [-n] counts from one.  Take a starting
    path that is not one of the paths and that is made of decimal digits,
    the number n, followed by any text that does not start with a digit
    (white space and signs included), or that has no digits and starts
    with a character that is neither a digit, white space nor a sign (n is
    then 0).  For n from 1 to 2^31 - 1 the image at index n - 1 is
    selected, whatever follows the number and however many paths there
    are; for n = 0 "Invalid starting image" is reported and the cursor is
    left alone, as it is for every number when [errno] is [EINVAL]; and
    when the number truncated to an [int] is [INT_MIN], the decrement
    overflows. *)
Theorem X26_starting_number_counts_from_one :
  forall (select : imv_navigator -> Z -> imv_navigator) (e : bool)
         (s : imv) (ds : list Z) (rest : list ascii),
    starting_path s = Some (string_of_list_ascii (numeral ds ++ rest)) ->
    imv_navigator_find_path (navigator s)
      (string_of_list_ascii (numeral ds ++ rest)) = -1 ->
    Forall is_digit ds -> ends_number ds rest = true ->
    decimal ds <= C.LONG_MAX ->
    (e = false -> 1 <= decimal ds < 2 ^ 31 ->
     select_starting_image select e s
     = OK (set_navigator (select (navigator s) (decimal ds - 1)) s))
    /\ (decimal ds = 0 \/ (e = true /\ decimal ds mod 2 ^ 32 <> 2 ^ 31) ->
        select_starting_image select e s
        = OK (log (fprintf_stderr
                     ("Invalid starting image: "
                      ++ string_of_list_ascii (numeral ds ++ rest) ++ nl)) s))
    /\ (decimal ds mod 2 ^ 32 = 2 ^ 31 ->
        select_starting_image select e s
        = Fault (SignedOverflow "index -= 1")).
Proof.
  intros select e s ds rest P N F R B.
  unfold select_starting_image, starting_index. rewrite P, N.
  rewrite (strtol_numeral ds rest F R B).
  change (-1 =? -1) with true. cbv iota.
  pose proof (int_of_long_min (decimal ds)) as M.
  repeat split.
  - intros -> I. rewrite (int_of_long_small (decimal ds)) by lia.
    destruct (Z.eqb_spec (decimal ds) INT_MIN) as [E | _];
      [unfold INT_MIN in E; lia |].
    cbn [bind]. destruct (Z.leb_spec 0 (decimal ds - 1)); [reflexivity | lia].
  - intros [Z0 | [-> NM]].
    + rewrite Z0. destruct e; reflexivity.
    + destruct (Z.eqb_spec (int_of_long (decimal ds)) INT_MIN) as [E | _];
        [apply M in E; contradiction | reflexivity].
  - intros E. apply M in E. rewrite E, Z.eqb_refl. reflexivity.
Qed.

Lemma X26_starting_number_counts_from_one_witness :
  select_starting_image (fun nav i => imv_navigator_select_rel nav i) false
    (started_at "2 x")
  = OK (set_navigator
          (imv_navigator_select_rel (navigator (started_at "2 x")) 1)
          (started_at "2 x")).
Proof.
  apply (X26_starting_number_counts_from_one
           (fun nav i => imv_navigator_select_rel nav i) false
           (started_at "2 x") [2] [" "; "x"]%char);
    try reflexivity.
  - repeat constructor; unfold is_digit; lia.
  - vm_compute. discriminate.
  - vm_compute. split; [discriminate | reflexivity].
Defined.

(** ** The run *)

Lemma setup_window_ok (o : sdl_outcome) (s : imv) (h : sdl_handles) :
  setup_ok (setup_window o s h)
  = SDL_Init_ok o && window_created o && renderer_created o && font_loaded o.
Proof.
  unfold setup_window. destruct o as [[] [] [] c []]; reflexivity.
Qed.

Lemma setup_window_failure (o : sdl_outcome) (s : imv) (h : sdl_handles) :
  setup_ok (setup_window o s h) = false ->
  exists msg, setup_session (setup_window o s h) = log (fprintf_stderr msg) s.
Proof.
  unfold setup_window. destruct o as [[] [] [] c []]; cbn;
    intros H; try discriminate H; eexists; reflexivity.
Qed.

(** X27: [imv_run] fails only in the set-up.  A run that returns gives 1
    exactly when the session was not told to quit beforehand and SDL, the
    window, the renderer or the font could not be had; it then has done
    nothing but report that on stderr: the loop is not entered and the
    paths are not listed, even when asked for.  Every other run gives 0,
    and a session told to quit beforehand makes no call at all. *)
Theorem X27_imv_run_fails_only_in_the_set_up :
  forall (o : sdl_outcome) (select : imv_navigator -> Z -> imv_navigator)
         (e : bool) (start : Z) (inputs : list tick_input) (s : imv)
         (h : sdl_handles) (r : run_result),
    imv_run o select e start inputs s h = OK r ->
    (exit_code r = 1
     <-> quit s = false
         /\ (SDL_Init_ok o = false \/ window_created o = false
             \/ renderer_created o = false \/ font_loaded o = false))
    /\ (exit_code r = 1 ->
        exists msg, final r = loop_ended (log (fprintf_stderr msg) s))
    /\ (exit_code r <> 1 -> exit_code r = 0)
    /\ (quit s = true ->
        made r = [] /\ final_handles r = h /\ final r = loop_ended s).
Proof.
  intros o select e start inputs s h r H. unfold imv_run in H.
  destruct (quit s) eqn:Q.
  - injection H as <-. cbn.
    repeat split; try discriminate; try lia; intros [A _]; discriminate A.
  - pose proof (setup_window_ok o s h) as K.
    pose proof (setup_window_failure o s h) as W.
    destruct (setup_ok (setup_window o s h)) eqn:S; cbn [negb] in H.
    + destruct (select_starting_image select e
                  (setup_session (setup_window o s h))) as [s1 | f];
        [| discriminate H].
      cbn [bind] in H.
      destruct (imv_loop inputs (mk_locals 0 0 start) s1) as [l | f];
        [| discriminate H].
      cbn [bind] in H. injection H as <-. cbn.
      symmetry in K. repeat rewrite Bool.andb_true_iff in K.
      destruct K as (((A & B) & C) & D).
      repeat split; try discriminate; try lia;
        intros [_ [X | [X | [X | X]]]]; congruence.
    + injection H as <-. cbn. destruct (W eq_refl) as [msg E].
      repeat split; try discriminate; try lia;
        try (intros _; exists msg; rewrite E; reflexivity).
      destruct (SDL_Init_ok o), (window_created o), (renderer_created o),
        (font_loaded o); auto; discriminate K.
Qed.

Lemma X27_imv_run_fails_only_in_the_set_up_witness :
  exists r : run_result,
    imv_run sdl_no_window (fun nav _ => nav) false 0 [] three_sources
      no_handles = OK r
    /\ exit_code r = 1.
Proof.
  assert (H : exists r, imv_run sdl_no_window (fun nav _ => nav) false 0 []
                          three_sources no_handles = OK r)
    by (eexists; vm_compute; reflexivity).
  destruct H as [r H]. exists r. split; [exact H |].
  apply (X27_imv_run_fails_only_in_the_set_up sdl_no_window
           (fun nav _ => nav) false 0 [] three_sources no_handles r H).
  split; [reflexivity | right; left; reflexivity].
Defined.

(** ** The chequered background *)

(** The rows of the tiling: the texture at every multiple of its width
    left of [ww]. *)
Lemma tile_row_spec (y ww img_w img_h : Z) :
  1 <= img_w -> ww + img_w <= INT_MAX + 1 ->
  forall (fuel : nat) (x : Z),
    0 <= x -> ww - x <= Z.of_nat fuel ->
    exists row,
      tile_row fuel x y ww img_w img_h = Some (OK row)
      /\ (forall t, In t row <->
                    exists k, 0 <= k /\ x + k * img_w < ww
                              /\ t = mk_rect (x + k * img_w) y img_w img_h)
      /\ Z.of_nat (List.length row)
         = Z.max 0 ((ww - x + img_w - 1) / img_w).
Proof.
  intros W B. unfold INT_MAX in B.
  induction fuel as [| fuel IH]; intros x X F.
  - exists []. cbn [tile_row].
    destruct (Z.ltb_spec x ww) as [L | G]; [lia |].
    split; [reflexivity |]. split.
    + intros t. split; [intros [] |]. intros (k & K & L & _). nia.
    + cbn [List.length].
      assert ((ww - x + img_w - 1) / img_w <= 0); [| lia].
      apply Z.lt_succ_r. apply Z.div_lt_upper_bound; lia.
  - cbn [tile_row].
    destruct (Z.ltb_spec x ww) as [L | G].
    + destruct (Z.ltb_spec INT_MAX (x + img_w)) as [O | _];
        [unfold INT_MAX in O; lia |].
      destruct (Z.ltb_spec (x + img_w) INT_MIN) as [O | _];
        [unfold INT_MIN in O; lia |].
      cbn [orb].
      destruct (IH (x + img_w)) as (row & -> & M & N); [lia | lia |].
      exists (mk_rect x y img_w img_h :: row).
      split; [reflexivity |]. split.
      * intros t. cbn [In]. rewrite M. split.
        -- intros [<- | (k & K & Kw & ->)].
           ++ exists 0. repeat split; [lia | lia | f_equal; lia].
           ++ exists (k + 1). repeat split; [lia | lia | f_equal; lia].
        -- intros (k & K & Kw & ->).
           destruct (Z.eq_dec k 0) as [-> | NZ].
           ++ left. f_equal. lia.
           ++ right. exists (k - 1). repeat split; [lia | lia | f_equal; lia].
      * cbn [List.length]. rewrite Nat2Z.inj_succ, N.
        replace (ww - x + img_w - 1) with ((ww - x - 1) + 1 * img_w) by lia.
        rewrite Z.div_add by lia.
        replace (ww - (x + img_w) + img_w - 1) with (ww - x - 1) by lia.
        pose proof (Z.div_pos (ww - x - 1) img_w ltac:(lia) ltac:(lia)).
        lia.
    + exists []. split; [reflexivity |]. split.
      * intros t. split; [intros [] |]. intros (k & K & L & _). nia.
      * cbn [List.length].
        assert ((ww - x + img_w - 1) / img_w <= 0); [| lia].
        apply Z.lt_succ_r. apply Z.div_lt_upper_bound; lia.
Qed.

Lemma tile_rows_spec (ww wh img_w img_h : Z) (inner : nat) :
  1 <= img_w -> 1 <= img_h ->
  ww + img_w <= INT_MAX + 1 -> wh + img_h <= INT_MAX + 1 ->
  ww <= Z.of_nat inner ->
  forall (fuel : nat) (y : Z),
    0 <= y -> wh - y <= Z.of_nat fuel ->
    exists tiles,
      tile_rows fuel inner y ww wh img_w img_h = Some (OK tiles)
      /\ (forall t, In t tiles <->
                    exists j k, 0 <= j /\ y + j * img_h < wh
                                /\ 0 <= k /\ k * img_w < ww
                                /\ t = mk_rect (k * img_w) (y + j * img_h)
                                         img_w img_h)
      /\ Z.of_nat (List.length tiles)
         = Z.max 0 ((ww + img_w - 1) / img_w)
           * Z.max 0 ((wh - y + img_h - 1) / img_h).
Proof.
  intros W H Bw Bh I.
  induction fuel as [| fuel IH]; intros y Y F.
  - exists []. cbn [tile_rows].
    destruct (Z.ltb_spec y wh) as [L | G]; [lia |].
    split; [reflexivity |]. split.
    + intros t. split; [intros [] |]. intros (j & k & J & L & _). nia.
    + cbn [List.length].
      assert ((wh - y + img_h - 1) / img_h <= 0); [| lia].
      apply Z.lt_succ_r. apply Z.div_lt_upper_bound; lia.
  - cbn [tile_rows].
    destruct (Z.ltb_spec y wh) as [L | G].
    + destruct (tile_row_spec y ww img_w img_h W Bw inner 0)
        as (row & -> & Mr & Nr); [lia | lia |].
      unfold INT_MAX in Bh.
      destruct (Z.ltb_spec INT_MAX (y + img_h)) as [O | _];
        [unfold INT_MAX in O; lia |].
      destruct (Z.ltb_spec (y + img_h) INT_MIN) as [O | _];
        [unfold INT_MIN in O; lia |].
      cbn [orb].
      destruct (IH (y + img_h)) as (tiles & -> & M & N); [lia | lia |].
      exists (row ++ tiles)%list.
      split; [reflexivity |]. split.
      * intros t. rewrite in_app_iff, Mr, M. split.
        -- intros [(k & K & Kw & ->) | (j & k & J & Jh & K & Kw & ->)].
           ++ exists 0, k. repeat split; try lia. f_equal; lia.
           ++ exists (j + 1), k. repeat split; try lia. f_equal; lia.
        -- intros (j & k & J & Jh & K & Kw & ->).
           destruct (Z.eq_dec j 0) as [-> | NZ].
           ++ left. exists k. repeat split; try lia. f_equal; lia.
           ++ right. exists (j - 1), k. repeat split; try lia. f_equal; lia.
      * rewrite length_app, Nat2Z.inj_add, Nr, N.
        replace (ww - 0 + img_w - 1) with (ww + img_w - 1) by lia.
        replace (wh - y + img_h - 1) with ((wh - y - 1) + 1 * img_h) by lia.
        rewrite Z.div_add by lia.
        replace (wh - (y + img_h) + img_h - 1) with (wh - y - 1) by lia.
        pose proof (Z.div_pos (wh - y - 1) img_h ltac:(lia) ltac:(lia)).
        rewrite (Z.max_r 0 ((wh - y - 1) / img_h)) by lia.
        rewrite (Z.max_r 0 ((wh - y - 1) / img_h + 1)) by lia.
        ring.
    + exists []. split; [reflexivity |]. split.
      * intros t. split; [intros [] |]. intros (j & k & J & L & _). nia.
      * cbn [List.length].
        assert ((wh - y + img_h - 1) / img_h <= 0); [| lia].
        apply Z.lt_succ_r. apply Z.div_lt_upper_bound; lia.
Qed.

(** X28: the chequered background fills the window.  For a texture of at
    least one pixel each way and a window that leaves room for one more
    tile below [INT_MAX], the two loops of [render_window] end without
    overflow; every pixel of the window lies in one of the copies they
    make; every copy has the size of the texture and starts inside the
    window at a multiple of that size; and they make as many copies as
    tiles are needed across times tiles needed down. *)
Theorem X28_chequered_tiles_cover_the_window :
  forall (fuel : nat) (ww wh img_w img_h : Z),
    1 <= img_w -> 1 <= img_h ->
    ww + img_w <= INT_MAX + 1 -> wh + img_h <= INT_MAX + 1 ->
    ww <= Z.of_nat fuel -> wh <= Z.of_nat fuel ->
    exists tiles,
      chequered_tiles fuel ww wh img_w img_h = Some (OK tiles)
      /\ (forall px py, 0 <= px < ww -> 0 <= py < wh ->
                        exists t, In t tiles /\ covers t px py)
      /\ (forall t, In t tiles ->
                    rect_w t = img_w /\ rect_h t = img_h
                    /\ 0 <= rect_x t < ww /\ 0 <= rect_y t < wh
                    /\ rect_x t mod img_w = 0 /\ rect_y t mod img_h = 0)
      /\ Z.of_nat (List.length tiles)
         = Z.max 0 ((ww + img_w - 1) / img_w)
           * Z.max 0 ((wh + img_h - 1) / img_h).
Proof.
  intros fuel ww wh img_w img_h W H Bw Bh Fw Fh.
  destruct (tile_rows_spec ww wh img_w img_h fuel W H Bw Bh Fw fuel 0)
    as (tiles & E & M & N); [lia | lia |].
  exists tiles. split; [exact E |]. split; [| split].
  - intros px py Px Py.
    exists (mk_rect (px / img_w * img_w) (0 + py / img_h * img_h) img_w img_h).
    pose proof (Z.div_pos px img_w ltac:(lia) ltac:(lia)).
    pose proof (Z.div_pos py img_h ltac:(lia) ltac:(lia)).
    pose proof (Z.mul_div_le px img_w ltac:(lia)).
    pose proof (Z.mul_div_le py img_h ltac:(lia)).
    pose proof (Z.mul_succ_div_gt px img_w ltac:(lia)).
    pose proof (Z.mul_succ_div_gt py img_h ltac:(lia)).
    split.
    + apply M. exists (py / img_h), (px / img_w).
      repeat split; try lia.
    + unfold covers. cbn [rect_x rect_y rect_w rect_h]. lia.
  - intros t T. apply M in T. destruct T as (j & k & J & Jh & K & Kw & ->).
    cbn [rect_x rect_y rect_w rect_h].
    repeat split; try lia; try nia.
    + apply Z.mod_mul. lia.
    + rewrite Z.add_0_l. apply Z.mod_mul. lia.
  - rewrite N. replace (wh - 0 + img_h - 1) with (wh + img_h - 1) by lia.
    reflexivity.
Qed.

Lemma X28_chequered_tiles_cover_the_window_witness :
  exists tiles,
    chequered_tiles 1280 1280 720 512 512 = Some (OK tiles)
    /\ Z.of_nat (List.length tiles) = 6
    /\ exists t, In t tiles /\ covers t 1279 719.
Proof.
  destruct (X28_chequered_tiles_cover_the_window 1280 1280 720 512 512)
    as (tiles & E & C & _ & N); try (unfold INT_MAX; cbn; lia).
  exists tiles. split; [exact E | split].
  - rewrite N. reflexivity.
  - apply C; lia.
Defined.

(** X29: with a texture of no width the inner loop never ends: whatever
    the number of turns allowed, a window with a pixel in it is not
    tiled. *)
Theorem X29_zero_width_texture_never_finishes :
  forall (fuel : nat) (ww wh img_h : Z),
    0 < ww -> 0 < wh ->
    chequered_tiles fuel ww wh 0 img_h = None.
Proof.
  intros fuel ww wh img_h W H. unfold chequered_tiles.
  assert (R : forall (n : nat) (y : Z), tile_row n 0 y ww 0 img_h = None).
  { induction n as [| n IH]; intros y; cbn [tile_row];
      destruct (Z.ltb_spec 0 ww) as [_ | G]; try lia; [reflexivity |].
    cbn [Z.add]. change (INT_MAX <? 0) with false.
    change (0 <? INT_MIN) with false. cbn [orb]. rewrite IH. reflexivity. }
  destruct fuel as [| fuel]; cbn [tile_rows];
    destruct (Z.ltb_spec 0 wh) as [_ | G]; try lia; [reflexivity |].
  rewrite R. reflexivity.
Qed.

Lemma X29_zero_width_texture_never_finishes_witness :
  chequered_tiles 1000 1280 720 0 512 = None.
Proof.
  apply (X29_zero_width_texture_never_finishes 1000 1280 720 512); lia.
Defined.
